(** * NICO: the KubernetesCluster reconciliation core

    A shallow embedding of [clients.py] (the API gateway) and
    [kubernetescluster_handlers.py] (selector, child manager, reconciler,
    readiness monitor, kubeconfig harvester, deletion), and the properties
    of the specification checked against it.

    Custom-resource documents are untyped dictionaries in the source.  They
    are embedded as records whose fields are the keys the code reads or
    writes; a key read with [.get] is an [option] field ([None] = absent),
    and objects are taken to conform to their schema (a key read with
    [d["k"]] is a plain field).  Every call that leaves the process (the
    Kubernetes client, [subprocess], [tempfile], [yaml]) is a [request]
    answered by the environment, which may also make it raise. *)

From Stdlib Require Import ZArith Lia List Ascii String.
From Stdlib Require Import Sorting.Sorted Sorting.Permutation Structures.OrderedTypeEx.
From stdpp Require Import base option list gmap strings pretty fin_maps sorting.
Import ListNotations.

Local Open Scope Z_scope.
Local Open Scope string_scope.
Local Open Scope list_scope.

(* ===================================================================== *)
(** ** Python primitives used by the source                               *)
(* ===================================================================== *)

Definition nl : string := String (ascii_of_nat 10) EmptyString.
Definition dquote : string := String (ascii_of_nat 34) EmptyString.

(** [bool(s)] for a string, [bool(l)] for a list, [bool(d)] for a dict. *)
Definition truthy_str (s : string) : bool :=
  match s with EmptyString => false | _ => true end.

Definition truthy_list {A} (l : list A) : bool :=
  match l with [] => false | _ => true end.

Definition truthy_dict {V} (d : gmap string V) : bool :=
  negb (bool_decide (d = ∅)).

(** [bool(d.get(k))]: an absent key gives [None], which is falsy. *)
Definition truthy_opt {A} (t : A -> bool) (o : option A) : bool :=
  match o with Some a => t a | None => false end.

(** [a or b] on strings. *)
Definition str_or (a b : string) : string := if truthy_str a then a else b.

(** [needle in hay]. *)
Fixpoint str_contains (needle hay : string) : bool :=
  String.prefix needle hay ||
  match hay with
  | EmptyString => false
  | String _ hay' => str_contains needle hay'
  end.

(** [s.lower()], on the ASCII letters. *)
Definition lower_ascii (c : ascii) : ascii :=
  let n := nat_of_ascii c in
  if (65 <=? n)%nat && (n <=? 90)%nat then ascii_of_nat (n + 32) else c.

Fixpoint str_lower (s : string) : string :=
  match s with
  | EmptyString => EmptyString
  | String c s' => String (lower_ascii c) (str_lower s')
  end.

(** The white space of [str.strip()] and [str.isspace()], on text held as
    UTF-8 bytes: U+0009..U+000D and U+001C..U+0020 in one byte; U+0085 and
    U+00A0 in two; U+1680, U+2000..U+200A, U+2028, U+2029, U+202F, U+205F
    and U+3000 in three. *)
Definition is_space (c : ascii) : bool :=
  let n := nat_of_ascii c in
  ((9 <=? n)%nat && (n <=? 13)%nat) || ((28 <=? n)%nat && (n <=? 32)%nat).

Definition is_space2 (c1 c2 : ascii) : bool :=
  let n1 := nat_of_ascii c1 in
  let n2 := nat_of_ascii c2 in
  (n1 =? 194)%nat && ((n2 =? 133)%nat || (n2 =? 160)%nat).

Definition is_space3 (c1 c2 c3 : ascii) : bool :=
  let n1 := nat_of_ascii c1 in
  let n2 := nat_of_ascii c2 in
  let n3 := nat_of_ascii c3 in
  ((n1 =? 225)%nat && (n2 =? 154)%nat && (n3 =? 128)%nat)
  || ((n1 =? 226)%nat && (n2 =? 128)%nat
      && (((128 <=? n3)%nat && (n3 <=? 138)%nat)
          || (n3 =? 168)%nat || (n3 =? 169)%nat || (n3 =? 175)%nat))
  || ((n1 =? 226)%nat && (n2 =? 129)%nat && (n3 =? 159)%nat)
  || ((n1 =? 227)%nat && (n2 =? 128)%nat && (n3 =? 128)%nat).

(** [bool(s.strip())]: some character of [s] is not white space.  The
    characters are read from the left; the first one that is not white
    space decides. *)
Fixpoint truthy_stripped (s : string) : bool :=
  match s with
  | EmptyString => false
  | String c1 s1 =>
      if is_space c1 then truthy_stripped s1
      else
        match s1 with
        | EmptyString => true
        | String c2 s2 =>
            if is_space2 c1 c2 then truthy_stripped s2
            else
              match s2 with
              | EmptyString => true
              | String c3 s3 =>
                  if is_space3 c1 c2 c3 then truthy_stripped s3 else true
              end
        end
  end.

(** [sep.join(l)]. *)
Fixpoint str_join (sep : string) (l : list string) : string :=
  match l with
  | [] => ""
  | [x] => x
  | x :: l' => x +:+ sep +:+ str_join sep l'
  end.

(** [l[:n]] for any integer [n]: a negative bound counts from the end. *)
Definition slice_to {A} (l : list A) (n : Z) : list A :=
  if (0 <=? n)%Z then firstn (Z.to_nat n) l
  else firstn (length l - Z.to_nat (- n))%nat l.

(** [l.sort()] on strings: ascending code-point order, which on UTF-8 bytes
    is [String.leb].  The order is total and antisymmetric, so the result
    does not depend on the sorting algorithm. *)
Fixpoint insert_sorted (x : string) (l : list string) : list string :=
  match l with
  | [] => [x]
  | y :: l' => if String.leb x y then x :: l else y :: insert_sorted x l'
  end.

Fixpoint sort (l : list string) : list string :=
  match l with
  | [] => []
  | x :: l' => insert_sorted x (sort l')
  end.

(** [d[k] = v] on a dict kept in insertion order (iteration order matters
    for [appliedMachines]): an existing key keeps its position. *)
Fixpoint dict_set {V} (k : string) (v : V) (d : list (string * V)) : list (string * V) :=
  match d with
  | [] => [(k, v)]
  | (k', v') :: d' =>
      if bool_decide (k' = k) then (k, v) :: d' else (k', v') :: dict_set k v d'
  end.

Fixpoint dict_get {V} (k : string) (d : list (string * V)) : option V :=
  match d with
  | [] => None
  | (k', v') :: d' => if bool_decide (k' = k) then Some v' else dict_get k d'
  end.

(* ===================================================================== *)
(** ** Data model                                                         *)
(* ===================================================================== *)

(** A role block of the cluster spec: [machines], [machineSelector] and
    [count]. *)
Record MachineSelector := { matchLabels : option (gmap string string) }.

Record RoleSpec := {
  machines : option (list string);
  machineSelector : option MachineSelector;
  count : option Z;
}.

(** [{}], the default of [cluster_spec.get(role, {})]. *)
Definition empty_role_spec : RoleSpec :=
  {| machines := None; machineSelector := None; count := None |}.

(** [KubernetesCluster.spec].  [gitRepo] is required by the schema and read
    with [spec["gitRepo"]]; [credentialsRef] is an opaque dict that is only
    copied and compared. *)
Record ClusterSpec := {
  gitRepo : string;
  ref : option string;
  configurationSubdir : option string;
  credentialsRef : option (gmap string string);
  controlPlane : option RoleSpec;
  dataPlane : option RoleSpec;
}.

Record Condition := {
  cond_type : string;
  cond_status : string;
  lastTransitionTime : string;
  cond_reason : string;
  cond_message : string;
}.

(** [KubernetesCluster.status], also the body of a status patch: only the
    keys that are [Some] are present. *)
Record ClusterStatus := {
  phase : option string;
  controlPlaneReady : option string;
  dataPlaneReady : option string;
  kubeconfigSecret : option string;
  appliedMachines : option (list (string * string));
  selectedControlPlaneMachines : option (list string);
  selectedDataPlaneMachines : option (list string);
  conditions : option (list Condition);
}.

Definition empty_status : ClusterStatus :=
  {| phase := None; controlPlaneReady := None; dataPlaneReady := None;
     kubeconfigSecret := None; appliedMachines := None;
     selectedControlPlaneMachines := None; selectedDataPlaneMachines := None;
     conditions := None |}.

(** [bool(status)]: the dict has a key. *)
Definition truthy_status (st : ClusterStatus) : bool :=
  match st with
  | {| phase := None; controlPlaneReady := None; dataPlaneReady := None;
       kubeconfigSecret := None; appliedMachines := None;
       selectedControlPlaneMachines := None; selectedDataPlaneMachines := None;
       conditions := None |} => false
  | _ => true
  end.

(** The [body] of a KubernetesCluster event. *)
Record ClusterBody := {
  deletionTimestamp : option string;
  uid : option string;
  status : option ClusterStatus;
}.

(** A Machine as the core reads it. *)
Record Machine := {
  machine_name : string;
  machine_labels : option (gmap string string);
  machine_annotations : option (gmap string string);
  hostname : option string;
  ipAddress : option string;
  sshUser : option string;
  sshKeySecretRef : option string;
  hasConfiguration : option bool;
}.

Record AdditionalFile := {
  path : string;
  valueType : string;
  inline : option string;
  secretRef : option string;
}.

(** [NixosConfiguration.spec]: as the core writes it at creation and as it
    reads it back from an existing child. *)
Record NixosConfigSpec := {
  cfg_gitRepo : option string;
  cfg_flake : option string;
  cfg_onRemoveFlake : option string;
  cfg_configurationSubdir : option string;
  cfg_machineRef : option string;
  cfg_fullInstall : option bool;
  cfg_additionalFiles : option (list AdditionalFile);
  cfg_ref : option string;
  cfg_credentialsRef : option (gmap string string);
}.

(** An existing NixosConfiguration as the core reads it. *)
Record NixosConfiguration := {
  config_labels : option (gmap string string);
  config_spec : NixosConfigSpec;
  appliedCommit : option string;
}.

Record OwnerReference := {
  owner_apiVersion : string;
  owner_kind : string;
  owner_name : string;
  owner_uid : string;
  controller : bool;
  blockOwnerDeletion : bool;
}.

(** The body of a create call for a NixosConfiguration. *)
Record ConfigBody := {
  body_apiVersion : string;
  body_kind : string;
  body_name : string;
  body_labels : option (gmap string string);
  ownerReferences : option (list OwnerReference);
  body_spec : NixosConfigSpec;
}.

(** A value of a merge patch: JSON null, a string, or a dict. *)
Inductive patch_value :=
| PNull
| PStr (s : string)
| PDict (d : gmap string string).

(** [{"spec": spec_updates}]: the keys in insertion order. *)
Record SpecPatch := { patch_spec : list (string * patch_value) }.

(** base64 text, kept symbolic: [b64encode s] is the encoding of the UTF-8
    string [s], and decoding gives [s] back. *)
Inductive b64 := b64encode (utf8 : string).
Definition b64decode (b : b64) : string := let 'b64encode s := b in s.

Record V1Secret := {
  secret_name : string;
  secret_data : option (list (string * option b64));
}.

(** Exceptions.  [ApiException] carries its HTTP status and its [str(e)];
    [subprocess.TimeoutExpired] and any other exception only their
    [str(e)]. *)
Inductive exn :=
| ApiException (api_status : Z) (text : string)
| OtherException (text : string)
| TimeoutExpired (text : string)
| TemporaryError (msg : string) (delay : Z)
| PermanentError (msg : string).

Definition str_exn (e : exn) : string :=
  match e with
  | ApiException _ text => text
  | OtherException text => text
  | TimeoutExpired text => text
  | TemporaryError msg _ => msg
  | PermanentError msg => msg
  end.

#[global] Instance patch_value_eq_dec : EqDecision patch_value.
Proof. solve_decision. Defined.
#[global] Instance exn_eq_dec : EqDecision exn.
Proof. solve_decision. Defined.

(* ===================================================================== *)
(** ** Effects: calls to the environment, logging and metrics            *)
(* ===================================================================== *)

Inductive level := DEBUG | INFO | WARNING | ERROR.

(** The functions of [metrics.py] the core calls; the sink is external. *)
Inductive metric_call :=
| record_reconcile_success (namespace cluster : string)
| record_reconcile_error (namespace cluster error_type : string)
| record_nixos_config_created (namespace cluster role : string)
| record_nixos_config_deleted (namespace cluster : string)
| record_kubeconfig_generated (namespace cluster : string) (success : bool)
| record_machines_selected (namespace cluster role : string) (n : nat)
| update_cluster_metrics (namespace cluster : string) (status_update : ClusterStatus)
| cluster_reconcile_duration (namespace cluster : string)
| machine_selection_duration (namespace cluster role : string).

(** What the core emits without waiting for an answer. *)
Inductive output :=
| Log (lvl : level) (msg : string)
| Metric (m : metric_call).

(** [subprocess.CompletedProcess]. *)
Record CompletedProcess := { returncode : Z; stdout : string }.

(** The calls that leave the process, with the arguments of the source. *)
Inductive request :=
| get_namespaced_custom_object (group version namespace plural name : string)
| list_namespaced_custom_object (group version namespace plural : string)
| create_namespaced_custom_object (group version namespace plural : string)
    (body : ConfigBody)
| delete_namespaced_custom_object (group version namespace plural name : string)
| patch_namespaced_custom_object (group version namespace plural name : string)
    (body : SpecPatch) (content_type : string)
| patch_namespaced_custom_object_status (group version namespace plural name : string)
    (body : ClusterStatus)
| read_namespaced_secret (name namespace : string)
| create_namespaced_secret (namespace : string) (body : V1Secret)
| delete_namespaced_secret (name namespace : string)
| subprocess_run (cmd : list string) (timeout : Z)
| tempfile_mkstemp (prefix : string)
| file_write (path content : string)
| os_chmod (path : string) (mode : Z)
| os_unlink (path : string)
| yaml_load_dump (text : string).

(** The schema behind a plural: the core reads Machines under [machines] and
    NixosConfigurations under the only other plural it reads. *)
Definition object_of_plural (plural : string) : Type :=
  if String.eqb plural "machines" then Machine else NixosConfiguration.

(** What a call returns when it does not raise. *)
Definition resp_type (r : request) : Type :=
  match r with
  | get_namespaced_custom_object _ _ _ plural _ => object_of_plural plural
  | list_namespaced_custom_object _ _ _ plural => list (object_of_plural plural)
  | read_namespaced_secret _ _ => V1Secret
  | subprocess_run _ _ => CompletedProcess
  | tempfile_mkstemp _ => string
  | yaml_load_dump _ => string
  | _ => unit
  end.

(** A Python call either returns a value or raises. *)
Inductive outcome (A : Type) : Type :=
| Returns (a : A)
| Raises (e : exn).
Arguments Returns {A} a.
Arguments Raises {A} e.

(** Programs: a finite tree of outputs and calls that ends by returning or
    raising.  Every loop of the source runs over a finite list. *)
Inductive prog (A : Type) : Type :=
| Ret (a : A)
| Raise (e : exn)
| Emit (o : output) (k : prog A)
| Call (r : request) (k : outcome (resp_type r) -> prog A).
Arguments Ret {A} a.
Arguments Raise {A} e.
Arguments Emit {A} o k.
Arguments Call {A} r k.

Fixpoint bind {A B} (m : prog A) (f : A -> prog B) : prog B :=
  match m with
  | Ret a => f a
  | Raise e => Raise e
  | Emit o k => Emit o (bind k f)
  | Call r k => Call r (fun resp => bind (k resp) f)
  end.

(** [try: m  except Exception as e: h e]. *)
Fixpoint try_except {A} (m : prog A) (h : exn -> prog A) : prog A :=
  match m with
  | Ret a => Ret a
  | Raise e => h e
  | Emit o k => Emit o (try_except k h)
  | Call r k => Call r (fun resp => try_except (k resp) h)
  end.

(** A call whose exception propagates. *)
Definition call (r : request) : prog (resp_type r) :=
  Call r (fun resp => match resp with Returns a => Ret a | Raises e => Raise e end).

Definition emit (o : output) : prog unit := Emit o (Ret tt).
Definition log (lvl : level) (msg : string) : prog unit := emit (Log lvl msg).
Definition metric (m : metric_call) : prog unit := emit (Metric m).

Declare Scope prog_scope.
Delimit Scope prog_scope with prog.
Notation "x <- m ;; k" := (bind m (fun x => k))
  (at level 100, m at next level, right associativity) : prog_scope.
Notation "m ;;; k" := (bind m (fun _ => k))
  (at level 100, right associativity) : prog_scope.
Local Open Scope prog_scope.

(** [if c: m]. *)
Definition when (c : bool) (m : prog unit) : prog unit :=
  if c then m else Ret tt.

(** [for x in l: s = body s x], the loop state threaded explicitly. *)
Fixpoint for_each {S X} (l : list X) (s : S) (body : S -> X -> prog S) : prog S :=
  match l with
  | [] => Ret s
  | x :: l' => s' <- body s x ;; for_each l' s' body
  end.

(** One step of an execution, as the environment saw it. *)
Inductive entry :=
| ECall (r : request) (resp : outcome (resp_type r))
| EOut (o : output).

(** The environment: it answers each call, knowing all that came before. *)
Definition server := list entry -> forall r : request, outcome (resp_type r).

(** Running a program against an environment from history [h]: the steps
    taken and how the program ended. *)
Fixpoint run {A} (srv : server) (h : list entry) (p : prog A) : list entry * outcome A :=
  match p with
  | Ret a => ([], Returns a)
  | Raise e => ([], Raises e)
  | Emit o k =>
      let '(t, res) := run srv (h ++ [EOut o]) k in (EOut o :: t, res)
  | Call r k =>
      let resp := srv h r in
      let '(t, res) := run srv (h ++ [ECall r resp]) (k resp) in
      (ECall r resp :: t, res)
  end.

Definition trace {A} (srv : server) (h : list entry) (p : prog A) : list entry :=
  fst (run srv h p).
Definition result {A} (srv : server) (h : list entry) (p : prog A) : outcome A :=
  snd (run srv h p).

(* ===================================================================== *)
(** ** clients.py: the API gateway                                        *)
(* ===================================================================== *)

(** [get_secret_data]: the decoded data of a Secret. *)
Definition decode_secret_data (s : V1Secret) : list (string * string) :=
  match secret_data s with
  | None | Some [] => []
  | Some d =>
      map (fun kv => (fst kv, match snd kv with Some v => b64decode v | None => "" end)) d
  end.

Definition get_secret_data (secret_name namespace : string) : prog (list (string * string)) :=
  try_except
    (secret <- call (read_namespaced_secret secret_name namespace) ;;
     Ret (decode_secret_data secret))
    (fun e =>
       log ERROR ("Failed to get secret " +:+ secret_name +:+ ": " +:+ str_exn e) ;;;
       Raise e).

Definition get_machine (machine_name namespace : string) : prog Machine :=
  call (get_namespaced_custom_object
          "nio.homystack.com" "v1alpha1" namespace "machines" machine_name).

Definition list_machines (namespace : string) : prog (list Machine) :=
  try_except
    (call (list_namespaced_custom_object
             "nio.homystack.com" "v1alpha1" namespace "machines"))
    (fun e =>
       log ERROR ("Failed to list machines: " +:+ str_exn e) ;;;
       Ret []).

Definition create_secret (secret_name namespace : string) (data : list (string * string))
  : prog unit :=
  try_except
    (let encoded_data := map (fun kv => (fst kv, Some (b64encode (snd kv)))) data in
     let secret := {| secret_name := secret_name; secret_data := Some encoded_data |} in
     call (create_namespaced_secret namespace secret) ;;;
     log INFO ("Created secret: " +:+ secret_name))
    (fun e =>
       log ERROR ("Failed to create secret " +:+ secret_name +:+ ": " +:+ str_exn e) ;;;
       Raise e).

Definition delete_secret (secret_name namespace : string) : prog unit :=
  try_except
    (call (delete_namespaced_secret secret_name namespace) ;;;
     log INFO ("Deleted secret: " +:+ secret_name))
    (fun e =>
       log ERROR ("Failed to delete secret " +:+ secret_name +:+ ": " +:+ str_exn e) ;;;
       Raise e).

Definition create_nixos_configuration (config_name namespace : string)
    (spec : NixosConfigSpec) : prog unit :=
  try_except
    (let body :=
       {| body_apiVersion := "nio.homystack.com/v1alpha1";
          body_kind := "NixosConfiguration";
          body_name := config_name;
          body_labels := None;
          ownerReferences := None;
          body_spec := spec |} in
     call (create_namespaced_custom_object
             "nio.homystack.com" "v1alpha1" namespace "nixosconfigurations" body) ;;;
     log INFO ("Created NixosConfiguration: " +:+ config_name))
    (fun e =>
       log ERROR ("Failed to create NixosConfiguration " +:+ config_name +:+ ": "
                  +:+ str_exn e) ;;;
       Raise e).

Definition create_nixos_configuration_with_owner (config_name namespace : string)
    (spec : NixosConfigSpec) (owner_name owner_uid role : string) : prog unit :=
  try_except
    (let body :=
       {| body_apiVersion := "nio.homystack.com/v1alpha1";
          body_kind := "NixosConfiguration";
          body_name := config_name;
          body_labels := Some (<["nico.homystack.com/cluster" := owner_name]>
                               (<["nico.homystack.com/role" := role]> ∅));
          ownerReferences := Some [
            {| owner_apiVersion := "nico.homystack.com/v1alpha1";
               owner_kind := "KubernetesCluster";
               owner_name := owner_name;
               owner_uid := owner_uid;
               controller := true;
               blockOwnerDeletion := true |} ];
          body_spec := spec |} in
     call (create_namespaced_custom_object
             "nio.homystack.com" "v1alpha1" namespace "nixosconfigurations" body) ;;;
     log INFO ("Created NixosConfiguration with owner: " +:+ config_name))
    (fun e =>
       log ERROR ("Failed to create NixosConfiguration " +:+ config_name +:+ ": "
                  +:+ str_exn e) ;;;
       Raise e).

Definition delete_nixos_configuration (config_name namespace : string) : prog unit :=
  try_except
    (call (delete_namespaced_custom_object
             "nio.homystack.com" "v1alpha1" namespace "nixosconfigurations" config_name) ;;;
     log INFO ("Deleted NixosConfiguration: " +:+ config_name))
    (fun e =>
       log ERROR ("Failed to delete NixosConfiguration " +:+ config_name +:+ ": "
                  +:+ str_exn e) ;;;
       Raise e).

Definition get_nixos_configuration (config_name namespace : string)
  : prog NixosConfiguration :=
  try_except
    (call (get_namespaced_custom_object
             "nio.homystack.com" "v1alpha1" namespace "nixosconfigurations" config_name))
    (fun e =>
       log ERROR ("Failed to get NixosConfiguration " +:+ config_name +:+ ": "
                  +:+ str_exn e) ;;;
       Raise e).

Definition patch_nixos_configuration_spec (config_name namespace : string)
    (spec_updates : list (string * patch_value)) : prog unit :=
  try_except
    (let body := {| patch_spec := spec_updates |} in
     call (patch_namespaced_custom_object
             "nio.homystack.com" "v1alpha1" namespace "nixosconfigurations" config_name
             body "application/merge-patch+json") ;;;
     log INFO ("Patched NixosConfiguration " +:+ config_name +:+ " spec: ["
               +:+ str_join ", " (map fst spec_updates) +:+ "]"))
    (fun e =>
       log ERROR ("Failed to patch NixosConfiguration " +:+ config_name +:+ ": "
                  +:+ str_exn e) ;;;
       Raise e).

Definition update_cluster_status (cluster_name namespace : string)
    (status_updates : ClusterStatus) : prog unit :=
  try_except
    (call (patch_namespaced_custom_object_status
             "nico.homystack.com" "v1alpha1" namespace "kubernetesclusters" cluster_name
             status_updates) ;;;
     log DEBUG ("Updated cluster status: " +:+ cluster_name))
    (fun e =>
       log ERROR ("Failed to update cluster status: " +:+ str_exn e) ;;;
       Raise e).

(* ===================================================================== *)
(** ** kubernetescluster_handlers.py: machine selector                    *)
(* ===================================================================== *)

(** [cluster_spec.get(role, {})] for the two role keys of the spec; the
    block of any other key is taken to be absent. *)
Definition spec_get_role (cluster_spec : ClusterSpec) (role : string) : RoleSpec :=
  default empty_role_spec
    (if bool_decide (role = "controlPlane") then controlPlane cluster_spec
     else if bool_decide (role = "dataPlane") then dataPlane cluster_spec
     else None).

(** "Map role names to status field names". *)
Definition status_key (role : string) : option string :=
  if bool_decide (role = "controlPlane") then Some "selectedControlPlaneMachines"
  else if bool_decide (role = "dataPlane") then Some "selectedDataPlaneMachines"
  else None.

(** [current_status.get(status_key, [])]. *)
Definition status_get_selected (current_status : ClusterStatus) (key : string)
  : list string :=
  default []
    (if bool_decide (key = "selectedControlPlaneMachines")
     then selectedControlPlaneMachines current_status
     else if bool_decide (key = "selectedDataPlaneMachines")
     then selectedDataPlaneMachines current_status
     else None).

(** The inner loop over [matchLabels.items()]: no pair of the selector is
    missing from, or different in, the machine's labels. *)
Definition selector_matches (machine_selector : MachineSelector) (machine : Machine)
  : bool :=
  let machine_labels := default ∅ (machine_labels machine) in
  forallb (fun kv => bool_decide (machine_labels !! kv.1 = Some kv.2))
          (map_to_list (default ∅ (matchLabels machine_selector))).

(** [not machine.get("status", {}).get("hasConfiguration", True)]. *)
Definition machine_available (machine : Machine) : bool :=
  negb (default true (hasConfiguration machine)).

(** The loop "Filter by selector and hasConfiguration: false". *)
Fixpoint filter_machines (machine_selector : MachineSelector) (machines : list Machine)
  : list string :=
  match machines with
  | [] => []
  | machine :: rest =>
      if selector_matches machine_selector machine && machine_available machine
      then machine_name machine :: filter_machines machine_selector rest
      else filter_machines machine_selector rest
  end.

Definition log_list (l : list string) : string := "[" +:+ str_join ", " l +:+ "]".

Definition select_machines_for_cluster (cluster_spec : ClusterSpec)
    (namespace role cluster_name : string) (current_status : option ClusterStatus)
  : prog (list string) :=
  let role_spec := spec_get_role cluster_spec role in
  if truthy_opt truthy_list (machines role_spec) then
    let selected := default [] (machines role_spec) in
    when (truthy_str cluster_name)
         (metric (record_machines_selected namespace cluster_name role (length selected))) ;;;
    Ret selected
  else
    let fresh :=
      let machine_selector :=
        default {| matchLabels := None |} (machineSelector role_spec) in
      let count := default 0 (count role_spec) in
      if (count =? 0)%Z then Ret []
      else
        machines <- list_machines namespace ;;
        let selected_machines := sort (filter_machines machine_selector machines) in
        let selected := slice_to selected_machines count in
        when (truthy_str cluster_name)
             (metric (machine_selection_duration namespace cluster_name role) ;;;
              metric (record_machines_selected namespace cluster_name role
                        (length selected))) ;;;
        log INFO ("Selected new " +:+ role +:+ " machines for cluster " +:+ cluster_name
                  +:+ ": " +:+ log_list selected) ;;;
        Ret selected in
    match current_status, status_key role with
    | Some st, Some key =>
        if truthy_status st then
          let previously_selected := status_get_selected st key in
          if truthy_list previously_selected then
            log INFO ("Reusing previously selected " +:+ role +:+ " machines: "
                      +:+ log_list previously_selected) ;;;
            when (truthy_str cluster_name)
                 (metric (record_machines_selected namespace cluster_name role
                            (length previously_selected))) ;;;
            Ret previously_selected
          else fresh
        else fresh
    | _, _ => fresh
    end.

(* ===================================================================== *)
(** ** Config renderer                                                    *)
(* ===================================================================== *)

(** An entry of [machines_info]. *)
Record MachineInfo := { info_hostname : option string; info_ipAddress : option string }.

(** [machine_info.get("ipAddress") or machine_info.get("hostname", "unknown")]
    with [machine_info = machines_info.get(node_name, {})]. *)
Definition node_ip (machines_info : list (string * MachineInfo)) (node_name : string)
  : string :=
  let machine_info :=
    default {| info_hostname := None; info_ipAddress := None |}
            (dict_get node_name machines_info) in
  if truthy_opt truthy_str (info_ipAddress machine_info)
  then default "" (info_ipAddress machine_info)
  else default "unknown" (info_hostname machine_info).

Definition nix_node (machines_info : list (string * MachineInfo)) (node_name : string)
  : string :=
  "    { name = " +:+ dquote +:+ node_name +:+ dquote +:+ "; ip = " +:+ dquote
  +:+ node_ip machines_info node_name +:+ dquote +:+ "; }".

Definition nix_list (machines_info : list (string * MachineInfo)) (nodes : list string)
  : string :=
  "[" +:+ nl +:+ str_join nl (map (nix_node machines_info) nodes) +:+ nl +:+ "  ]".

Definition generate_cluster_config (cluster_name : string)
    (control_plane_nodes worker_nodes : list string)
    (machines_info : list (string * MachineInfo)) : string :=
  let control_plane_nix := nix_list machines_info control_plane_nodes in
  let workers_nix := nix_list machines_info worker_nodes in
  nl +:+ "{ config, pkgs, ... }:" +:+ nl
  +:+ "{" +:+ nl
  +:+ "  # Cluster configuration generated by NICO" +:+ nl
  +:+ "  # Includes IP addresses for HAProxy configuration at build time" +:+ nl
  +:+ "  cluster = {" +:+ nl
  +:+ "    name = " +:+ dquote +:+ cluster_name +:+ dquote +:+ ";" +:+ nl
  +:+ "    controlPlane = " +:+ control_plane_nix +:+ ";" +:+ nl
  +:+ "    workers = " +:+ workers_nix +:+ ";" +:+ nl
  +:+ "  };" +:+ nl
  +:+ "}" +:+ nl.

(* ===================================================================== *)
(** ** Child manager                                                      *)
(* ===================================================================== *)

Definition create_join_token_secret (cluster_name namespace : string) : prog string :=
  let token_content := "join-token-for-" +:+ cluster_name in
  let secret_name := cluster_name +:+ "-join-token" in
  try_except
    (call (read_namespaced_secret secret_name namespace) ;;;
     log INFO ("Join token secret " +:+ secret_name +:+ " already exists, reusing it") ;;;
     Ret secret_name)
    (fun e =>
       match e with
       | ApiException status _ =>
           if (status =? 404)%Z then
             create_secret secret_name namespace [("token", token_content)] ;;;
             log INFO ("Created join token secret: " +:+ secret_name) ;;;
             Ret secret_name
           else Raise e
       | _ => Raise e
       end).

Definition create_nixos_configuration_for_machine
    (cluster_name cluster_uid machine_name role : string) (cluster_spec : ClusterSpec)
    (namespace join_token_secret : string) (control_plane_nodes worker_nodes : list string)
    (machines_info : list (string * MachineInfo)) : prog string :=
  machine <- get_machine machine_name namespace ;;
  let annotations : gmap string string := default ∅ (machine_annotations machine) in
  let has_full_install := annotations !! "nico.homystack.com/fullInstallationApplied" in
  let ssh_key_secret := sshKeySecretRef machine in
  let additional_files :=
    ([ {| path := "cluster.nix"; valueType := "Inline";
         inline := Some (generate_cluster_config cluster_name control_plane_nodes
                           worker_nodes machines_info);
         secretRef := None |};
      {| path := "join-token"; valueType := "SecretRef";
         inline := None; secretRef := Some join_token_secret |} ]
    ++ (if truthy_opt truthy_str ssh_key_secret
        then [ {| path := "machine-ssh-key"; valueType := "SecretRef";
                  inline := None; secretRef := ssh_key_secret |} ]
        else []))%list in
  let config_name := cluster_name +:+ "-" +:+ machine_name in
  let nixos_config_spec :=
    {| cfg_gitRepo := Some (gitRepo cluster_spec);
       cfg_flake := Some ("#" +:+ machine_name);
       cfg_onRemoveFlake := Some "#minimal";
       cfg_configurationSubdir := Some (default "" (configurationSubdir cluster_spec));
       cfg_machineRef := Some machine_name;
       cfg_fullInstall := Some (negb (truthy_opt truthy_str has_full_install));
       cfg_additionalFiles := Some additional_files;
       cfg_ref := if truthy_opt truthy_str (ref cluster_spec)
                  then ref cluster_spec else None;
       cfg_credentialsRef := if truthy_opt truthy_dict (credentialsRef cluster_spec)
                             then credentialsRef cluster_spec else None |} in
  create_nixos_configuration_with_owner config_name namespace nixos_config_spec
    cluster_name cluster_uid role ;;;
  Ret config_name.

(** A value of the parent as a merge-patch value: [None] is JSON null. *)
Definition patch_str (v : option string) : patch_value :=
  match v with Some s => PStr s | None => PNull end.
Definition patch_dict (v : option (gmap string string)) : patch_value :=
  match v with Some d => PDict d | None => PNull end.

(** The four checks that fill [spec_updates] for an existing child. *)
Definition spec_updates (spec : ClusterSpec) (existing_spec : NixosConfigSpec)
  : list (string * patch_value) :=
  let updates := [] in
  let updates :=
    if bool_decide (cfg_gitRepo existing_spec ≠ Some (gitRepo spec))
    then dict_set "gitRepo" (PStr (gitRepo spec)) updates else updates in
  let cluster_ref := ref spec in
  let existing_ref := cfg_ref existing_spec in
  let updates :=
    if bool_decide (cluster_ref ≠ existing_ref)
    then dict_set "ref" (patch_str cluster_ref) updates else updates in
  let cluster_subdir := default "" (configurationSubdir spec) in
  let existing_subdir := default "" (cfg_configurationSubdir existing_spec) in
  let updates :=
    if bool_decide (cluster_subdir ≠ existing_subdir)
    then dict_set "configurationSubdir" (PStr cluster_subdir) updates else updates in
  let cluster_creds := credentialsRef spec in
  let existing_creds := cfg_credentialsRef existing_spec in
  let updates :=
    if bool_decide (cluster_creds ≠ existing_creds)
    then dict_set "credentialsRef" (patch_dict cluster_creds) updates else updates in
  updates.

(** The body of the two loops of the reconciler ("Create configurations for
    control plane nodes" and "... for worker nodes"); they differ in the
    role label only.  One "Detected <field> change" line is logged per key
    of [spec_updates], in the order of the keys. *)
Definition ensure_configuration (name cluster_uid machine_name role : string)
    (spec : ClusterSpec) (namespace join_token_secret : string)
    (control_plane_nodes worker_nodes : list string)
    (machines_info : list (string * MachineInfo))
    (applied_configs : list (string * string)) : prog (list (string * string)) :=
  let config_name := name +:+ "-" +:+ machine_name in
  try_except
    (existing_config <- get_nixos_configuration config_name namespace ;;
     log INFO ("NixosConfiguration " +:+ config_name
               +:+ " already exists, checking for updates") ;;;
     let existing_spec := config_spec existing_config in
     let updates := spec_updates spec existing_spec in
     for_each (map fst updates) tt
       (fun _ key => log INFO ("Detected " +:+ key +:+ " change for " +:+ config_name)) ;;;
     when (truthy_list updates)
          (patch_nixos_configuration_spec config_name namespace updates ;;;
           log INFO ("Updated NixosConfiguration " +:+ config_name
                     +:+ " with spec changes")) ;;;
     Ret (dict_set machine_name config_name applied_configs))
    (fun e =>
       if str_contains "404" (str_exn e)
          || str_contains "not found" (str_lower (str_exn e))
       then
         config_name <- create_nixos_configuration_for_machine name cluster_uid
                          machine_name role spec namespace join_token_secret
                          control_plane_nodes worker_nodes machines_info ;;
         let applied_configs := dict_set machine_name config_name applied_configs in
         metric (record_nixos_config_created namespace name role) ;;;
         Ret applied_configs
       else Raise e).

(* ===================================================================== *)
(** ** Deletion                                                           *)
(* ===================================================================== *)

Definition handle_cluster_deletion (cluster_name namespace : string) (body : ClusterBody)
  : prog unit :=
  log INFO ("Handling deletion of cluster: " +:+ cluster_name) ;;;
  let status := default empty_status (status body) in
  let applied_configs := default [] (appliedMachines status) in
  for_each applied_configs tt
    (fun _ item =>
       let config_name := item.2 in
       try_except
         (delete_nixos_configuration config_name namespace ;;;
          log INFO ("Deleted NixosConfiguration: " +:+ config_name) ;;;
          metric (record_nixos_config_deleted namespace cluster_name))
         (fun e =>
            log WARNING ("Failed to delete NixosConfiguration " +:+ config_name
                         +:+ ": " +:+ str_exn e))) ;;;
  try_except
    (let join_token_secret := cluster_name +:+ "-join-token" in
     delete_secret join_token_secret namespace ;;;
     log INFO ("Deleted join token secret: " +:+ join_token_secret))
    (fun e => log WARNING ("Failed to delete join token secret: " +:+ str_exn e)) ;;;
  try_except
    (let kubeconfig_secret := cluster_name +:+ "-kubeconfig" in
     delete_secret kubeconfig_secret namespace ;;;
     log INFO ("Deleted kubeconfig secret: " +:+ kubeconfig_secret))
    (fun e => log WARNING ("Failed to delete kubeconfig secret: " +:+ str_exn e)) ;;;
  log INFO ("Cluster " +:+ cluster_name +:+ " deletion completed").

(* ===================================================================== *)
(** ** Reconciler                                                         *)
(* ===================================================================== *)

(** The status written at the end of a reconcile; [now] is
    [datetime.utcnow().isoformat() + "Z"]. *)
Definition provisioning_status (now name : string)
    (control_plane_nodes worker_nodes : list string)
    (applied_configs : list (string * string)) : ClusterStatus :=
  {| phase := Some "Provisioning";
     controlPlaneReady := Some ("0/" +:+ pretty (length control_plane_nodes));
     dataPlaneReady := Some ("0/" +:+ pretty (length worker_nodes));
     kubeconfigSecret := Some (name +:+ "-kubeconfig");
     appliedMachines := Some applied_configs;
     selectedControlPlaneMachines := Some control_plane_nodes;
     selectedDataPlaneMachines := Some worker_nodes;
     conditions := Some [
       {| cond_type := "Provisioning";
          cond_status := "True";
          lastTransitionTime := now;
          cond_reason := "ConfigurationsCreated";
          cond_message := "Created configurations for "
                          +:+ pretty (length applied_configs) +:+ " machines" |} ] |}.

(** The [try] block of [reconcile_kubernetes_cluster]. *)
Definition reconcile_body (now : string) (body : ClusterBody) (spec : ClusterSpec)
    (name namespace : string) : prog unit :=
  let deletion_timestamp := deletionTimestamp body in
  if truthy_opt truthy_str deletion_timestamp then
    handle_cluster_deletion name namespace body
  else
    let cluster_uid := uid body in
    if negb (truthy_opt truthy_str cluster_uid) then
      Raise (PermanentError "Cluster UID not found in metadata")
    else
      let cluster_uid := default "" cluster_uid in
      let current_status := default empty_status (status body) in
      control_plane_nodes <-
        select_machines_for_cluster spec namespace "controlPlane" name
          (Some current_status) ;;
      worker_nodes <-
        select_machines_for_cluster spec namespace "dataPlane" name
          (Some current_status) ;;
      if negb (truthy_list control_plane_nodes) then
        Raise (TemporaryError "No available control plane machines found" 60)
      else
        join_token_secret <- create_join_token_secret name namespace ;;
        let all_machine_names := (control_plane_nodes ++ worker_nodes)%list in
        machines_info <-
          for_each all_machine_names []
            (fun machines_info machine_name =>
               machine <- get_machine machine_name namespace ;;
               Ret (dict_set machine_name
                      {| info_hostname := Some (default "" (hostname machine));
                         info_ipAddress := Some (default "" (ipAddress machine)) |}
                      machines_info)) ;;
        applied_configs <-
          for_each control_plane_nodes []
            (fun applied_configs machine_name =>
               ensure_configuration name cluster_uid machine_name "control-plane" spec
                 namespace join_token_secret control_plane_nodes worker_nodes
                 machines_info applied_configs) ;;
        applied_configs <-
          for_each worker_nodes applied_configs
            (fun applied_configs machine_name =>
               ensure_configuration name cluster_uid machine_name "worker" spec
                 namespace join_token_secret control_plane_nodes worker_nodes
                 machines_info applied_configs) ;;
        update_cluster_status name namespace
          (provisioning_status now name control_plane_nodes worker_nodes
             applied_configs) ;;;
        log INFO ("Successfully started provisioning cluster " +:+ name) ;;;
        metric (cluster_reconcile_duration namespace name) ;;;
        metric (record_reconcile_success namespace name).

(** "Main reconciliation point for KubernetesCluster", with its three
    [except] clauses. *)
Definition reconcile_kubernetes_cluster (now : string) (body : ClusterBody)
    (spec : ClusterSpec) (name namespace : string) : prog unit :=
  log INFO ("Reconciling KubernetesCluster: " +:+ name) ;;;
  try_except (reconcile_body now body spec name namespace)
    (fun e =>
       match e with
       | TemporaryError _ _ =>
           metric (record_reconcile_error namespace name "temporary") ;;;
           Raise e
       | PermanentError _ =>
           metric (record_reconcile_error namespace name "permanent") ;;;
           Raise e
       | _ =>
           log ERROR ("Failed to reconcile KubernetesCluster " +:+ name +:+ ": "
                      +:+ str_exn e) ;;;
           metric (record_reconcile_error namespace name "unknown") ;;;
           Raise (TemporaryError ("Cluster reconciliation failed: " +:+ str_exn e) 60)
       end).

(* ===================================================================== *)
(** ** Kubeconfig harvester                                               *)
(* ===================================================================== *)

Definition kubeconfig_paths : list string :=
  [ "/etc/rancher/k3s/k3s.yaml";
    "/var/lib/k0s/pki/admin.conf";
    "/etc/kubernetes/admin.conf";
    "/root/.kube/config";
    "/etc/kubernetes/kubeconfig" ].

(** The loop "Try each known kubeconfig path": the first path whose [cat]
    succeeds with a non-blank output ends the loop; a time-out or any other
    exception moves on to the next path. *)
Fixpoint try_kubeconfig_paths (ssh_base : list string) (first_cp : string)
    (paths : list string) : prog (option string) :=
  match paths with
  | [] => Ret None
  | path :: rest =>
      found <-
        try_except
          (let cmd := (ssh_base ++ ["cat " +:+ path])%list in
           result <- call (subprocess_run cmd 10) ;;
           if (returncode result =? 0)%Z && truthy_stripped (stdout result) then
             log INFO ("Found kubeconfig at " +:+ path +:+ " on " +:+ first_cp) ;;;
             Ret (Some (stdout result))
           else Ret None)
          (fun e =>
             match e with
             | TimeoutExpired _ =>
                 log WARNING ("SSH timeout while checking " +:+ path) ;;; Ret None
             | _ =>
                 log DEBUG ("Failed to read " +:+ path +:+ ": " +:+ str_exn e) ;;;
                 Ret None
             end) ;;
      match found with
      | Some kubeconfig_content => Ret (Some kubeconfig_content)
      | None => try_kubeconfig_paths ssh_base first_cp rest
      end
  end.

Definition extract_kubeconfig_from_control_plane (control_plane_nodes : list string)
    (namespace : string) : prog (option string) :=
  match control_plane_nodes with
  | [] => Ret None
  | first_cp :: _ =>
      try_except
        (machine <- get_machine first_cp namespace ;;
         let hostname :=
           if truthy_opt truthy_str (hostname machine)
           then hostname machine else ipAddress machine in
         let ssh_user := default "root" (sshUser machine) in
         let ssh_key_ref := sshKeySecretRef machine in
         if negb (truthy_opt truthy_str hostname) then
           log WARNING ("No hostname/IP found for machine " +:+ first_cp) ;;;
           Ret None
         else
           let hostname := default "" hostname in
           ssh_key_path <-
             match ssh_key_ref with
             | Some key_name =>
                 secret_data <- get_secret_data key_name namespace ;;
                 match dict_get "ssh-privatekey" secret_data with
                 | Some private_key =>
                     ssh_key_path <- call (tempfile_mkstemp "nico-ssh-") ;;
                     call (file_write ssh_key_path private_key) ;;;
                     call (os_chmod ssh_key_path 384) ;;;
                     Ret (Some ssh_key_path)
                 | None => Ret None
                 end
             | None => Ret None
             end ;;
           let ssh_base :=
             (["ssh"; "-o"; "StrictHostKeyChecking=no"; "-o";
               "UserKnownHostsFile=/dev/null"]
              ++ match ssh_key_path with Some p => ["-i"; p] | None => [] end
              ++ [ssh_user +:+ "@" +:+ hostname])%list in
           kubeconfig_content <- try_kubeconfig_paths ssh_base first_cp kubeconfig_paths ;;
           kubeconfig_content <-
             match kubeconfig_content with
             | Some _ => Ret kubeconfig_content
             | None =>
                 try_except
                   (let cmd := (ssh_base ++ ["kubectl config view --raw"])%list in
                    result <- call (subprocess_run cmd 10) ;;
                    if (returncode result =? 0)%Z && truthy_stripped (stdout result) then
                      log INFO ("Retrieved kubeconfig via kubectl on " +:+ first_cp) ;;;
                      Ret (Some (stdout result))
                    else Ret None)
                   (fun e =>
                      log DEBUG ("Failed to run kubectl: " +:+ str_exn e) ;;; Ret None)
             end ;;
           match ssh_key_path with
           | Some p => try_except (call (os_unlink p)) (fun _ => Ret tt)
           | None => Ret tt
           end ;;;
           match kubeconfig_content with
           | Some content =>
               try_except
                 (dumped <- call (yaml_load_dump content) ;; Ret (Some dumped))
                 (fun e =>
                    log WARNING ("Failed to parse kubeconfig: " +:+ str_exn e) ;;;
                    Ret (Some content))
           | None =>
               log WARNING ("Could not extract kubeconfig from " +:+ first_cp) ;;;
               Ret None
           end)
        (fun e =>
           log ERROR ("Failed to extract kubeconfig: " +:+ str_exn e) ;;;
           Ret None)
  end.

(* ===================================================================== *)
(** ** Readiness monitor                                                  *)
(* ===================================================================== *)

(** The counters of one tick. *)
Record Counters := {
  control_plane_ready : Z;
  data_plane_ready : Z;
  total_control_plane : Z;
  total_data_plane : Z;
  ready_control_plane_nodes : list string;
}.

Definition zero_counters : Counters :=
  {| control_plane_ready := 0; data_plane_ready := 0;
     total_control_plane := 0; total_data_plane := 0;
     ready_control_plane_nodes := [] |}.

(** The counting part of the loop body, once both objects are fetched. *)
Definition count_machine (c : Counters) (machine_name : string)
    (config : NixosConfiguration) (machine : Machine) : Counters :=
  let config_labels : gmap string string := default ∅ (config_labels config) in
  let role := default "worker" (config_labels !! "nico.homystack.com/role") in
  let is_control_plane := bool_decide (role = "control-plane") in
  let is_ready :=
    truthy_opt truthy_str (appliedCommit config)
    && truthy_opt id (hasConfiguration machine) in
  let c :=
    if is_ready then
      if is_control_plane then
        {| control_plane_ready := control_plane_ready c + 1;
           data_plane_ready := data_plane_ready c;
           total_control_plane := total_control_plane c;
           total_data_plane := total_data_plane c;
           ready_control_plane_nodes :=
             (ready_control_plane_nodes c ++ [machine_name])%list |}
      else
        {| control_plane_ready := control_plane_ready c;
           data_plane_ready := data_plane_ready c + 1;
           total_control_plane := total_control_plane c;
           total_data_plane := total_data_plane c;
           ready_control_plane_nodes := ready_control_plane_nodes c |}
    else c in
  if is_control_plane then
    {| control_plane_ready := control_plane_ready c;
       data_plane_ready := data_plane_ready c;
       total_control_plane := total_control_plane c + 1;
       total_data_plane := total_data_plane c;
       ready_control_plane_nodes := ready_control_plane_nodes c |}
  else
    {| control_plane_ready := control_plane_ready c;
       data_plane_ready := data_plane_ready c;
       total_control_plane := total_control_plane c;
       total_data_plane := total_data_plane c + 1;
       ready_control_plane_nodes := ready_control_plane_nodes c |}.

(** One iteration of [for machine_name, config_name in applied_configs.items()]:
    any exception leaves the counters as they were ([continue]). *)
Definition check_machine (namespace : string) (c : Counters) (item : string * string)
  : prog Counters :=
  let '(machine_name, config_name) := item in
  try_except
    (config <- get_nixos_configuration config_name namespace ;;
     machine <- get_machine machine_name namespace ;;
     Ret (count_machine c machine_name config machine))
    (fun e =>
       log WARNING ("Failed to check status for " +:+ machine_name +:+ ": "
                    +:+ str_exn e) ;;;
       Ret c).

(** "Determine cluster phase". *)
Definition all_control_plane_ready (control_plane_ready total_control_plane : Z) : bool :=
  (control_plane_ready =? total_control_plane)%Z && (control_plane_ready >? 0)%Z.

Definition all_workers_ready (data_plane_ready total_data_plane : Z) : bool :=
  ((data_plane_ready =? total_data_plane)%Z && (total_data_plane >? 0)%Z)
  || (total_data_plane =? 0)%Z.

Definition cluster_phase (control_plane_ready total_control_plane
                          data_plane_ready total_data_plane : Z) : string :=
  if all_control_plane_ready control_plane_ready total_control_plane
     && all_workers_ready data_plane_ready total_data_plane
  then "Ready"
  else if all_control_plane_ready control_plane_ready total_control_plane
  then "ControlPlaneReady"
  else "Provisioning".

Definition counters_phase (c : Counters) : string :=
  cluster_phase (control_plane_ready c) (total_control_plane c)
                (data_plane_ready c) (total_data_plane c).

(** "Generate kubeconfig if control plane is ready and kubeconfig doesn't
    exist". *)
Definition ensure_kubeconfig_secret (name namespace : string) (c : Counters)
  : prog unit :=
  let kubeconfig_secret_name := name +:+ "-kubeconfig" in
  when (all_control_plane_ready (control_plane_ready c) (total_control_plane c))
    (try_except
       (try_except
          (call (read_namespaced_secret kubeconfig_secret_name namespace) ;;; Ret tt)
          (fun e =>
             match e with
             | ApiException status _ =>
                 if (status =? 404)%Z then
                   kubeconfig <- extract_kubeconfig_from_control_plane
                                   (ready_control_plane_nodes c) namespace ;;
                   match kubeconfig with
                   | Some content =>
                       if truthy_str content then
                         create_secret kubeconfig_secret_name namespace
                           [("kubeconfig", content)] ;;;
                         log INFO ("Created kubeconfig secret: "
                                   +:+ kubeconfig_secret_name) ;;;
                         metric (record_kubeconfig_generated namespace name true)
                       else Ret tt
                   | None => Ret tt
                   end
                 else Raise e
             | _ => Raise e
             end))
       (fun e =>
          log WARNING ("Failed to create kubeconfig secret: " +:+ str_exn e) ;;;
          metric (record_kubeconfig_generated namespace name false))).

(** [status_update] of the monitor. *)
Definition monitor_status (now name : string) (c : Counters) : ClusterStatus :=
  let phase := counters_phase c in
  let cp := pretty (control_plane_ready c) +:+ "/" +:+ pretty (total_control_plane c) in
  let dp := pretty (data_plane_ready c) +:+ "/" +:+ pretty (total_data_plane c) in
  {| phase := Some phase;
     controlPlaneReady := Some cp;
     dataPlaneReady := Some dp;
     kubeconfigSecret := Some (name +:+ "-kubeconfig");
     appliedMachines := None;
     selectedControlPlaneMachines := None;
     selectedDataPlaneMachines := None;
     conditions := Some [
       {| cond_type := "Ready";
          cond_status := if bool_decide (phase = "Ready") then "True" else "False";
          lastTransitionTime := now;
          cond_reason := if bool_decide (phase = "Ready") then "AllNodesReady" else phase;
          cond_message := "Control plane: " +:+ cp +:+ ", Workers: " +:+ dp |} ] |}.

(** The loop of the monitor over [appliedMachines]. *)
Definition aggregate (namespace : string) (applied_configs : list (string * string))
  : prog Counters :=
  for_each applied_configs zero_counters (check_machine namespace).

(** The timer handler, every 30 s for each KubernetesCluster. *)
Definition monitor_cluster_status (now : string) (body : ClusterBody)
    (name namespace : string) : prog unit :=
  log DEBUG ("Monitoring cluster status: " +:+ name) ;;;
  try_except
    (let status := default empty_status (status body) in
     let applied_configs := default [] (appliedMachines status) in
     if negb (truthy_list applied_configs) then Ret tt
     else
       c <- aggregate namespace applied_configs ;;
       ensure_kubeconfig_secret name namespace c ;;;
       let status_update := monitor_status now name c in
       update_cluster_status name namespace status_update ;;;
       metric (update_cluster_metrics namespace name status_update))
    (fun e =>
       log ERROR ("Failed to monitor cluster " +:+ name +:+ " status: " +:+ str_exn e)).


(* ===================================================================== *)
(** ** Definitions used to state the properties                           *)
(* ===================================================================== *)

(** A property of every call a program can make, whatever the answers. *)
Inductive calls_satisfy (P : request -> Prop) {A} : prog A -> Prop :=
| cs_Ret a : calls_satisfy P (Ret a)
| cs_Raise e : calls_satisfy P (Raise e)
| cs_Emit o k : calls_satisfy P k -> calls_satisfy P (Emit o k)
| cs_Call r k : P r -> (forall resp, calls_satisfy P (k resp)) -> calls_satisfy P (Call r k).

(** The same on a trace. *)
Definition entry_satisfies (P : request -> Prop) (e : entry) : Prop :=
  match e with
  | ECall r _ => P r
  | EOut _ => True
  end.

Definition str_le (a b : string) : Prop := String.leb a b = true.

#[global] Instance str_le_dec : RelDecision str_le.
Proof. intros a b. unfold str_le. apply _. Defined.


(** [spec.<role>.machines], with the empty list for an absent block or an
    absent key. *)
Definition explicit_machines (spec : ClusterSpec) (role : string) : list string :=
  let block :=
    if bool_decide (role = "controlPlane") then controlPlane spec else dataPlane spec in
  default [] (block ≫= machines).

(** [status.selected<Role>Machines], with the empty list when absent. *)
Definition persisted_selection (st : option ClusterStatus) (role : string) : list string :=
  let field :=
    if bool_decide (role = "controlPlane") then selectedControlPlaneMachines
    else selectedDataPlaneMachines in
  default [] (st ≫= field).

Definition is_call (e : entry) : bool :=
  match e with ECall _ _ => true | EOut _ => false end.


(** [spec.<role>.machineSelector.matchLabels] (no pair when absent) and
    [spec.<role>.count] (0 when absent). *)
Definition selector_labels (spec : ClusterSpec) (role : string) : gmap string string :=
  let block :=
    if bool_decide (role = "controlPlane") then controlPlane spec else dataPlane spec in
  default ∅ ((block ≫= machineSelector) ≫= matchLabels).

Definition selector_count (spec : ClusterSpec) (role : string) : Z :=
  let block :=
    if bool_decide (role = "controlPlane") then controlPlane spec else dataPlane spec in
  default 0%Z (block ≫= count).

(** The pool: what the API server answers to ListMachines for the
    namespace; a failed listing leaves the selector with no machine. *)
Definition listed_machines (srv : server) (h : list entry) (namespace : string)
  : list Machine :=
  match srv h (list_namespaced_custom_object
                 "nio.homystack.com" "v1alpha1" namespace "machines") with
  | Returns items => items
  | Raises _ => []
  end.

(** Fresh selection in the words of the specification.  A machine is
    eligible when its labels contain every pair of [matchLabels] and its
    [hasConfiguration] flag is present and false. *)
Definition eligible (match_labels : gmap string string) (m : Machine) : Prop :=
  map_Forall (fun key value => default ∅ (machine_labels m) !! key = Some value)
             match_labels
  /\ hasConfiguration m = Some false.

#[global] Instance eligible_dec match_labels m : Decision (eligible match_labels m).
Proof. unfold eligible. apply _. Defined.

(** The first [count] names of the eligible machines in ascending order. *)
Definition spec_fresh_selection (match_labels : gmap string string) (count : nat)
    (pool : list Machine) : list string :=
  take count (merge_sort str_le (machine_name <$> filter (eligible match_labels) pool)).

(* ===================================================================== *)
(** ** A simple API server, for the concrete scenarios                    *)
(* ===================================================================== *)

(** What the server holds: Machines, NixosConfigurations by name, the names
    of the Secrets, and what a kubeconfig file on a node contains ([None]:
    the nodes cannot be reached over SSH). *)
Record World := {
  w_machines : list Machine;
  w_configs : list (string * NixosConfiguration);
  w_secrets : list string;
  w_kubeconfig : option string;
}.

Definition not_found : exn := ApiException 404 "(404) Reason: Not Found".

Definition answer_get (w : World) (plural name : string)
  : outcome (object_of_plural plural) :=
  match String.eqb plural "machines" as b
        return outcome (if b then Machine else NixosConfiguration) with
  | true =>
      match find (fun m => String.eqb (machine_name m) name) (w_machines w) with
      | Some m => Returns m
      | None => Raises not_found
      end
  | false =>
      match dict_get name (w_configs w) with
      | Some c => Returns c
      | None => Raises not_found
      end
  end.

Definition answer_list (w : World) (plural : string)
  : outcome (list (object_of_plural plural)) :=
  match String.eqb plural "machines" as b
        return outcome (list (if b then Machine else NixosConfiguration)) with
  | true => Returns (w_machines w)
  | false => Returns (map snd (w_configs w))
  end.

(** It reads from the world and accepts every write. *)
Definition world_server (w : World) : server :=
  fun _ r =>
    match r as r0 return outcome (resp_type r0) with
    | get_namespaced_custom_object _ _ _ plural name => answer_get w plural name
    | list_namespaced_custom_object _ _ _ plural => answer_list w plural
    | create_namespaced_custom_object _ _ _ _ _ => Returns tt
    | delete_namespaced_custom_object _ _ _ _ _ => Returns tt
    | patch_namespaced_custom_object _ _ _ _ _ _ _ => Returns tt
    | patch_namespaced_custom_object_status _ _ _ _ _ _ => Returns tt
    | read_namespaced_secret name _ =>
        if bool_decide (name ∈ w_secrets w)
        then Returns {| secret_name := name; secret_data := None |}
        else Raises not_found
    | create_namespaced_secret _ _ => Returns tt
    | delete_namespaced_secret _ _ => Returns tt
    | subprocess_run _ _ =>
        match w_kubeconfig w with
        | Some text => Returns {| returncode := 0; stdout := text |}
        | None => Raises (OtherException "ssh: connect failed")
        end
    | tempfile_mkstemp _ => Returns "/tmp/nico-ssh-0"
    | file_write _ _ => Returns tt
    | os_chmod _ _ => Returns tt
    | os_unlink _ => Returns tt
    | yaml_load_dump text => Returns text
    end.

(** A server on which every call fails with [e]. *)
Definition failing_server (e : exn) : server := fun _ _ => Raises e.

Definition example_machine (name : string) (labels : list (string * string))
    (has_configuration : option bool) : Machine :=
  {| machine_name := name;
     machine_labels := Some (list_to_map labels);
     machine_annotations := None;
     hostname := Some (name +:+ ".local");
     ipAddress := None;
     sshUser := None;
     sshKeySecretRef := None;
     hasConfiguration := has_configuration |}.

Definition example_role (labels : list (string * string)) (n : Z) : RoleSpec :=
  {| machines := None;
     machineSelector := Some {| matchLabels := Some (list_to_map labels) |};
     count := Some n |}.

Definition example_spec (cp dp : option RoleSpec) : ClusterSpec :=
  {| gitRepo := "https://git.example/infra.git";
     ref := None;
     configurationSubdir := None;
     credentialsRef := None;
     controlPlane := cp;
     dataPlane := dp |}.

(** Scenario S1 of the specification: three workers, one already claimed. *)
Definition world_s1 : World :=
  {| w_machines := [ example_machine "w3" [("r", "w")] (Some false);
                     example_machine "w1" [("r", "w")] (Some false);
                     example_machine "w2" [("r", "w")] (Some true) ];
     w_configs := [];
     w_secrets := [];
     w_kubeconfig := None |}.

(** Scenario S2: the pool now holds only [cp-a]. *)
Definition world_s2 : World :=
  {| w_machines := [ example_machine "cp-a" [("r", "cp")] (Some false) ];
     w_configs := [];
     w_secrets := [];
     w_kubeconfig := None |}.

Definition status_s2 : ClusterStatus :=
  {| phase := Some "Provisioning"; controlPlaneReady := None; dataPlaneReady := None;
     kubeconfigSecret := None; appliedMachines := None;
     selectedControlPlaneMachines := Some ["cp-b"];
     selectedDataPlaneMachines := None; conditions := None |}.

(* ===================================================================== *)
(** ** The calls of each handler                                          *)
(* ===================================================================== *)

(** The owner reference of a child of cluster [name] with uid [uid]. *)
Definition cluster_owner (name uid : string) : OwnerReference :=
  {| owner_apiVersion := "nico.homystack.com/v1alpha1";
     owner_kind := "KubernetesCluster";
     owner_name := name;
     owner_uid := uid;
     controller := true;
     blockOwnerDeletion := true |}.

(** Every call the deletion path can make. *)
Inductive deletion_call (name namespace : string) : request -> Prop :=
| dc_delete_config config_name :
    deletion_call name namespace
      (delete_namespaced_custom_object
         "nio.homystack.com" "v1alpha1" namespace "nixosconfigurations" config_name)
| dc_delete_join_token :
    deletion_call name namespace
      (delete_namespaced_secret (name +:+ "-join-token") namespace)
| dc_delete_kubeconfig :
    deletion_call name namespace
      (delete_namespaced_secret (name +:+ "-kubeconfig") namespace).

(** Every call a reconcile of cluster [name] (uid [uid]) with spec [spec]
    can make. *)
Inductive reconcile_call (spec : ClusterSpec) (name namespace uid : string)
  : request -> Prop :=
| rc_list_machines :
    reconcile_call spec name namespace uid
      (list_namespaced_custom_object "nio.homystack.com" "v1alpha1" namespace "machines")
| rc_get_machine machine_name :
    reconcile_call spec name namespace uid
      (get_namespaced_custom_object
         "nio.homystack.com" "v1alpha1" namespace "machines" machine_name)
| rc_get_config config_name :
    reconcile_call spec name namespace uid
      (get_namespaced_custom_object
         "nio.homystack.com" "v1alpha1" namespace "nixosconfigurations" config_name)
| rc_create_config body :
    ownerReferences body = Some [cluster_owner name uid] ->
    uid <> "" ->
    reconcile_call spec name namespace uid
      (create_namespaced_custom_object
         "nio.homystack.com" "v1alpha1" namespace "nixosconfigurations" body)
| rc_patch_config config_name existing_spec :
    spec_updates spec existing_spec <> [] ->
    reconcile_call spec name namespace uid
      (patch_namespaced_custom_object
         "nio.homystack.com" "v1alpha1" namespace "nixosconfigurations" config_name
         {| patch_spec := spec_updates spec existing_spec |}
         "application/merge-patch+json")
| rc_status now control_plane_nodes worker_nodes applied_configs :
    reconcile_call spec name namespace uid
      (patch_namespaced_custom_object_status
         "nico.homystack.com" "v1alpha1" namespace "kubernetesclusters" name
         (provisioning_status now name control_plane_nodes worker_nodes applied_configs))
| rc_read_join_token :
    reconcile_call spec name namespace uid
      (read_namespaced_secret (name +:+ "-join-token") namespace)
| rc_create_join_token :
    reconcile_call spec name namespace uid
      (create_namespaced_secret namespace
         {| secret_name := name +:+ "-join-token";
            secret_data :=
              Some [("token", Some (b64encode ("join-token-for-" +:+ name)))] |})
| rc_deletion r :
    deletion_call name namespace r -> reconcile_call spec name namespace uid r.

(** Every call a tick of the monitor for cluster [name] can make; the last
    seven are those of the kubeconfig harvester. *)
Inductive monitor_call (name namespace : string) : request -> Prop :=
| mc_get_config config_name :
    monitor_call name namespace
      (get_namespaced_custom_object
         "nio.homystack.com" "v1alpha1" namespace "nixosconfigurations" config_name)
| mc_get_machine machine_name :
    monitor_call name namespace
      (get_namespaced_custom_object
         "nio.homystack.com" "v1alpha1" namespace "machines" machine_name)
| mc_read_secret secret :
    monitor_call name namespace (read_namespaced_secret secret namespace)
| mc_create_kubeconfig content :
    monitor_call name namespace
      (create_namespaced_secret namespace
         {| secret_name := name +:+ "-kubeconfig";
            secret_data := Some [("kubeconfig", Some (b64encode content))] |})
| mc_status now c :
    monitor_call name namespace
      (patch_namespaced_custom_object_status
         "nico.homystack.com" "v1alpha1" namespace "kubernetesclusters" name
         (monitor_status now name c))
| mc_subprocess cmd timeout : monitor_call name namespace (subprocess_run cmd timeout)
| mc_mkstemp prefix : monitor_call name namespace (tempfile_mkstemp prefix)
| mc_file_write path content : monitor_call name namespace (file_write path content)
| mc_chmod path mode : monitor_call name namespace (os_chmod path mode)
| mc_unlink path : monitor_call name namespace (os_unlink path)
| mc_yaml text : monitor_call name namespace (yaml_load_dump text).

(* ===================================================================== *)
(** ** What a call targets and writes                                     *)
(* ===================================================================== *)

(** Group, version and plural of a custom-resource call. *)
Definition custom_resource_target (r : request) : option (string * string * string) :=
  match r with
  | get_namespaced_custom_object g v _ p _
  | list_namespaced_custom_object g v _ p
  | create_namespaced_custom_object g v _ p _
  | delete_namespaced_custom_object g v _ p _
  | patch_namespaced_custom_object g v _ p _ _ _
  | patch_namespaced_custom_object_status g v _ p _ _ => Some (g, v, p)
  | _ => None
  end.

(** "Targets group nico.homystack.com at v1alpha1 with one of the three
    plurals", as a test on a call. *)
Definition targets_nico_group (r : request) : bool :=
  match custom_resource_target r with
  | Some (g, v, p) =>
      bool_decide (g = "nico.homystack.com") && bool_decide (v = "v1alpha1")
      && bool_decide (p ∈ ["kubernetesclusters"; "machines"; "nixosconfigurations"])
  | None => true
  end.

Definition entry_check (f : request -> bool) (e : entry) : bool :=
  match e with ECall r _ => f r | EOut _ => true end.

(** The targets the core does use: the cluster's status under
    [nico.homystack.com], Machines and NixosConfigurations under
    [nio.homystack.com]. *)
Definition core_target (r : request) : Prop :=
  match r with
  | patch_namespaced_custom_object_status g v _ p _ _ =>
      g = "nico.homystack.com" /\ v = "v1alpha1" /\ p = "kubernetesclusters"
  | get_namespaced_custom_object g v _ p _ =>
      g = "nio.homystack.com" /\ v = "v1alpha1"
      /\ (p = "machines" \/ p = "nixosconfigurations")
  | list_namespaced_custom_object g v _ p =>
      g = "nio.homystack.com" /\ v = "v1alpha1" /\ p = "machines"
  | create_namespaced_custom_object g v _ p _
  | delete_namespaced_custom_object g v _ p _
  | patch_namespaced_custom_object g v _ p _ _ _ =>
      g = "nio.homystack.com" /\ v = "v1alpha1" /\ p = "nixosconfigurations"
  | _ => True
  end.

(** A created child carries exactly the one owner reference to the cluster
    [name] with the uid of [body]. *)
Definition child_owned (name : string) (body : ClusterBody) (r : request) : Prop :=
  match r with
  | create_namespaced_custom_object _ _ _ _ child =>
      exists u, uid body = Some u /\ u <> ""
        /\ ownerReferences child =
             Some [ {| owner_apiVersion := "nico.homystack.com/v1alpha1";
                       owner_kind := "KubernetesCluster";
                       owner_name := name;
                       owner_uid := u;
                       controller := true;
                       blockOwnerDeletion := true |} ]
  | _ => True
  end.

Definition creates_no_child (r : request) : Prop :=
  match r with
  | create_namespaced_custom_object _ _ _ _ _ => False
  | _ => True
  end.

(** The phase a status write sets, if the call is one. *)
Definition written_phase (r : request) : option (option string) :=
  match r with
  | patch_namespaced_custom_object_status _ _ _ _ _ st => Some (phase st)
  | _ => None
  end.

Definition writes_phase_in (allowed : list string) (r : request) : Prop :=
  forall p, written_phase r = Some p -> exists s, p = Some s /\ s ∈ allowed.

Definition writes_no_status (r : request) : Prop := written_phase r = None.

(** A cluster with one free control-plane machine and no child yet. *)
Definition world_fresh : World :=
  {| w_machines := [ example_machine "cp-01" [("r", "cp")] (Some false) ];
     w_configs := [];
     w_secrets := [];
     w_kubeconfig := None |}.

Definition body_fresh : ClusterBody :=
  {| deletionTimestamp := None; uid := Some "uid-1234"; status := None |}.

Definition spec_fresh : ClusterSpec :=
  example_spec (Some (example_role [("r", "cp")] 1)) None.

(* ===================================================================== *)
(** ** Failures                                                           *)
(* ===================================================================== *)

(** Each operation of the gateway other than [list_machines], with the call
    behind it and the text its handler puts before [str(e)] in the ERROR
    line it logs when the call raises; [None] for [get_machine], which has
    no handler. *)
Inductive gateway_wraps : forall {A}, prog A -> request -> option string -> Prop :=
| gw_get_secret_data secret namespace :
    gateway_wraps (get_secret_data secret namespace)
      (read_namespaced_secret secret namespace)
      (Some ("Failed to get secret " +:+ secret +:+ ": "))
| gw_get_machine machine namespace :
    gateway_wraps (get_machine machine namespace)
      (get_namespaced_custom_object
         "nio.homystack.com" "v1alpha1" namespace "machines" machine)
      None
| gw_create_secret secret namespace data :
    gateway_wraps (create_secret secret namespace data)
      (create_namespaced_secret namespace
         {| secret_name := secret;
            secret_data :=
              Some (map (fun kv => (fst kv, Some (b64encode (snd kv)))) data) |})
      (Some ("Failed to create secret " +:+ secret +:+ ": "))
| gw_delete_secret secret namespace :
    gateway_wraps (delete_secret secret namespace)
      (delete_namespaced_secret secret namespace)
      (Some ("Failed to delete secret " +:+ secret +:+ ": "))
| gw_create_plain_config config namespace spec :
    gateway_wraps (create_nixos_configuration config namespace spec)
      (create_namespaced_custom_object
         "nio.homystack.com" "v1alpha1" namespace "nixosconfigurations"
         {| body_apiVersion := "nio.homystack.com/v1alpha1";
            body_kind := "NixosConfiguration";
            body_name := config;
            body_labels := None;
            ownerReferences := None;
            body_spec := spec |})
      (Some ("Failed to create NixosConfiguration " +:+ config +:+ ": "))
| gw_create_config config namespace spec owner uid role :
    gateway_wraps
      (create_nixos_configuration_with_owner config namespace spec owner uid role)
      (create_namespaced_custom_object
         "nio.homystack.com" "v1alpha1" namespace "nixosconfigurations"
         {| body_apiVersion := "nio.homystack.com/v1alpha1";
            body_kind := "NixosConfiguration";
            body_name := config;
            body_labels := Some (<["nico.homystack.com/cluster" := owner]>
                                 (<["nico.homystack.com/role" := role]> ∅));
            ownerReferences := Some [cluster_owner owner uid];
            body_spec := spec |})
      (Some ("Failed to create NixosConfiguration " +:+ config +:+ ": "))
| gw_delete_config config namespace :
    gateway_wraps (delete_nixos_configuration config namespace)
      (delete_namespaced_custom_object
         "nio.homystack.com" "v1alpha1" namespace "nixosconfigurations" config)
      (Some ("Failed to delete NixosConfiguration " +:+ config +:+ ": "))
| gw_get_config config namespace :
    gateway_wraps (get_nixos_configuration config namespace)
      (get_namespaced_custom_object
         "nio.homystack.com" "v1alpha1" namespace "nixosconfigurations" config)
      (Some ("Failed to get NixosConfiguration " +:+ config +:+ ": "))
| gw_patch_config config namespace updates :
    gateway_wraps (patch_nixos_configuration_spec config namespace updates)
      (patch_namespaced_custom_object
         "nio.homystack.com" "v1alpha1" namespace "nixosconfigurations" config
         {| patch_spec := updates |} "application/merge-patch+json")
      (Some ("Failed to patch NixosConfiguration " +:+ config +:+ ": "))
| gw_update_status cluster namespace updates :
    gateway_wraps (update_cluster_status cluster namespace updates)
      (patch_namespaced_custom_object_status
         "nico.homystack.com" "v1alpha1" namespace "kubernetesclusters" cluster updates)
      (Some "Failed to update cluster status: ").

(** What a gateway operation leaves in the trace when its call raises [e]:
    the call, then the ERROR line of its handler, if it has one. *)
Definition failure_trace (r : request) (e : exn) (line : option string) : list entry :=
  ECall r (Raises e)
  :: match line with
     | Some text => [EOut (Log ERROR (text +:+ str_exn e))]
     | None => []
     end.

(** The call of an entry raised. *)
Definition call_raised (e : entry) : Prop :=
  match e with
  | ECall _ (Raises _) => True
  | _ => False
  end.

Definition is_warning (e : entry) : Prop :=
  match e with
  | EOut (Log WARNING _) => True
  | _ => False
  end.

Definition example_config (role : string) (commit : option string) : NixosConfiguration :=
  {| config_labels := Some (list_to_map [("nico.homystack.com/role", role)]);
     config_spec :=
       {| cfg_gitRepo := Some "https://git.example/infra.git"; cfg_flake := None;
          cfg_onRemoveFlake := None; cfg_configurationSubdir := Some "";
          cfg_machineRef := None; cfg_fullInstall := None; cfg_additionalFiles := None;
          cfg_ref := None; cfg_credentialsRef := None |};
     appliedCommit := commit |}.

(** The child of [cp-01] exists and is applied, but the Machine [cp-01]
    cannot be fetched. *)
Definition world_machine_gone : World :=
  {| w_machines := [];
     w_configs := [("demo-cp-01", example_config "control-plane" (Some "abc"))];
     w_secrets := [];
     w_kubeconfig := None |}.

(* ===================================================================== *)
(** ** Drift of a child                                                   *)
(* ===================================================================== *)

Definition configurable_fields : list string :=
  ["gitRepo"; "ref"; "configurationSubdir"; "credentialsRef"].

Definition write_once_fields : list string :=
  ["flake"; "machineRef"; "fullInstall"; "additionalFiles"].

(** The value of a configurable field in the parent spec and in the spec
    of an existing child; [None] when the field is not set.
    [configurationSubdir] has the default [""] on both sides. *)
Definition parent_field (spec : ClusterSpec) (field : string) : option patch_value :=
  if bool_decide (field = "gitRepo") then Some (PStr (gitRepo spec))
  else if bool_decide (field = "ref") then PStr <$> ref spec
  else if bool_decide (field = "configurationSubdir")
  then Some (PStr (default "" (configurationSubdir spec)))
  else if bool_decide (field = "credentialsRef") then PDict <$> credentialsRef spec
  else None.

Definition child_field (existing : NixosConfigSpec) (field : string)
  : option patch_value :=
  if bool_decide (field = "gitRepo") then PStr <$> cfg_gitRepo existing
  else if bool_decide (field = "ref") then PStr <$> cfg_ref existing
  else if bool_decide (field = "configurationSubdir")
  then Some (PStr (default "" (cfg_configurationSubdir existing)))
  else if bool_decide (field = "credentialsRef") then PDict <$> cfg_credentialsRef existing
  else None.

(** Parent and child differ on a configurable field. *)
Definition differs (spec : ClusterSpec) (existing : NixosConfigSpec) (field : string)
  : Prop :=
  field ∈ configurable_fields /\ parent_field spec field <> child_field existing field.

(** The merge patches of a trace: name of the child, body, content type. *)
Definition patch_of (e : entry) : option (string * SpecPatch * string) :=
  match e with
  | ECall (patch_namespaced_custom_object _ _ _ _ name body content_type) _ =>
      Some (name, body, content_type)
  | _ => None
  end.

Definition patches (t : list entry) : list (string * SpecPatch * string) :=
  omap patch_of t.

(** A call that is not a merge patch of a child. *)
Definition no_patch (r : request) : Prop :=
  match r with
  | patch_namespaced_custom_object _ _ _ _ _ _ _ => False
  | _ => True
  end.

(** A merge patch of a child is the drift of some existing child spec
    against [spec], and is not empty. *)
Definition patches_drift_only (spec : ClusterSpec) (r : request) : Prop :=
  match r with
  | patch_namespaced_custom_object _ _ _ _ _ body content_type =>
      content_type = "application/merge-patch+json"
      /\ exists existing_spec,
           body = {| patch_spec := spec_updates spec existing_spec |}
           /\ spec_updates spec existing_spec <> []
  | _ => True
  end.

(** Scenario S3: the child has [ref = "v1"], the parent sets no [ref]. *)
Definition config_s3 : NixosConfiguration :=
  {| config_labels := Some (list_to_map [("nico.homystack.com/role", "control-plane")]);
     config_spec :=
       {| cfg_gitRepo := Some "https://git.example/infra.git";
          cfg_flake := Some "#cp-01";
          cfg_onRemoveFlake := Some "#minimal";
          cfg_configurationSubdir := Some "";
          cfg_machineRef := Some "cp-01";
          cfg_fullInstall := Some true;
          cfg_additionalFiles := Some [];
          cfg_ref := Some "v1";
          cfg_credentialsRef := None |};
     appliedCommit := None |}.

Definition world_s3 : World :=
  {| w_machines := [ example_machine "cp-01" [("r", "cp")] (Some true) ];
     w_configs := [("demo-cp-01", config_s3)];
     w_secrets := ["demo-join-token"];
     w_kubeconfig := None |}.

Definition body_s3 : ClusterBody :=
  {| deletionTimestamp := None; uid := Some "uid-1234";
     status := Some
       {| phase := Some "Provisioning"; controlPlaneReady := None;
          dataPlaneReady := None; kubeconfigSecret := None;
          appliedMachines := Some [("cp-01", "demo-cp-01")];
          selectedControlPlaneMachines := Some ["cp-01"];
          selectedDataPlaneMachines := None; conditions := None |} |}.

(* ===================================================================== *)
(** ** Kubeconfig                                                         *)
(* ===================================================================== *)

(** A NixosConfiguration, or a Machine, that the server returned. *)
Definition config_seen (e : entry) : option (string * NixosConfiguration) :=
  match e with
  | ECall r resp =>
      match r as r0 return outcome (resp_type r0) -> option (string * NixosConfiguration)
      with
      | get_namespaced_custom_object _ _ _ plural name =>
          match String.eqb plural "machines" as b
                return outcome (if b then Machine else NixosConfiguration)
                       -> option (string * NixosConfiguration)
          with
          | true => fun _ => None
          | false => fun resp =>
              match resp with Returns c => Some (name, c) | Raises _ => None end
          end
      | _ => fun _ => None
      end resp
  | EOut _ => None
  end.

Definition machine_seen (e : entry) : option (string * Machine) :=
  match e with
  | ECall r resp =>
      match r as r0 return outcome (resp_type r0) -> option (string * Machine) with
      | get_namespaced_custom_object _ _ _ plural name =>
          match String.eqb plural "machines" as b
                return outcome (if b then Machine else NixosConfiguration)
                       -> option (string * Machine)
          with
          | true => fun resp =>
              match resp with Returns m => Some (name, m) | Raises _ => None end
          | false => fun _ => None
          end
      | _ => fun _ => None
      end resp
  | EOut _ => None
  end.

(** The trace shows a ready control-plane node among the applied machines:
    its child, labelled [control-plane], reported a non-empty
    [appliedCommit], and its Machine reported [hasConfiguration = true]. *)
Definition ready_control_plane_node (applied : list (string * string))
    (t : list entry) : Prop :=
  exists machine_name config_name config machine commit,
    (machine_name, config_name) ∈ applied
    /\ (config_name, config) ∈ omap config_seen t
    /\ (machine_name, machine) ∈ omap machine_seen t
    /\ default ∅ (config_labels config) !! "nico.homystack.com/role"
       = Some "control-plane"
    /\ appliedCommit config = Some commit /\ commit <> ""
    /\ hasConfiguration machine = Some true.

(** The call creates the Secret [<name>-kubeconfig]. *)
Definition creates_kubeconfig_secret (name : string) (e : entry) : Prop :=
  match e with
  | ECall (create_namespaced_secret _ secret) _ =>
      secret_name secret = name +:+ "-kubeconfig"
  | _ => False
  end.

Definition no_kubeconfig_secret (name : string) (r : request) : Prop :=
  match r with
  | create_namespaced_secret _ secret => secret_name secret <> name +:+ "-kubeconfig"
  | _ => True
  end.

(** The call creates no Secret. *)
Definition no_secret_create (r : request) : Prop :=
  match r with
  | create_namespaced_secret _ _ => False
  | _ => True
  end.

(** A status write names the kubeconfig Secret. *)
Definition names_kubeconfig_secret (name : string) (r : request) : Prop :=
  match r with
  | patch_namespaced_custom_object_status _ _ _ _ _ st =>
      kubeconfigSecret st = Some (name +:+ "-kubeconfig")
  | _ => True
  end.

Definition status_written (e : entry) : option ClusterStatus :=
  match e with
  | ECall (patch_namespaced_custom_object_status _ _ _ _ _ st) _ => Some st
  | _ => None
  end.

(** The control plane [cp-01] is applied and its node serves a kubeconfig
    over SSH; the Secret does not exist yet. *)
Definition world_ready : World :=
  {| w_machines := [ example_machine "cp-01" [("r", "cp")] (Some true) ];
     w_configs := [("demo-cp-01", example_config "control-plane" (Some "abc"))];
     w_secrets := ["demo-join-token"];
     w_kubeconfig := Some "apiVersion: v1" |}.

Definition body_ready : ClusterBody :=
  {| deletionTimestamp := None; uid := Some "uid-1234";
     status := Some
       {| phase := Some "Provisioning"; controlPlaneReady := None;
          dataPlaneReady := None; kubeconfigSecret := None;
          appliedMachines := Some [("cp-01", "demo-cp-01")];
          selectedControlPlaneMachines := Some ["cp-01"];
          selectedDataPlaneMachines := None; conditions := None |} |}.

(** Scenario S5: two applied control-plane nodes, one worker whose child is
    not applied yet. *)
Definition world_s5 : World :=
  {| w_machines := [ example_machine "cp-01" [] (Some true);
                     example_machine "cp-02" [] (Some true);
                     example_machine "w-01" [] (Some false) ];
     w_configs := [("demo-cp-01", example_config "control-plane" (Some "abc"));
                   ("demo-cp-02", example_config "control-plane" (Some "abc"));
                   ("demo-w-01", example_config "worker" (Some ""))];
     w_secrets := ["demo-kubeconfig"];
     w_kubeconfig := None |}.

Definition body_s5 : ClusterBody :=
  {| deletionTimestamp := None; uid := Some "uid-1234";
     status := Some
       {| phase := Some "Provisioning"; controlPlaneReady := None;
          dataPlaneReady := None; kubeconfigSecret := None;
          appliedMachines := Some [("cp-01", "demo-cp-01"); ("cp-02", "demo-cp-02");
                                   ("w-01", "demo-w-01")];
          selectedControlPlaneMachines := Some ["cp-01"; "cp-02"];
          selectedDataPlaneMachines := Some ["w-01"]; conditions := None |} |}.

(* ===================================================================== *)
(** ** Specifications of programs                                         *)
(* ===================================================================== *)

(** [triple R P Q E m]: whenever the environment raises only exceptions
    that satisfy [R], every call of [m] satisfies [P], a value [m] returns
    satisfies [Q] and an exception it raises satisfies [E]. *)
Inductive triple (R : exn -> Prop) (P : request -> Prop) {A} (Q : A -> Prop)
    (E : exn -> Prop) : prog A -> Prop :=
| tr_Ret a : Q a -> triple R P Q E (Ret a)
| tr_Raise e : E e -> triple R P Q E (Raise e)
| tr_Emit o k : triple R P Q E k -> triple R P Q E (Emit o k)
| tr_Call r k :
    P r ->
    (forall resp, match resp with Raises e => R e | Returns _ => True end ->
                  triple R P Q E (k resp)) ->
    triple R P Q E (Call r k).

(** The environment raises only exceptions that satisfy [R]. *)
Definition raises_only (R : exn -> Prop) (srv : server) : Prop :=
  forall h r e, srv h r = Raises e -> R e.

(** The calls of a trace, in order. *)
Definition call_of (e : entry) : option request :=
  match e with ECall r _ => Some r | EOut _ => None end.

Definition calls_of (t : list entry) : list request := omap call_of t.

(** The outputs of a trace, in order. *)
Definition output_of (e : entry) : option output :=
  match e with EOut o => Some o | ECall _ _ => None end.

Definition outputs_of (t : list entry) : list output := omap output_of t.

Definition any_call (r : request) : Prop := True.
Definition any_exn (e : exn) : Prop := True.
Definition no_exn (e : exn) : Prop := False.
Definition any_value {A} (a : A) : Prop := True.

(* ===================================================================== *)
(** ** The status a reconcile writes                                      *)
(* ===================================================================== *)

(** A status write of the reconciler for cluster [name] records a
    non-empty control-plane selection, and its [appliedMachines] has exactly
    the selected machines as keys, each once and each mapped to the child
    [<name>-<machine>]; the ready counters start at 0 of the number
    selected. *)
Definition status_write_complete (name : string) (r : request) : Prop :=
  match r with
  | patch_namespaced_custom_object_status _ _ _ _ _ st =>
      exists cp dp applied,
        selectedControlPlaneMachines st = Some cp
        /\ selectedDataPlaneMachines st = Some dp
        /\ appliedMachines st = Some applied
        /\ cp <> []
        /\ (forall m, m ∈ cp ++ dp -> dict_get m applied = Some (name +:+ "-" +:+ m))
        /\ (forall m, m ∈ applied.*1 -> m ∈ cp ++ dp)
        /\ NoDup applied.*1
        /\ controlPlaneReady st = Some ("0/" +:+ pretty (length cp))
        /\ dataPlaneReady st = Some ("0/" +:+ pretty (length dp))
  | _ => True
  end.

(** The applied map after the machines [done] have been handled. *)
Definition applied_covers (name : string) (done : list string)
    (applied : list (string * string)) : Prop :=
  (forall m, m ∈ done -> dict_get m applied = Some (name +:+ "-" +:+ m))
  /\ (forall m, m ∈ applied.*1 -> m ∈ done)
  /\ NoDup applied.*1.

(* ===================================================================== *)
(** ** Errors of a reconcile                                              *)
(* ===================================================================== *)

(** An exception of the environment: any but kopf's two. *)
Definition env_exn (e : exn) : Prop :=
  match e with
  | TemporaryError _ _ | PermanentError _ => False
  | _ => True
  end.

(** What the [try] block of a reconcile of [body] may raise. *)
Definition reconcile_body_error (body : ClusterBody) (e : exn) : Prop :=
  env_exn e
  \/ (e = PermanentError "Cluster UID not found in metadata"
      /\ truthy_opt truthy_str (uid body) = false
      /\ truthy_opt truthy_str (deletionTimestamp body) = false)
  \/ e = TemporaryError "No available control plane machines found" 60.

(** What a reconcile of [body] may raise. *)
Definition reconcile_error (body : ClusterBody) (e : exn) : Prop :=
  match e with
  | PermanentError msg =>
      msg = "Cluster UID not found in metadata"
      /\ truthy_opt truthy_str (uid body) = false
      /\ truthy_opt truthy_str (deletionTimestamp body) = false
  | TemporaryError msg delay =>
      delay = 60%Z
      /\ (msg = "No available control plane machines found"
          \/ exists e', env_exn e'
                        /\ msg = "Cluster reconciliation failed: " +:+ str_exn e')
  | _ => False
  end.

(** The call lists the Machines of [namespace]. *)
Definition is_machine_listing (namespace : string) (r : request) : Prop :=
  r = list_namespaced_custom_object "nio.homystack.com" "v1alpha1" namespace "machines".

(* ===================================================================== *)
(** ** Order and presence of calls                                        *)
(* ===================================================================== *)

Definition no_call (r : request) : Prop := False.

(** [final_call F m]: [m] makes at most one call that satisfies [F], and
    no call at all after it. *)
Inductive final_call (F : request -> Prop) {A} : prog A -> Prop :=
| fc_Ret a : final_call F (Ret a)
| fc_Raise e : final_call F (Raise e)
| fc_Emit o k : final_call F k -> final_call F (Emit o k)
| fc_Call_other r k :
    ~ F r -> (forall resp, final_call F (k resp)) -> final_call F (Call r k)
| fc_Call_final r k :
    F r -> (forall resp, calls_satisfy no_call (k resp)) -> final_call F (Call r k).

(** The same on a trace. *)
Definition trace_final (F : request -> Prop) (t : list entry) : Prop :=
  Forall (entry_satisfies (fun r => ~ F r)) t
  \/ exists t1 r resp t2,
       t = t1 ++ ECall r resp :: t2
       /\ Forall (entry_satisfies (fun r => ~ F r)) t1
       /\ F r
       /\ calls_of t2 = [].

(** [returns_after F m]: [m] does not return unless a call that satisfies
    [F] has returned. *)
Inductive returns_after (F : request -> Prop) {A} : prog A -> Prop :=
| ra_Raise e : returns_after F (Raise e)
| ra_Emit o k : returns_after F k -> returns_after F (Emit o k)
| ra_Call r k : (forall resp, returns_after F (k resp)) -> returns_after F (Call r k)
| ra_Call_done r k :
    F r -> (forall e, returns_after F (k (Raises e))) -> returns_after F (Call r k).

(** [always_calls F m]: every execution of [m] makes a call that satisfies
    [F]. *)
Inductive always_calls (F : request -> Prop) {A} : prog A -> Prop :=
| ac_Emit o k : always_calls F k -> always_calls F (Emit o k)
| ac_Call r k : (forall resp, always_calls F (k resp)) -> always_calls F (Call r k)
| ac_Call_here r k : F r -> always_calls F (Call r k).

(** A call that satisfies [F] and returned. *)
Definition returned_call (F : request -> Prop) (e : entry) : Prop :=
  match e with
  | ECall r (Returns _) => F r
  | _ => False
  end.

Definition is_status_write (r : request) : Prop :=
  match r with
  | patch_namespaced_custom_object_status _ _ _ _ _ _ => True
  | _ => False
  end.

(** Scenario S6: a cluster being deleted, with two applied machines and no
    uid in the body. *)
Definition body_deleting : ClusterBody :=
  {| deletionTimestamp := Some "2024-01-01T00:00:00Z"; uid := None;
     status := Some
       {| phase := Some "Ready"; controlPlaneReady := None; dataPlaneReady := None;
          kubeconfigSecret := None;
          appliedMachines := Some [("m1", "c1"); ("m2", "c2")];
          selectedControlPlaneMachines := Some ["m1"];
          selectedDataPlaneMachines := Some ["m2"]; conditions := None |} |}.

(* ===================================================================== *)
(** ** The counters of a tick                                             *)
(* ===================================================================== *)

(** What the counters satisfy after the machines [done] have been looked
    at: ready counts between 0 and the totals, totals that add up to at
    most the number of machines looked at, and one ready control-plane name
    per ready control-plane count, each a machine looked at. *)
Definition counters_ok (done : list (string * string)) (c : Counters) : Prop :=
  (0 <= control_plane_ready c <= total_control_plane c)%Z
  /\ (0 <= data_plane_ready c <= total_data_plane c)%Z
  /\ (total_control_plane c + total_data_plane c <= Z.of_nat (length done))%Z
  /\ Z.of_nat (length (ready_control_plane_nodes c)) = control_plane_ready c
  /\ ready_control_plane_nodes c ⊆ done.*1.

(** A status write of the monitor for the applied machines [applied]. *)
Definition monitor_write_ok (name : string) (applied : list (string * string))
    (r : request) : Prop :=
  match r with
  | patch_namespaced_custom_object_status _ _ _ _ _ st =>
      exists c,
        counters_ok applied c
        /\ phase st = Some (counters_phase c)
        /\ controlPlaneReady st
           = Some (pretty (control_plane_ready c) +:+ "/" +:+ pretty (total_control_plane c))
        /\ dataPlaneReady st
           = Some (pretty (data_plane_ready c) +:+ "/" +:+ pretty (total_data_plane c))
        /\ appliedMachines st = None
        /\ selectedControlPlaneMachines st = None
        /\ selectedDataPlaneMachines st = None
  | _ => True
  end.

(** The read of the Secret [<name>-kubeconfig] answered NotFound. *)
Definition kubeconfig_not_found (name : string) (e : entry) : Prop :=
  match e with
  | ECall (read_namespaced_secret secret _) (Raises (ApiException status _)) =>
      secret = name +:+ "-kubeconfig" /\ status = 404%Z
  | _ => False
  end.

(* ===================================================================== *)
(** ** The SSH attempts of the harvester                                  *)
(* ===================================================================== *)

(** An SSH command succeeded: it returned, with exit code 0 and an output
    that is not blank. *)
Definition ssh_ok (resp : outcome CompletedProcess) : bool :=
  match resp with
  | Returns r => (returncode r =? 0)%Z && truthy_stripped (stdout r)
  | Raises _ => false
  end.

(** The SSH attempts of a trace, in order: command line, time-out and
    whether the attempt succeeded. *)
Definition ssh_attempt (e : entry) : option (list string * Z * bool) :=
  match e with
  | ECall (subprocess_run cmd timeout) resp => Some (cmd, timeout, ssh_ok resp)
  | _ => None
  end.

Definition ssh_attempts (t : list entry) : list (list string * Z * bool) :=
  omap ssh_attempt t.

(** The remote commands of the harvester, in the order it tries them. *)
Definition remote_commands : list string :=
  (map (fun path => "cat " +:+ path) kubeconfig_paths
   ++ ["kubectl config view --raw"])%list.

(** Failed attempts at the commands [cmds] over the SSH prefix [base]. *)
Definition failed_attempts (base : list string) (cmds : list string)
  : list (list string * Z * bool) :=
  map (fun c => ((base ++ [c])%list, 10%Z, false)) cmds.

(** [guarded G F m]: [m] makes a call that satisfies [F] only after a step
    that satisfies [G]. *)
Inductive guarded (G : entry -> Prop) (F : request -> Prop) {A} : prog A -> Prop :=
| gd_Ret a : guarded G F (Ret a)
| gd_Raise e : guarded G F (Raise e)
| gd_Emit o k : guarded G F k -> guarded G F (Emit o k)
| gd_Call r k :
    ~ F r ->
    (forall resp, ~ G (ECall r resp) -> guarded G F (k resp)) ->
    guarded G F (Call r k).

(** The same on a trace. *)
Definition trace_guarded (G : entry -> Prop) (F : request -> Prop) (t : list entry)
  : Prop :=
  forall t1 r resp t2, t = t1 ++ ECall r resp :: t2 -> F r -> Exists G t1.

Definition is_ssh_call (r : request) : Prop :=
  match r with
  | subprocess_run _ _ => True
  | _ => False
  end.

Definition no_ssh (r : request) : Prop :=
  match r with
  | subprocess_run _ _ => False
  | _ => True
  end.

(* ===================================================================== *)
(** ** The key file of the harvester                                      *)
(* ===================================================================== *)

(** The steps of a trace that touch a temporary file or run a command. *)
Definition key_or_ssh (r : request) : bool :=
  match r with
  | subprocess_run _ _ | tempfile_mkstemp _ | file_write _ _
  | os_chmod _ _ | os_unlink _ => true
  | _ => false
  end.

Definition harvest_step (e : entry) : option entry :=
  match e with
  | ECall r _ => if key_or_ssh r then Some e else None
  | EOut _ => None
  end.

Definition harvest_steps (t : list entry) : list entry := omap harvest_step t.

(** An SSH command over the prefix [base], with the time-out of the
    harvester. *)
Definition ssh_over (base : list string) (e : entry) : Prop :=
  exists c resp, e = ECall (subprocess_run (base ++ [c])%list 10) resp.

Definition ssh_options : list string :=
  ["ssh"; "-o"; "StrictHostKeyChecking=no"; "-o"; "UserKnownHostsFile=/dev/null"].

(* ===================================================================== *)
(** ** Children as created                                                *)
(* ===================================================================== *)

(** What the drift check of the next reconcile finds on a child that was
    created from [spec] and not touched since: a [ref] that is the empty
    string and a [credentialsRef] that is the empty dict were left out of
    the child, and differ from it. *)
Definition creation_drift (spec : ClusterSpec) : list (string * patch_value) :=
  ((if bool_decide (ref spec = Some "") then [("ref", PStr "")] else [])
   ++ (if bool_decide (credentialsRef spec = Some ∅)
       then [("credentialsRef", PDict ∅)] else []))%list.

(** A create call for a child of cluster [name] under [spec]: the child is
    named after one machine, refers to it and builds its flake output, and
    shows exactly [creation_drift] against [spec]. *)
Definition created_in_sync (spec : ClusterSpec) (name : string) (r : request) : Prop :=
  match r with
  | create_namespaced_custom_object _ _ _ _ child =>
      spec_updates spec (body_spec child) = creation_drift spec
      /\ exists machine_name,
           body_name child = name +:+ "-" +:+ machine_name
           /\ cfg_machineRef (body_spec child) = Some machine_name
           /\ cfg_flake (body_spec child) = Some ("#" +:+ machine_name)
  | _ => True
  end.

(* ===================================================================== *)
(** ** Properties of whole executions                                     *)
(* ===================================================================== *)

(** A property of every step a program can take, whatever the answers. *)
Inductive steps_satisfy (P : entry -> Prop) {A} : prog A -> Prop :=
| ss_Ret a : steps_satisfy P (Ret a)
| ss_Raise e : steps_satisfy P (Raise e)
| ss_Emit o k : P (EOut o) -> steps_satisfy P k -> steps_satisfy P (Emit o k)
| ss_Call r k :
    (forall resp, P (ECall r resp)) ->
    (forall resp, steps_satisfy P (k resp)) ->
    steps_satisfy P (Call r k).

(** An answer the environment may give when it raises only exceptions
    that satisfy [R]. *)
Definition answer_ok (R : exn -> Prop) {A} (resp : outcome A) : Prop :=
  match resp with
  | Raises e => R e
  | Returns _ => True
  end.

(** [always R m Φ]: in every execution of [m] in which the environment
    raises only exceptions that satisfy [R], the trace and the result
    satisfy [Φ]. *)
Fixpoint always (R : exn -> Prop) {A} (m : prog A)
    (Φ : list entry -> outcome A -> Prop) : Prop :=
  match m with
  | Ret a => Φ [] (Returns a)
  | Raise e => Φ [] (Raises e)
  | Emit o k => always R k (fun t res => Φ (EOut o :: t) res)
  | Call r k =>
      forall resp, answer_ok R resp ->
                   always R (k resp) (fun t res => Φ (ECall r resp :: t) res)
  end.

(** [guarded_until G F m]: [m] makes no call that satisfies [F] before a
    step that satisfies [G], and does not return before such a step. *)
Inductive guarded_until (G : entry -> Prop) (F : request -> Prop) {A} : prog A -> Prop :=
| gu_Raise e : guarded_until G F (Raise e)
| gu_Emit o k : guarded_until G F k -> guarded_until G F (Emit o k)
| gu_Call r k :
    ~ F r ->
    (forall resp, ~ G (ECall r resp) -> guarded_until G F (k resp)) ->
    guarded_until G F (Call r k).

(** The join-token Secret of cluster [name] was read or created. *)
Definition join_token_available (name : string) (e : entry) : Prop :=
  match e with
  | ECall (read_namespaced_secret secret _) (Returns _) => secret = name +:+ "-join-token"
  | ECall (create_namespaced_secret _ body) (Returns _) =>
      secret_name body = name +:+ "-join-token"
  | _ => False
  end.

Definition is_child_create (r : request) : Prop :=
  match r with
  | create_namespaced_custom_object _ _ _ _ _ => True
  | _ => False
  end.

(* ===================================================================== *)
(** ** The cluster view of a reconcile                                    *)
(* ===================================================================== *)

(** The entry of [machines_info] for a fetched Machine. *)
Definition machine_info_of (machine : Machine) : MachineInfo :=
  {| info_hostname := Some (default "" (hostname machine));
     info_ipAddress := Some (default "" (ipAddress machine)) |}.

(** The Machine [machine_name] was fetched, and answered with [machine]. *)
Definition fetched (namespace machine_name : string) (machine : Machine) (t : list entry)
  : Prop :=
  ECall (get_namespaced_custom_object "nio.homystack.com" "v1alpha1" namespace
           "machines" machine_name)
        (Returns machine) ∈ t.

(** A create call for a child whose first two files are [cluster.nix],
    rendered from the selections [cp] and [workers] and the addresses
    [info], and the reference to the join token. *)
Definition child_renders (name : string) (cp workers : list string)
    (info : list (string * MachineInfo)) (r : request) : Prop :=
  match r with
  | create_namespaced_custom_object _ _ _ _ child =>
      exists rest,
        cfg_additionalFiles (body_spec child)
        = Some ({| path := "cluster.nix"; valueType := "Inline";
                   inline := Some (generate_cluster_config name cp workers info);
                   secretRef := None |}
                :: {| path := "join-token"; valueType := "SecretRef";
                      inline := None; secretRef := Some (name +:+ "-join-token") |}
                :: rest)
  | _ => True
  end.

(** A status write that records the selections [cp] and [workers]. *)
Definition status_records (cp workers : list string) (r : request) : Prop :=
  match r with
  | patch_namespaced_custom_object_status _ _ _ _ _ st =>
      selectedControlPlaneMachines st = Some cp
      /\ selectedDataPlaneMachines st = Some workers
  | _ => True
  end.

(** A step that neither creates a child nor writes a status. *)
Definition no_child_no_status (r : request) : Prop :=
  match r with
  | create_namespaced_custom_object _ _ _ _ _
  | patch_namespaced_custom_object_status _ _ _ _ _ _ => False
  | _ => True
  end.

(** The cluster view [cp], [workers], [info] behind a trace of a reconcile
    of cluster [name]: every child created renders it, every status written
    records it, and the address of every selected machine is the one of a
    Machine fetched in this trace: its [ipAddress], or else its [hostname],
    or else the empty string. *)
Definition cluster_view (name namespace : string) (cp workers : list string)
    (info : list (string * MachineInfo)) (t : list entry) : Prop :=
  Forall (entry_satisfies (child_renders name cp workers info)) t
  /\ Forall (entry_satisfies (status_records cp workers)) t
  /\ forall m, m ∈ (cp ++ workers)%list ->
       exists machine,
         fetched namespace m machine t
         /\ node_ip info m
            = str_or (default "" (ipAddress machine)) (default "" (hostname machine)).

(* ===================================================================== *)
(** ** Children are created when absent                                   *)
(* ===================================================================== *)

(** The test of the reconciler for "the child does not exist". *)
Definition says_not_found (e : exn) : bool :=
  str_contains "404" (str_exn e) || str_contains "not found" (str_lower (str_exn e)).

(** The read or the patch of the child [config_name] failed with an
    exception that says "not found". *)
Definition child_reported_absent (config_name : string) (e : entry) : Prop :=
  match e with
  | ECall (get_namespaced_custom_object _ _ _ plural name) (Raises e) =>
      plural = "nixosconfigurations" /\ name = config_name /\ says_not_found e = true
  | ECall (patch_namespaced_custom_object _ _ _ plural name _ _) (Raises e) =>
      plural = "nixosconfigurations" /\ name = config_name /\ says_not_found e = true
  | _ => False
  end.

Definition creates_child_named (config_name : string) (r : request) : Prop :=
  match r with
  | create_namespaced_custom_object _ _ _ _ child => body_name child = config_name
  | _ => False
  end.

(** [guarded_exn G F E m]: [m] is guarded, and an exception it raises
    before any step that satisfies [G] satisfies [E]. *)
Inductive guarded_exn (G : entry -> Prop) (F : request -> Prop) (E : exn -> Prop) {A}
  : prog A -> Prop :=
| ge_Ret a : guarded_exn G F E (Ret a)
| ge_Raise e : E e -> guarded_exn G F E (Raise e)
| ge_Emit o k : guarded_exn G F E k -> guarded_exn G F E (Emit o k)
| ge_Call r k :
    ~ F r ->
    (forall resp, ~ G (ECall r resp) -> guarded_exn G F E (k resp)) ->
    guarded_exn G F E (Call r k).

(* ===================================================================== *)
(** ** What the handlers never do                                         *)
(* ===================================================================== *)

Definition is_delete (r : request) : Prop :=
  match r with
  | delete_namespaced_custom_object _ _ _ _ _ | delete_namespaced_secret _ _ => True
  | _ => False
  end.

(** A write to a Machine or to a child: create, patch or delete. *)
Definition writes_object (r : request) : Prop :=
  match r with
  | create_namespaced_custom_object _ _ _ _ _
  | patch_namespaced_custom_object _ _ _ _ _ _ _
  | delete_namespaced_custom_object _ _ _ _ _ => True
  | _ => False
  end.

(** A call on a Secret other than [secret]. *)
Definition other_secret_write (secret : string) (r : request) : Prop :=
  match r with
  | create_namespaced_secret _ body => secret_name body <> secret
  | delete_namespaced_secret _ _ => True
  | _ => False
  end.

(* ===================================================================== *)
(** ** Metrics registry ([metrics.py])                                    *)
(* ===================================================================== *)

(** [s.split(sep)] for a separator of one character. *)
Fixpoint str_split (sep : ascii) (s : string) : list string :=
  match s with
  | EmptyString => [""]
  | String c s' =>
      if Ascii.eqb c sep then "" :: str_split sep s'
      else match str_split sep s' with
           | w :: ws => String c w :: ws
           | [] => [String c ""]
           end
  end.

(** [s.strip()], on the ASCII white space. *)
Fixpoint lstrip (s : string) : string :=
  match s with
  | EmptyString => ""
  | String c s' => if is_space c then lstrip s' else s
  end.

Fixpoint rstrip (s : string) : string :=
  match s with
  | EmptyString => ""
  | String c s' =>
      match rstrip s' with
      | EmptyString => if is_space c then "" else String c ""
      | r => String c r
      end
  end.

Definition str_strip (s : string) : string := rstrip (lstrip s).

(** [int(s)] in base 10, on ASCII text: white space around, one optional
    sign, then decimal digits, with single underscores allowed between
    digits.  [None] stands for [ValueError].  (The digits and spaces of other
    scripts, and the interpreter's limit on the number of digits, are left
    out.) *)
Definition digit_value (c : ascii) : option Z :=
  let n := nat_of_ascii c in
  if (48 <=? n)%nat && (n <=? 57)%nat then Some (Z.of_nat (n - 48)) else None.

Fixpoint int_digits (acc : Z) (after_digit : bool) (s : string) : option Z :=
  match s with
  | EmptyString => if after_digit then Some acc else None
  | String c s' =>
      match digit_value c with
      | Some d => int_digits (acc * 10 + d) true s'
      | None =>
          if Ascii.eqb c "_" && after_digit then int_digits acc false s' else None
      end
  end.

Definition py_int (s : string) : option Z :=
  match str_strip s with
  | EmptyString => None
  | String c s' =>
      if Ascii.eqb c "+" then int_digits 0 false s'
      else if Ascii.eqb c "-" then Z.opp <$> int_digits 0 false s'
      else int_digits 0 false (String c s')
  end.

(** [a, b = map(int, s.split("/"))]: [None] stands for the [ValueError] of
    [int] or of the unpacking. *)
Definition parse_ready (s : string) : option (Z * Z) :=
  match map py_int (str_split "/" s) with
  | [Some a; Some b] => Some (a, b)
  | _ => None
  end.

Module metrics.

(** The samples of the Gauges and Counters: one number for each metric and
    each tuple of label values, in the order the labels are declared; a
    child that was never touched reads 0.  (Histograms record durations,
    which the model does not have.) *)
Abbreviation Registry := (gmap (string * list string) Z) (only parsing).

Definition sample (reg : Registry) (metric : string) (labels : list string) : Z :=
  default 0 (reg !! (metric, labels)).

(** [metric.labels(...).inc()] and [metric.labels(...).set(value)]. *)
Definition inc (metric : string) (labels : list string) (reg : Registry) : Registry :=
  <[(metric, labels) := sample reg metric labels + 1]> reg.

Definition gauge_set (metric : string) (labels : list string) (value : Z)
    (reg : Registry) : Registry :=
  <[(metric, labels) := value]> reg.

Definition clusters_by_phase : string := "nico_clusters_by_phase".
Definition cluster_control_plane_nodes : string := "nico_cluster_control_plane_nodes".
Definition cluster_worker_nodes : string := "nico_cluster_worker_nodes".
Definition cluster_reconcile_errors : string := "nico_cluster_reconcile_errors_total".
Definition cluster_reconcile_success : string := "nico_cluster_reconcile_success_total".
Definition nixos_configs_created : string := "nico_nixos_configs_created_total".
Definition nixos_configs_deleted : string := "nico_nixos_configs_deleted_total".
Definition machines_selected : string := "nico_machines_selected".
Definition kubeconfig_generation_success : string :=
  "nico_kubeconfig_generation_success_total".
Definition kubeconfig_generation_errors : string :=
  "nico_kubeconfig_generation_errors_total".

Definition phases : list string :=
  ["Provisioning"; "Ready"; "Failed"; "Deleting"; "ControlPlaneReady"].

(** The loop "Update phase metrics". *)
Definition update_phase (namespace phase : string) (reg : Registry) : Registry :=
  foldl (fun reg p =>
           if bool_decide (p = phase) then inc clusters_by_phase [namespace; p] reg
           else gauge_set clusters_by_phase [namespace; p] 0 reg)
        reg phases.

(** One of the two blocks "Update node metrics"; a string that does not
    parse leaves the gauges as they are. *)
Definition update_nodes (metric namespace cluster_name ready_str : string)
    (reg : Registry) : Registry :=
  match parse_ready ready_str with
  | Some (ready, total) =>
      gauge_set metric [namespace; cluster_name; "total"] total
        (gauge_set metric [namespace; cluster_name; "ready"] ready reg)
  | None => reg
  end.

Definition update_cluster_metrics (namespace cluster_name : string)
    (status : ClusterStatus) (reg : Registry) : Registry :=
  let phase := default "Unknown" (phase status) in
  let reg := update_phase namespace phase reg in
  let control_plane_ready_str := default "0/0" (controlPlaneReady status) in
  let data_plane_ready_str := default "0/0" (dataPlaneReady status) in
  let reg :=
    update_nodes cluster_control_plane_nodes namespace cluster_name
      control_plane_ready_str reg in
  update_nodes cluster_worker_nodes namespace cluster_name data_plane_ready_str reg.

Definition record_reconcile_success (namespace cluster_name : string) : Registry -> Registry :=
  inc cluster_reconcile_success [namespace; cluster_name].

Definition record_reconcile_error (namespace cluster_name error_type : string)
  : Registry -> Registry :=
  inc cluster_reconcile_errors [namespace; cluster_name; error_type].

Definition record_nixos_config_created (namespace cluster_name role : string)
  : Registry -> Registry :=
  inc nixos_configs_created [namespace; cluster_name; role].

Definition record_nixos_config_deleted (namespace cluster_name : string)
  : Registry -> Registry :=
  inc nixos_configs_deleted [namespace; cluster_name].

Definition record_kubeconfig_generated (namespace cluster_name : string) (success : bool)
  : Registry -> Registry :=
  if success then inc kubeconfig_generation_success [namespace; cluster_name]
  else inc kubeconfig_generation_errors [namespace; cluster_name].

Definition record_machines_selected (namespace cluster_name role : string) (count : nat)
  : Registry -> Registry :=
  gauge_set machines_selected [namespace; cluster_name; role] (Z.of_nat count).

End metrics.

(** What a metric call of a handler does to the registry. *)
Definition apply_metric (m : metric_call) (reg : metrics.Registry) : metrics.Registry :=
  match m with
  | record_reconcile_success namespace cluster =>
      metrics.record_reconcile_success namespace cluster reg
  | record_reconcile_error namespace cluster error_type =>
      metrics.record_reconcile_error namespace cluster error_type reg
  | record_nixos_config_created namespace cluster role =>
      metrics.record_nixos_config_created namespace cluster role reg
  | record_nixos_config_deleted namespace cluster =>
      metrics.record_nixos_config_deleted namespace cluster reg
  | record_kubeconfig_generated namespace cluster success =>
      metrics.record_kubeconfig_generated namespace cluster success reg
  | record_machines_selected namespace cluster role n =>
      metrics.record_machines_selected namespace cluster role n reg
  | update_cluster_metrics namespace cluster status_update =>
      metrics.update_cluster_metrics namespace cluster status_update reg
  | cluster_reconcile_duration _ _ | machine_selection_duration _ _ _ => reg
  end.

(** The metric calls of a trace, in order, and the registry after them. *)
Definition metric_of (e : entry) : option metric_call :=
  match e with
  | EOut (Metric m) => Some m
  | _ => None
  end.

Definition metrics_of (t : list entry) : list metric_call := omap metric_of t.

Definition registry_after (t : list entry) (reg : metrics.Registry) : metrics.Registry :=
  foldl (fun reg m => apply_metric m reg) reg (metrics_of t).

(** Every character of [s] passes the test [p]. *)
Fixpoint all_chars (p : ascii -> bool) (s : string) : bool :=
  match s with
  | EmptyString => true
  | String c s' => p c && all_chars p s'
  end.

Definition is_digit (c : ascii) : bool :=
  let n := nat_of_ascii c in (48 <=? n)%nat && (n <=? 57)%nat.

(** The metric call counts an attempt at harvesting a kubeconfig. *)
Definition is_kubeconfig_metric (m : metric_call) : Prop :=
  match m with
  | record_kubeconfig_generated _ _ _ => True
  | _ => False
  end.

(** A write of the status [st] that returned. *)
Definition status_write_returned (st : ClusterStatus) (e : entry) : Prop :=
  match e with
  | ECall (patch_namespaced_custom_object_status _ _ _ _ _ body) (Returns _) => body = st
  | _ => False
  end.

(** A step of a tick other than a status write that returned and the
    update of the cluster metrics that follows it. *)
Definition monitor_quiet (e : entry) : Prop :=
  match e with
  | EOut (Metric m) => is_kubeconfig_metric m
  | ECall (patch_namespaced_custom_object_status _ _ _ _ _ _) (Returns _) => False
  | _ => True
  end.

(** What a tick of the monitor for [applied] looks like: quiet steps, then
    possibly a status write for some counters [c] that returned, the log
    line of the gateway and the update of the cluster metrics from the same
    status. *)
Definition monitor_trace_shape (now name namespace : string)
    (applied : list (string * string)) (t : list entry) : Prop :=
  Forall monitor_quiet t
  \/ exists t1 c,
       Forall monitor_quiet t1
       /\ counters_ok applied c
       /\ t = (t1 ++
               [ECall (patch_namespaced_custom_object_status
                         "nico.homystack.com" "v1alpha1" namespace "kubernetesclusters"
                         name (monitor_status now name c)) (Returns tt);
                EOut (Log DEBUG ("Updated cluster status: " +:+ name));
                EOut (Metric (update_cluster_metrics namespace name
                                (monitor_status now name c)))])%list.

(** The metric calls that record the outcome of a reconcile. *)
Definition is_outcome_metric (m : metric_call) : bool :=
  match m with
  | record_reconcile_success _ _ | record_reconcile_error _ _ _ => true
  | _ => false
  end.

Definition outcome_metric_of (e : entry) : option metric_call :=
  match e with
  | EOut (Metric m) => if is_outcome_metric m then Some m else None
  | _ => None
  end.

Definition outcome_metrics (t : list entry) : list metric_call := omap outcome_metric_of t.

Definition no_outcome (e : entry) : Prop := outcome_metric_of e = None.

(** The [error_type] label under which a reconcile that raises [e] is
    counted. *)
Definition error_type (e : exn) (ty : string) : Prop :=
  match e with
  | PermanentError _ => ty = "permanent"
  | TemporaryError msg _ =>
      (msg = "No available control plane machines found" /\ ty = "temporary")
      \/ (exists e', env_exn e'
                     /\ msg = "Cluster reconciliation failed: " +:+ str_exn e'
                     /\ ty = "unknown")
  | _ => False
  end.

(** What a reconcile of [body] emits as outcome metrics, by its result. *)
Definition reconcile_outcome (body : ClusterBody) (name namespace : string)
    (t : list entry) (res : outcome unit) : Prop :=
  match res with
  | Returns _ =>
      outcome_metrics t
      = if truthy_opt truthy_str (deletionTimestamp body) then []
        else [record_reconcile_success namespace name]
  | Raises e =>
      exists ty, error_type e ty
                 /\ outcome_metrics t = [record_reconcile_error namespace name ty]
  end.

(** What a selection for [role] leaves in the metric calls of its trace:
    nothing, with nothing selected, when the count is 0; or the number
    selected, possibly after the duration of the selection. *)
Definition selection_metrics (namespace name role : string) (count : Z)
    (sel : list string) (ms : list metric_call) : Prop :=
  (ms = [] /\ sel = [] /\ count = 0%Z)
  \/ ms = [record_machines_selected namespace name role (length sel)]
  \/ ms = [machine_selection_duration namespace name role;
           record_machines_selected namespace name role (length sel)].

(* ===================================================================== *)
(** * Properties                                                          *)
(* ===================================================================== *)

(** ** Executions *)

Section Executions.
Context (srv : server).

Lemma run_bind {A B} (m : prog A) (f : A -> prog B) h :
    run srv h (bind m f) =
    match run srv h m with
    | (t1, Returns a) =>
        let '(t2, res) := run srv (h ++ t1) (f a) in ((t1 ++ t2)%list, res)
    | (t1, Raises e) => (t1, Raises e)
    end.
Proof.
    revert h. induction m as [a|e|o k IH|r k IH]; intros h; simpl.
    - rewrite app_nil_r. by destruct (run srv h (f a)).
    - done.
    - rewrite IH. destruct (run srv (h ++ [EOut o]) k) as [t1 [a|e]]; [|done].
      rewrite <- app_assoc. simpl. by destruct (run srv _ (f a)).
    - rewrite IH.
      destruct (run srv (h ++ [ECall r (srv h r)]) (k (srv h r))) as [t1 [a|e]]; [|done].
      rewrite <- app_assoc. simpl. by destruct (run srv _ (f a)).
Qed.

Lemma run_try_except {A} (m : prog A) (hd : exn -> prog A) h :
    run srv h (try_except m hd) =
    match run srv h m with
    | (t1, Returns a) => (t1, Returns a)
    | (t1, Raises e) =>
        let '(t2, res) := run srv (h ++ t1) (hd e) in ((t1 ++ t2)%list, res)
    end.
Proof.
    revert h. induction m as [a|e|o k IH|r k IH]; intros h; simpl.
    - done.
    - rewrite app_nil_r. by destruct (run srv h (hd e)).
    - rewrite IH. destruct (run srv (h ++ [EOut o]) k) as [t1 [a|e]]; [done|].
      rewrite <- app_assoc. simpl. by destruct (run srv _ (hd e)).
    - rewrite IH.
      destruct (run srv (h ++ [ECall r (srv h r)]) (k (srv h r))) as [t1 [a|e]]; [done|].
      rewrite <- app_assoc. simpl. by destruct (run srv _ (hd e)).
Qed.

Lemma run_call r h :
    run srv h (call r) =
    ([ECall r (srv h r)],
     match srv h r with Returns a => Returns a | Raises e => Raises e end).
Proof. unfold call. simpl. by destruct (srv h r). Qed.

Lemma run_log lvl msg h : run srv h (log lvl msg) = ([EOut (Log lvl msg)], Returns tt).
Proof. done. Qed.

Lemma run_metric m h : run srv h (metric m) = ([EOut (Metric m)], Returns tt).
Proof. done. Qed.
End Executions.

Section CallsSatisfy.
Context (P : request -> Prop).

Lemma cs_bind {A B} (m : prog A) (f : A -> prog B) :
    calls_satisfy P m -> (forall a, calls_satisfy P (f a)) -> calls_satisfy P (bind m f).
Proof.
    intros Hm Hf. induction Hm; simpl; auto; constructor; auto.
Qed.

Lemma cs_try_except {A} (m : prog A) (hd : exn -> prog A) :
    calls_satisfy P m -> (forall e, calls_satisfy P (hd e)) ->
    calls_satisfy P (try_except m hd).
Proof.
    intros Hm Hh. induction Hm; simpl; auto; constructor; auto.
Qed.

Lemma cs_call r : P r -> calls_satisfy P (call r).
Proof. intros Hr. constructor; [done|]. intros [a|e]; constructor. Qed.

Lemma cs_log lvl msg : calls_satisfy P (log lvl msg).
Proof. repeat constructor. Qed.

Lemma cs_metric m : calls_satisfy P (metric m).
Proof. repeat constructor. Qed.

Lemma cs_when c m : (c = true -> calls_satisfy P m) -> calls_satisfy P (when c m).
Proof. destruct c; simpl; auto. constructor. Qed.

Lemma cs_for_each {S X} (l : list X) (s : S) (body : S -> X -> prog S) :
    (forall s x, calls_satisfy P (body s x)) -> calls_satisfy P (for_each l s body).
Proof.
    intros Hb. revert s. induction l as [|x l IH]; intros s; simpl.
    - constructor.
    - apply cs_bind; auto.
Qed.

Lemma cs_run {A} (p : prog A) srv h :
    calls_satisfy P p -> Forall (entry_satisfies P) (trace srv h p).
Proof.
    unfold trace. intros Hp. revert h.
    induction Hp as [a|e|o k Hk IH|r k Hr Hk IH]; intros h; simpl.
    - constructor.
    - constructor.
    - specialize (IH (h ++ [EOut o])). destruct (run srv _ k). simpl in *.
      constructor; [exact I | done].
    - specialize (IH (srv h r) (h ++ [ECall r (srv h r)])).
      destruct (run srv _ (k (srv h r))). simpl in *. constructor; done.
Qed.

Lemma cs_weaken {A} (Q : request -> Prop) (p : prog A) :
    (forall r, P r -> Q r) -> calls_satisfy P p -> calls_satisfy Q p.
Proof. intros HPQ Hp. induction Hp; constructor; auto. Qed.
End CallsSatisfy.

(** Solves [calls_satisfy] goals by following the structure of the program;
    what is left are the side conditions on the calls themselves. *)
Ltac cs_step :=
  lazymatch goal with
  | |- calls_satisfy _ (bind _ _) => apply cs_bind; [|intros]
  | |- calls_satisfy _ (try_except _ _) => apply cs_try_except; [|intros]
  | |- calls_satisfy _ (for_each _ _ _) => apply cs_for_each; intros
  | |- calls_satisfy _ (when _ _) => apply cs_when; intros
  | |- calls_satisfy ?P (call ?r) => refine (cs_call P r _)
  | |- calls_satisfy _ (log _ _) => apply cs_log
  | |- calls_satisfy _ (metric _) => apply cs_metric
  | |- calls_satisfy _ (Ret _) => constructor
  | |- calls_satisfy _ (Raise _) => constructor
  | |- calls_satisfy _ (let _ := _ in _) => cbv zeta
  | |- calls_satisfy _ (if ?c then _ else _) => destruct c eqn:?
  | |- calls_satisfy _ (match ?c with _ => _ end) => destruct c eqn:?
  end.
(** ** The order of [sort] *)

Lemma str_le_cases a b : str_le a b <-> a = b \/ String_as_OT.lt a b.
Proof.
  unfold str_le, String.leb.
  destruct (String.compare a b) eqn:Hc.
  - apply String_as_OT.cmp_eq in Hc. tauto.
  - apply String_as_OT.cmp_lt in Hc. tauto.
  - split; [discriminate|]. intros [->|Hlt].
    + assert (String_as_OT.cmp b b = Eq) as Hb by (by apply String_as_OT.cmp_eq).
      unfold String_as_OT.cmp in Hb. congruence.
    + apply String_as_OT.cmp_lt in Hlt. unfold String_as_OT.cmp in Hlt. congruence.
Qed.

#[global] Instance str_le_trans : Transitive str_le.
Proof.
  intros a b c Hab Hbc. apply str_le_cases in Hab, Hbc. apply str_le_cases.
  destruct Hab as [->|Hab], Hbc as [->|Hbc]; eauto using String_as_OT.lt_trans.
Qed.

#[global] Instance str_le_antisym : AntiSymm (=) str_le.
Proof. intros a b. apply String.leb_antisym. Qed.

#[global] Instance str_le_total : Total str_le.
Proof. intros a b. apply String.leb_total. Qed.

Lemma insert_sorted_Permutation x l : insert_sorted x l ≡ₚ x :: l.
Proof.
  induction l as [|y l IH]; simpl; [done|].
  destruct (String.leb x y); [done|]. rewrite IH. apply Permutation_swap.
Qed.

Lemma sort_Permutation l : sort l ≡ₚ l.
Proof.
  induction l as [|x l IH]; simpl; [done|].
  by rewrite insert_sorted_Permutation, IH.
Qed.

Lemma insert_sorted_HdRel a x l :
  str_le a x -> HdRel str_le a l -> HdRel str_le a (insert_sorted x l).
Proof.
  intros Hax Hl. destruct l as [|y l]; simpl; [by constructor|].
  destruct (String.leb x y); constructor; [done|]. by inversion Hl.
Qed.

Lemma insert_sorted_Sorted x l : Sorted str_le l -> Sorted str_le (insert_sorted x l).
Proof.
  induction 1 as [|y l Hl IH Hhd]; simpl.
  - repeat constructor.
  - destruct (String.leb x y) eqn:Hxy.
    + repeat constructor; done.
    + constructor; [done|]. apply insert_sorted_HdRel; [|done].
      destruct (total str_le x y) as [Hle|Hle]; [|done].
      unfold str_le in Hle. congruence.
Qed.

Lemma sort_Sorted l : Sorted str_le (sort l).
Proof.
  induction l; simpl; [constructor|]. by apply insert_sorted_Sorted.
Qed.

(** [list.sort()] gives the one sorted arrangement of the list. *)
Lemma sort_unique l l' : Sorted str_le l' -> l' ≡ₚ l -> sort l = l'.
Proof.
  intros Hs Hp. apply (Sorted_unique str_le); [apply sort_Sorted | done |].
  by rewrite sort_Permutation.
Qed.

(** ** Phase derivation *)

(** C3.  For non-negative counters the phase computed by the monitor is
    [Ready] exactly when [cp_ready = cp_total > 0] and the workers are all
    ready or there is none, [ControlPlaneReady] exactly when
    [cp_ready = cp_total > 0] and the cluster is not [Ready], and
    [Provisioning] exactly in the remaining case. *)
Theorem phase_derivation (cp_ready cp_total dp_ready dp_total : Z) :
  (0 <= cp_ready)%Z -> (0 <= cp_total)%Z -> (0 <= dp_ready)%Z -> (0 <= dp_total)%Z ->
  let cp_done := cp_ready = cp_total /\ (cp_total > 0)%Z in
  let ready := cp_done /\ (dp_total = 0%Z \/ dp_ready = dp_total) in
  let phase := cluster_phase cp_ready cp_total dp_ready dp_total in
  (phase = "Ready" <-> ready) /\
  (phase = "ControlPlaneReady" <-> cp_done /\ ~ ready) /\
  (phase = "Provisioning" <-> ~ cp_done).
Proof.
  intros Hcr Hct Hdr Hdt. unfold cluster_phase, all_control_plane_ready, all_workers_ready.
  destruct (Z.eqb_spec cp_ready cp_total), (Z.eqb_spec dp_ready dp_total),
    (Z.eqb_spec dp_total 0), (Z.gtb_spec cp_ready 0), (Z.gtb_spec dp_total 0);
    simpl; repeat split; intros; try discriminate; try lia; intuition (try lia).
Qed.

Lemma phase_derivation_witness :
  cluster_phase 2 2 0 1 = "ControlPlaneReady".
Proof.
  apply (phase_derivation 2 2 0 1); lia.
Defined.

(** Scenario S5: the monitor reports 2/2, 0/1 and [ControlPlaneReady]. *)
Example monitor_reports_control_plane_ready :
  (fun st => (phase st, controlPlaneReady st, dataPlaneReady st))
    <$> omap status_written
          (trace (world_server world_s5) []
             (monitor_cluster_status "2024-01-01T00:00:00Z" body_s5 "demo" "default"))
  = [(Some "ControlPlaneReady", Some "2/2", Some "0/1")].
Proof. vm_compute. reflexivity. Qed.

(** ** Machine selection *)

Lemma truthy_list_true {A} (l : list A) : truthy_list l = true <-> l <> [].
Proof. destruct l; simpl; split; congruence. Qed.

Lemma truthy_status_selected st key :
  status_get_selected st key <> [] -> truthy_status st = true.
Proof.
  unfold status_get_selected. destruct st as [? ? ? ? ? scp sdp ?]; simpl.
  repeat case_bool_decide; destruct scp, sdp; simpl; try done;
    repeat match goal with |- context [match ?x with _ => _ end] => destruct x end; done.
Qed.

Lemma run_record_selected srv h cluster_name namespace role n :
  Forall (fun e => is_call e = false)
    (run srv h (when (truthy_str cluster_name)
                  (metric (record_machines_selected namespace cluster_name role n)))).1
  /\ (run srv h (when (truthy_str cluster_name)
                  (metric (record_machines_selected namespace cluster_name role n)))).2
     = Returns tt.
Proof. destruct (truthy_str cluster_name); simpl; repeat constructor. Qed.

Lemma select_explicit srv h spec ns role cluster_name st L :
  role = "controlPlane" \/ role = "dataPlane" ->
  explicit_machines spec role = L -> L <> [] ->
  result srv h (select_machines_for_cluster spec ns role cluster_name st) = Returns L
  /\ Forall (fun e => is_call e = false)
       (trace srv h (select_machines_for_cluster spec ns role cluster_name st)).
Proof.
  intros Hrole HL Hne. unfold result, trace, select_machines_for_cluster.
  assert (machines (spec_get_role spec role) = Some L) as Hm.
  { unfold explicit_machines, spec_get_role in *.
    destruct Hrole as [-> | ->]; simpl in *;
      [destruct (controlPlane spec) as [rs|] | destruct (dataPlane spec) as [rs|]];
      simpl in *; try congruence; destruct (machines rs); simpl in *; congruence. }
  rewrite Hm. simpl. apply truthy_list_true in Hne. rewrite Hne.
  rewrite run_bind.
  destruct (run_record_selected srv h cluster_name ns role (length L)) as [Ht Hr].
  destruct (run srv h (when _ _)) as [t1 r1]. simpl in *. subst r1. simpl.
  rewrite app_nil_r. done.
Qed.

Lemma select_persisted srv h spec ns role cluster_name st S :
  role = "controlPlane" \/ role = "dataPlane" ->
  explicit_machines spec role = [] ->
  persisted_selection st role = S -> S <> [] ->
  result srv h (select_machines_for_cluster spec ns role cluster_name st) = Returns S
  /\ Forall (fun e => is_call e = false)
       (trace srv h (select_machines_for_cluster spec ns role cluster_name st)).
Proof.
  intros Hrole Hex HS Hne. unfold result, trace, select_machines_for_cluster.
  assert (truthy_opt truthy_list (machines (spec_get_role spec role)) = false) as ->.
  { unfold explicit_machines, spec_get_role in *.
    destruct Hrole as [-> | ->]; simpl in *;
      [destruct (controlPlane spec) as [rs|] | destruct (dataPlane spec) as [rs|]];
      simpl in *; try done; destruct (machines rs); simpl in *; by subst. }
  destruct st as [st|]; [|by subst S].
  assert (exists key, status_key role = Some key /\ status_get_selected st key = S)
    as (key & -> & Hkey).
  { unfold persisted_selection, status_key, status_get_selected in *.
    destruct Hrole as [-> | ->]; simpl in *; eauto. }
  rewrite (truthy_status_selected st key) by congruence.
  rewrite Hkey. apply truthy_list_true in Hne. rewrite Hne.
  rewrite run_bind, run_log. rewrite run_bind.
  destruct (run_record_selected srv (h ++ [EOut (Log INFO ("Reusing previously selected "
      +:+ role +:+ " machines: " +:+ log_list S))]) cluster_name ns role (length S))
    as [Ht Hr].
  destruct (run srv _ (when _ _)) as [t1 r1]. simpl in *. subst r1. simpl.
  rewrite app_nil_r. split; [done|]. constructor; done.
Qed.

(** C1.  The selector obeys strict precedence.  A non-empty
    [spec.<role>.machines] is returned as it is, whatever the selector
    block, the count, the status and the answers of the API server, and no
    call is made at all.  Otherwise a non-empty
    [status.selected<Role>Machines] is returned as it is, again without any
    call; so the control-plane selection a reconcile wrote to the status
    (first machine included) is what the next reconcile selects. *)
Theorem select_precedence srv h spec ns role cluster_name st :
  role = "controlPlane" \/ role = "dataPlane" ->
  let sel := select_machines_for_cluster spec ns role cluster_name st in
  (explicit_machines spec role <> [] ->
   result srv h sel = Returns (explicit_machines spec role)
   /\ Forall (fun e => is_call e = false) (trace srv h sel))
  /\ (explicit_machines spec role = [] -> persisted_selection st role <> [] ->
      result srv h sel = Returns (persisted_selection st role)
      /\ Forall (fun e => is_call e = false) (trace srv h sel))
  /\ (forall now name cp dp applied,
        explicit_machines spec "controlPlane" = [] -> cp <> [] ->
        result srv h
          (select_machines_for_cluster spec ns "controlPlane" cluster_name
             (Some (provisioning_status now name cp dp applied)))
        = Returns cp).
Proof.
  intros Hrole sel. split; [|split].
  - intros Hne. by apply select_explicit.
  - intros Hex Hne. by apply select_persisted.
  - intros now name cp dp applied Hex Hne.
    by apply select_persisted; auto.
Qed.

(** Scenario S2: the persisted [cp-b] is selected although the pool now
    holds only [cp-a]. *)
Lemma select_precedence_witness :
  result (world_server world_s2) []
    (select_machines_for_cluster
       (example_spec (Some (example_role [("r", "cp")] 1)) None)
       "default" "controlPlane" "demo" (Some status_s2))
  = Returns ["cp-b"].
Proof.
  destruct (select_precedence (world_server world_s2) []
              (example_spec (Some (example_role [("r", "cp")] 1)) None)
              "default" "controlPlane" "demo" (Some status_s2)
              (or_introl eq_refl)) as (_ & Hpersisted & _).
  destruct Hpersisted as [Hres _]; [reflexivity | discriminate | exact Hres].
Defined.

(** ** Fresh selection *)

Lemma selector_matches_spec sel m :
  selector_matches sel m = true <->
  map_Forall (fun key value => default ∅ (machine_labels m) !! key = Some value)
             (default ∅ (matchLabels sel)).
Proof.
  unfold selector_matches. rewrite map_Forall_to_list, forallb_forall, Forall_forall.
  split; intros H [k v] Hin; specialize (H (k, v)); simpl in *.
  - apply list_elem_of_In in Hin. apply H in Hin. by apply bool_decide_eq_true in Hin.
  - apply list_elem_of_In in Hin. apply bool_decide_eq_true. by apply H.
Qed.

Lemma machine_available_spec m :
  machine_available m = true <-> hasConfiguration m = Some false.
Proof.
  unfold machine_available. destruct (hasConfiguration m) as [[]|]; simpl; split; congruence.
Qed.

Lemma filter_machines_spec sel pool :
  filter_machines sel pool
  = machine_name <$> filter (eligible (default ∅ (matchLabels sel))) pool.
Proof.
  induction pool as [|m pool IH]; simpl; [done|].
  rewrite filter_cons.
  destruct (decide (eligible (default ∅ (matchLabels sel)) m)) as [[Hl Ha]|Hn].
  - apply selector_matches_spec in Hl. apply machine_available_spec in Ha.
    rewrite Hl, Ha. simpl. by rewrite IH.
  - destruct (selector_matches sel m) eqn:Hl; simpl; [|done].
    destruct (machine_available m) eqn:Ha; simpl; [|done].
    exfalso. apply Hn. split.
    + by apply selector_matches_spec.
    + by apply machine_available_spec.
Qed.

Lemma slice_to_nat {A} (l : list A) (n : nat) : slice_to l (Z.of_nat n) = take n l.
Proof.
  unfold slice_to. destruct (Z.leb_spec 0 (Z.of_nat n)); [|lia].
  by rewrite Nat2Z.id.
Qed.

Lemma sort_merge_sort l : sort l = merge_sort str_le l.
Proof.
  apply sort_unique.
  - apply (Sorted_merge_sort str_le).
  - apply merge_sort_Permutation.
Qed.

Lemma spec_fresh_selection_perm ml n pool pool' :
  pool' ≡ₚ pool -> spec_fresh_selection ml n pool' = spec_fresh_selection ml n pool.
Proof.
  intros Hp. unfold spec_fresh_selection. f_equal.
  apply (Sorted_unique str_le); try apply (Sorted_merge_sort str_le).
  rewrite !merge_sort_Permutation. by rewrite Hp.
Qed.

(** C2.  With no explicit list and no persisted selection, the selector
    returns the first [count] names, in ascending order, of the machines
    listed for the namespace whose labels contain every pair of
    [matchLabels] and whose [hasConfiguration] is present and false; for
    [count = 0] it returns the empty list; and the result is the function
    [spec_fresh_selection] of the labels, the count and the pool alone, the
    same for every order in which the pool is listed. *)
Theorem select_fresh_machines srv h spec ns role cluster_name st (n : nat) :
  role = "controlPlane" \/ role = "dataPlane" ->
  explicit_machines spec role = [] ->
  persisted_selection st role = [] ->
  selector_count spec role = Z.of_nat n ->
  let sel := select_machines_for_cluster spec ns role cluster_name st in
  let match_labels := selector_labels spec role in
  let pool := listed_machines srv h ns in
  result srv h sel = Returns (spec_fresh_selection match_labels n pool)
  /\ (n = 0%nat -> result srv h sel = Returns [])
  /\ (forall pool', pool' ≡ₚ pool ->
        spec_fresh_selection match_labels n pool'
        = spec_fresh_selection match_labels n pool).
Proof.
  intros Hrole Hex Hper Hcount sel match_labels pool.
  assert (result srv h sel = Returns (spec_fresh_selection match_labels n pool)) as Hres.
  { subst sel match_labels pool.
    unfold result, select_machines_for_cluster.
    assert (truthy_opt truthy_list (machines (spec_get_role spec role)) = false) as ->.
    { unfold explicit_machines, spec_get_role in *.
      destruct Hrole as [-> | ->]; simpl in *;
        [destruct (controlPlane spec) as [rs|] | destruct (dataPlane spec) as [rs|]];
        simpl in *; try done; destruct (machines rs); simpl in *; by subst. }
    assert (default 0%Z (count (spec_get_role spec role)) = Z.of_nat n) as ->.
    { rewrite <- Hcount. unfold selector_count, spec_get_role.
      destruct Hrole as [-> | ->]; simpl;
        [destruct (controlPlane spec) | destruct (dataPlane spec)]; done. }
    assert (default ∅ (matchLabels (default {| matchLabels := None |}
                                      (machineSelector (spec_get_role spec role))))
            = selector_labels spec role) as Hml.
    { unfold selector_labels, spec_get_role.
      destruct Hrole as [-> | ->]; simpl;
        [destruct (controlPlane spec) as [rs|] | destruct (dataPlane spec) as [rs|]];
        simpl; try done; destruct (machineSelector rs); done. }
    set (fresh := if (Z.of_nat n =? 0)%Z then _ else _).
    assert ((run srv h fresh).2
            = Returns (spec_fresh_selection (selector_labels spec role) n
                         (listed_machines srv h ns))) as Hfresh.
    { subst fresh. destruct (Z.eqb_spec (Z.of_nat n) 0) as [Hz|Hz].
      - assert (n = 0%nat) as -> by lia. done.
      - unfold list_machines, call, listed_machines. simpl.
        destruct (srv h (list_namespaced_custom_object _ _ ns "machines"))
          as [items|e]; simpl.
        + rewrite slice_to_nat, sort_merge_sort, filter_machines_spec, Hml.
          unfold spec_fresh_selection. by destruct (truthy_str cluster_name).
        + rewrite slice_to_nat. unfold spec_fresh_selection.
          by destruct (truthy_str cluster_name), n. }
    destruct st as [st|]; [|done].
    destruct (status_key role) as [key|] eqn:Hkey; [|done].
    destruct (truthy_status st); [|done].
    assert (status_get_selected st key = []) as ->; [|done].
    unfold persisted_selection, status_key, status_get_selected in *.
    destruct Hrole as [-> | ->]; simpl in *; by simplify_eq. }
  split; [done|]. split.
  - intros ->. by rewrite Hres.
  - intros pool'. apply spec_fresh_selection_perm.
Qed.

(** Scenario S1: of [w3], [w1] (free) and [w2] (claimed), a count of one
    selects [w1]. *)
Lemma select_fresh_machines_witness :
  result (world_server world_s1) []
    (select_machines_for_cluster
       (example_spec None (Some (example_role [("r", "w")] 1)))
       "default" "dataPlane" "demo" None)
  = Returns ["w1"].
Proof.
  destruct (select_fresh_machines (world_server world_s1) []
              (example_spec None (Some (example_role [("r", "w")] 1)))
              "default" "dataPlane" "demo" None 1
              (or_intror eq_refl) eq_refl eq_refl eq_refl) as (Hres & _ & _).
  rewrite Hres. vm_compute. reflexivity.
Defined.

(** ** The calls of each handler *)

Lemma deletion_calls name namespace body :
  calls_satisfy (deletion_call name namespace)
    (handle_cluster_deletion name namespace body).
Proof.
  unfold handle_cluster_deletion, delete_nixos_configuration, delete_secret.
  repeat cs_step; constructor.
Qed.

Lemma select_calls spec name namespace uid role st :
  calls_satisfy (reconcile_call spec name namespace uid)
    (select_machines_for_cluster spec namespace role name st).
Proof.
  unfold select_machines_for_cluster, list_machines.
  repeat cs_step; constructor.
Qed.

Lemma join_token_calls spec name namespace uid :
  calls_satisfy (reconcile_call spec name namespace uid)
    (create_join_token_secret name namespace).
Proof.
  unfold create_join_token_secret, create_secret.
  repeat cs_step; constructor.
Qed.

Lemma ensure_configuration_calls spec name namespace uid machine_name role
    join_token_secret cp workers machines_info applied :
  uid <> "" ->
  calls_satisfy (reconcile_call spec name namespace uid)
    (ensure_configuration name uid machine_name role spec namespace join_token_secret
       cp workers machines_info applied).
Proof.
  intros Huid.
  unfold ensure_configuration, get_nixos_configuration, patch_nixos_configuration_spec,
    create_nixos_configuration_for_machine, create_nixos_configuration_with_owner,
    get_machine.
  repeat cs_step; try (by constructor).
  constructor. by apply truthy_list_true.
Qed.

Lemma reconcile_calls now body spec name namespace :
  calls_satisfy (reconcile_call spec name namespace (default "" (uid body)))
    (reconcile_kubernetes_cluster now body spec name namespace).
Proof.
  unfold reconcile_kubernetes_cluster, reconcile_body.
  cs_step; [cs_step|]. cs_step; [|repeat cs_step].
  destruct (truthy_opt truthy_str (deletionTimestamp body)).
  { eapply cs_weaken; [|apply deletion_calls]. intros r Hr. by constructor. }
  destruct (uid body) as [u|] eqn:Hu; cbn [truthy_opt negb default]; [|constructor].
  destruct (truthy_str u) eqn:Htu; cbn [negb]; [|constructor].
  assert (u <> "") as Hne by (by destruct u).
  cs_step; [apply select_calls|]. cs_step; [apply select_calls|].
  cs_step; [constructor|].
  cs_step; [apply join_token_calls|].
  cs_step. { unfold get_machine. repeat cs_step; constructor. }
  cs_step. { cs_step. by apply ensure_configuration_calls. }
  cs_step. { cs_step. by apply ensure_configuration_calls. }
  unfold update_cluster_status. repeat cs_step; constructor.
Qed.

Lemma try_kubeconfig_paths_calls name namespace ssh_base first_cp paths :
  calls_satisfy (monitor_call name namespace)
    (try_kubeconfig_paths ssh_base first_cp paths).
Proof.
  induction paths as [|path rest IH]; [constructor|].
  cbn [try_kubeconfig_paths].
  cs_step; [repeat cs_step; constructor|].
  destruct a; [constructor | done].
Qed.

Lemma extract_kubeconfig_calls name namespace nodes :
  calls_satisfy (monitor_call name namespace)
    (extract_kubeconfig_from_control_plane nodes namespace).
Proof.
  unfold extract_kubeconfig_from_control_plane, get_machine, get_secret_data.
  destruct nodes as [|first_cp ?]; [constructor|].
  cs_step; [|repeat cs_step].
  cs_step; [cs_step; constructor|].
  cs_step; [repeat cs_step|].
  cs_step. { repeat cs_step; constructor. }
  cs_step; [apply try_kubeconfig_paths_calls|].
  repeat cs_step; constructor.
Qed.

Lemma aggregate_calls name namespace applied :
  calls_satisfy (monitor_call name namespace) (aggregate namespace applied).
Proof.
  unfold aggregate, check_machine, get_nixos_configuration, get_machine.
  repeat cs_step; constructor.
Qed.

Lemma ensure_kubeconfig_secret_calls name namespace c :
  calls_satisfy (monitor_call name namespace) (ensure_kubeconfig_secret name namespace c).
Proof.
  unfold ensure_kubeconfig_secret, create_secret.
  cs_step. cs_step; [|repeat cs_step]. cs_step; [repeat cs_step; constructor|].
  destruct e; try (repeat cs_step; fail).
  cs_step; [|constructor].
  cs_step; [apply extract_kubeconfig_calls|].
  repeat cs_step; constructor.
Qed.

Lemma monitor_calls now body name namespace :
  calls_satisfy (monitor_call name namespace)
    (monitor_cluster_status now body name namespace).
Proof.
  unfold monitor_cluster_status, update_cluster_status.
  cs_step; [cs_step|]. cs_step; [|repeat cs_step].
  cbv zeta. cs_step; [constructor|].
  cs_step; [apply aggregate_calls|].
  cs_step; [apply ensure_kubeconfig_secret_calls|].
  repeat cs_step; constructor.
Qed.

(** ** API targets *)

(** C5, the claim as stated fails: the first call of a reconcile lists the
    Machines under the group [nio.homystack.com]. *)
Lemma machines_listed_under_nio_group :
  forallb (entry_check targets_nico_group)
    (trace (world_server world_fresh) []
       (reconcile_kubernetes_cluster "2024-01-01T00:00:00Z" body_fresh spec_fresh
          "demo" "default")) = false
  /\ hd_error
       (filter (fun e => is_call e = true)
          (trace (world_server world_fresh) []
             (reconcile_kubernetes_cluster "2024-01-01T00:00:00Z" body_fresh spec_fresh
                "demo" "default")))
     = Some (ECall (list_namespaced_custom_object
                      "nio.homystack.com" "v1alpha1" "default" "machines")
                   (Returns (w_machines world_fresh))).
Proof. split; vm_compute; reflexivity. Qed.

Lemma reconcile_call_target spec name namespace uid r :
  reconcile_call spec name namespace uid r -> core_target r.
Proof. intros [| | | | | | | |? []]; simpl; auto. Qed.

Lemma monitor_call_target name namespace r : monitor_call name namespace r -> core_target r.
Proof. intros []; simpl; auto. Qed.

(** C5, amended.  In every execution of the reconciler (deletion included)
    and of the monitor, every custom-resource call is at version
    [v1alpha1]; the status patch targets [kubernetesclusters] in group
    [nico.homystack.com]; get and list of Machines target [machines], and
    get, create, patch and delete of NixosConfigurations target
    [nixosconfigurations], both in group [nio.homystack.com]. *)
Theorem core_targets srv h now body spec name namespace :
  Forall (entry_satisfies core_target)
    (trace srv h (reconcile_kubernetes_cluster now body spec name namespace))
  /\ Forall (entry_satisfies core_target)
       (trace srv h (monitor_cluster_status now body name namespace)).
Proof.
  split; apply cs_run.
  - eapply cs_weaken; [|apply reconcile_calls]. apply reconcile_call_target.
  - eapply cs_weaken; [|apply monitor_calls]. apply monitor_call_target.
Qed.

(** ** Owner references *)

Lemma reconcile_call_owned spec name namespace body r :
  reconcile_call spec name namespace (default "" (uid body)) r ->
  child_owned name body r.
Proof.
  intros [| | |child Hown Hne| | | | |? []]; simpl; auto.
  destruct (uid body) as [u|]; simpl in *; [|done].
  exists u. by rewrite Hown.
Qed.

(** C9.  In every execution of the reconciler, every create call for a
    NixosConfiguration carries exactly one owner reference, with
    [controller] and [blockOwnerDeletion] true, whose name is the cluster's
    name and whose uid is the (present, non-empty) uid of the cluster; the
    monitor creates no child. *)
Theorem children_are_owned srv h now body spec name namespace :
  Forall (entry_satisfies (child_owned name body))
    (trace srv h (reconcile_kubernetes_cluster now body spec name namespace))
  /\ Forall (entry_satisfies creates_no_child)
       (trace srv h (monitor_cluster_status now body name namespace)).
Proof.
  split; apply cs_run.
  - eapply cs_weaken; [|apply reconcile_calls]. apply reconcile_call_owned.
  - eapply cs_weaken; [|apply monitor_calls]. by intros r [].
Qed.

(** The reconciler does create children: on a fresh cluster with one free
    control-plane machine it creates [demo-cp-01], owned by the cluster. *)
Example reconcile_creates_owned_child :
  omap (fun e =>
          match e with
          | ECall (create_namespaced_custom_object _ _ _ _ child) _ =>
              Some (body_name child, ownerReferences child)
          | _ => None
          end)
    (trace (world_server world_fresh) []
       (reconcile_kubernetes_cluster "2024-01-01T00:00:00Z" body_fresh spec_fresh
          "demo" "default"))
  = [("demo-cp-01", Some [cluster_owner "demo" "uid-1234"])].
Proof. vm_compute. reflexivity. Qed.

(** ** Phases written *)

Lemma cluster_phase_values a b c d :
  cluster_phase a b c d ∈ ["Provisioning"; "ControlPlaneReady"; "Ready"].
Proof.
  unfold cluster_phase.
  destruct (all_control_plane_ready a b), (all_workers_ready c d); simpl;
    repeat constructor.
Qed.

(** C10.  In every execution, the reconciler writes no phase but
    [Provisioning], the monitor writes only [Provisioning],
    [ControlPlaneReady] or [Ready], and the deletion path makes no status
    write; [Deleting] and [Failed] are therefore never written. *)
Theorem phases_written srv h now body spec name namespace :
  Forall (entry_satisfies (writes_phase_in ["Provisioning"]))
    (trace srv h (reconcile_kubernetes_cluster now body spec name namespace))
  /\ Forall (entry_satisfies
               (writes_phase_in ["Provisioning"; "ControlPlaneReady"; "Ready"]))
       (trace srv h (monitor_cluster_status now body name namespace))
  /\ Forall (entry_satisfies writes_no_status)
       (trace srv h (handle_cluster_deletion name namespace body))
  /\ ("Deleting" ∉ ["Provisioning"; "ControlPlaneReady"; "Ready"])
  /\ ("Failed" ∉ ["Provisioning"; "ControlPlaneReady"; "Ready"]).
Proof.
  split; [|split; [|split]].
  - apply cs_run. eapply cs_weaken; [|apply reconcile_calls].
    intros r [| | | | | | | |? []]; intros p Hp; simpl in Hp; try done.
    simplify_eq. eexists; split; [done|]. by constructor.
  - apply cs_run. eapply cs_weaken; [|apply monitor_calls].
    intros r []; intros p Hp; simpl in Hp; try done.
    simplify_eq. eexists; split; [done|]. apply cluster_phase_values.
  - apply cs_run. eapply cs_weaken; [|apply deletion_calls]. by intros r [].
  - split; intros H; repeat (apply elem_of_cons in H as [H|H]; [done|]);
      by apply elem_of_nil in H.
Qed.

(** ** Failures in the gateway *)

(** C8, the claim as stated fails: when the listing of Machines fails, be
    it with a server error or with NotFound, [list_machines] returns the
    empty list to its caller. *)
Lemma list_machines_swallows_failure :
  result (failing_server (ApiException 500 "(500) Reason: Internal Server Error")) []
    (list_machines "default") = Returns []
  /\ result (failing_server not_found) [] (list_machines "default") = Returns [].
Proof. split; reflexivity. Qed.

Lemma str_append_assoc (a b c : string) : (a +:+ b) +:+ c = a +:+ b +:+ c.
Proof.
  induction a as [|x a IH]; [done|].
  change (String x ((a +:+ b) +:+ c) = String x (a +:+ b +:+ c)). by rewrite IH.
Qed.

(** C8, amended.  When the call behind a gateway operation other than
    [list_machines] raises, NotFound included, the operation makes no other
    call, logs one ERROR line that names what failed and carries the text
    of the exception ([get_machine] alone has no handler and logs nothing),
    and raises to its caller the very exception the call raised: it is not
    wrapped and never turned into a value.  When the listing behind
    [list_machines] raises, NotFound included, the failure is logged and
    turned into the empty list. *)
Theorem gateway_failures srv h e :
  (forall A (op : prog A) r line,
      gateway_wraps op r line -> srv h r = Raises e ->
      result srv h op = Raises e
      /\ trace srv h op = failure_trace r e line)
  /\ (forall namespace,
        srv h (list_namespaced_custom_object
                 "nio.homystack.com" "v1alpha1" namespace "machines") = Raises e ->
        result srv h (list_machines namespace) = Returns []
        /\ trace srv h (list_machines namespace)
           = [ECall (list_namespaced_custom_object
                       "nio.homystack.com" "v1alpha1" namespace "machines") (Raises e);
              EOut (Log ERROR ("Failed to list machines: " +:+ str_exn e))]).
Proof.
  split.
  - intros A op r line Hop Hr. unfold result, trace, failure_trace.
    destruct Hop;
      unfold get_secret_data, get_machine, create_secret, delete_secret,
        create_nixos_configuration, create_nixos_configuration_with_owner,
        delete_nixos_configuration, get_nixos_configuration,
        patch_nixos_configuration_spec, update_cluster_status, cluster_owner in *;
      cbn [run try_except bind call log emit fst snd]; rewrite Hr;
      cbn [run try_except bind call log emit fst snd];
      rewrite ?str_append_assoc; done.
  - intros namespace Hr. unfold result, trace, list_machines. cbn. rewrite Hr. done.
Qed.

(** Every call fails with NotFound: the read of a child logs and raises
    NotFound, the listing logs and returns the empty list. *)
Lemma gateway_failures_witness :
  (result (failing_server not_found) [] (get_nixos_configuration "demo-cp-01" "default")
   = Raises not_found
   /\ trace (failing_server not_found) [] (get_nixos_configuration "demo-cp-01" "default")
      = [ECall (get_namespaced_custom_object "nio.homystack.com" "v1alpha1" "default"
                  "nixosconfigurations" "demo-cp-01") (Raises not_found);
         EOut (Log ERROR
                 "Failed to get NixosConfiguration demo-cp-01: (404) Reason: Not Found")])
  /\ result (failing_server not_found) [] (list_machines "default") = Returns [].
Proof.
  destruct (gateway_failures (failing_server not_found) [] not_found) as [Hop Hlist].
  split.
  - apply (Hop _ _ _ _ (gw_get_config "demo-cp-01" "default")). reflexivity.
  - apply Hlist. reflexivity.
Defined.

(** ** Failures in the readiness aggregation *)

(** C7, the claim as stated fails: the child of [cp-01] is fetched and is a
    control-plane child, the fetch of the Machine fails, and the machine
    is counted in no total: the tick reports 0/0 for the control plane. *)
Lemma failed_fetch_not_in_total :
  run (world_server world_machine_gone) []
    (aggregate "default" [("cp-01", "demo-cp-01")])
  = ([ECall (get_namespaced_custom_object
               "nio.homystack.com" "v1alpha1" "default" "nixosconfigurations"
               "demo-cp-01")
            (Returns (example_config "control-plane" (Some "abc")));
      ECall (get_namespaced_custom_object
               "nio.homystack.com" "v1alpha1" "default" "machines" "cp-01")
            (Raises not_found);
      EOut (Log WARNING "Failed to check status for cp-01: (404) Reason: Not Found")],
     Returns zero_counters)
  /\ total_control_plane zero_counters = 0%Z.
Proof. split; vm_compute; reflexivity. Qed.

Lemma check_machine_cases srv h namespace c machine_name config_name :
  let r_config := get_namespaced_custom_object
                    "nio.homystack.com" "v1alpha1" namespace "nixosconfigurations"
                    config_name in
  let r_machine := get_namespaced_custom_object
                     "nio.homystack.com" "v1alpha1" namespace "machines" machine_name in
  (exists e msg1 msg2,
      run srv h (check_machine namespace c (machine_name, config_name))
      = ([ECall r_config (Raises e); EOut (Log ERROR msg1); EOut (Log WARNING msg2)],
         Returns c))
  \/ (exists config e msg,
        run srv h (check_machine namespace c (machine_name, config_name))
        = ([ECall r_config (Returns config); ECall r_machine (Raises e);
            EOut (Log WARNING msg)],
           Returns c))
  \/ (exists config machine,
        run srv h (check_machine namespace c (machine_name, config_name))
        = ([ECall r_config (Returns config); ECall r_machine (Returns machine)],
           Returns (count_machine c machine_name config machine))).
Proof.
  intros r_config r_machine. subst r_config r_machine.
  unfold check_machine, get_nixos_configuration, get_machine.
  cbn [run try_except bind call log emit fst snd].
  destruct (srv h (get_namespaced_custom_object _ _ _ "nixosconfigurations" _))
    as [config|e]; cbn [run try_except bind call log emit fst snd].
  - destruct (srv _ (get_namespaced_custom_object _ _ _ "machines" _))
      as [machine|e]; cbn [run try_except bind call log emit fst snd].
    + right. right. by eexists _, _.
    + right. left. by eexists _, _, _.
  - left. by eexists _, _, _.
Qed.

Lemma check_machine_returns srv h namespace c item :
  exists c', result srv h (check_machine namespace c item) = Returns c'.
Proof.
  destruct item as [machine_name config_name]. unfold result.
  destruct (check_machine_cases srv h namespace c machine_name config_name)
    as [(? & ? & ? & ->)|[(? & ? & ? & ->)|(? & ? & ->)]]; eauto.
Qed.

Lemma aggregate_returns srv h namespace applied c :
  exists c', result srv h (for_each applied c (check_machine namespace)) = Returns c'.
Proof.
  revert h c. induction applied as [|item applied IH]; intros h c; [by eexists|].
  unfold result. cbn [for_each]. rewrite run_bind.
  destruct (check_machine_returns srv h namespace c item) as [c1 H1].
  unfold result in H1. destruct (run srv h (check_machine _ _ _)) as [t1 r1].
  simpl in H1. subst r1.
  destruct (IH (h ++ t1) c1) as [c2 H2]. unfold result in H2.
  destruct (run srv (h ++ t1) (for_each _ _ _)) as [t2 r2]. simpl in *. eauto.
Qed.

(** C7, amended.  If a call of one iteration of the aggregation raises (the
    fetch of the child or of the Machine), the iteration logs a warning and
    ends normally with the counters unchanged: the machine adds to neither
    a ready count nor a total.  No iteration raises, and the aggregation
    always returns its counters. *)
Theorem failed_fetch_is_skipped srv h namespace c item :
  (Exists call_raised (trace srv h (check_machine namespace c item)) ->
   result srv h (check_machine namespace c item) = Returns c
   /\ Exists is_warning (trace srv h (check_machine namespace c item)))
  /\ (exists c', result srv h (check_machine namespace c item) = Returns c')
  /\ (forall applied,
        exists c', result srv h (aggregate namespace applied) = Returns c').
Proof.
  split; [|split].
  - destruct item as [machine_name config_name]. unfold result, trace.
    destruct (check_machine_cases srv h namespace c machine_name config_name)
      as [(? & ? & ? & ->)|[(? & ? & ? & ->)|(? & ? & ->)]]; simpl; intros Hex.
    + split; [done|].
      repeat first [apply Exists_cons_hd; exact I | apply Exists_cons_tl].
    + split; [done|].
      repeat first [apply Exists_cons_hd; exact I | apply Exists_cons_tl].
    + exfalso. repeat (apply Exists_cons in Hex as [Hex|Hex]; [done|]).
      by apply Exists_nil in Hex.
  - apply check_machine_returns.
  - intros applied. apply aggregate_returns.
Qed.

Lemma failed_fetch_is_skipped_witness :
  result (world_server world_machine_gone) []
    (check_machine "default" zero_counters ("cp-01", "demo-cp-01"))
  = Returns zero_counters.
Proof.
  destruct (failed_fetch_is_skipped (world_server world_machine_gone) [] "default"
              zero_counters ("cp-01", "demo-cp-01")) as [Hskip _].
  apply Hskip. vm_compute. right. left. exact I.
Defined.

(** ** Drift repair *)

Lemma spec_updates_entries spec existing :
  spec_updates spec existing =
    (if bool_decide (cfg_gitRepo existing ≠ Some (gitRepo spec))
     then [("gitRepo", PStr (gitRepo spec))] else [])
    ++ (if bool_decide (ref spec ≠ cfg_ref existing)
        then [("ref", patch_str (ref spec))] else [])
    ++ (if bool_decide (default "" (configurationSubdir spec)
                        ≠ default "" (cfg_configurationSubdir existing))
        then [("configurationSubdir", PStr (default "" (configurationSubdir spec)))]
        else [])
    ++ (if bool_decide (credentialsRef spec ≠ cfg_credentialsRef existing)
        then [("credentialsRef", patch_dict (credentialsRef spec))] else []).
Proof.
  unfold spec_updates. repeat case_bool_decide; reflexivity.
Qed.

Lemma fmap_PStr_inj (a b : option string) : PStr <$> a = PStr <$> b <-> a = b.
Proof. destruct a, b; simpl; split; congruence. Qed.
Lemma fmap_PDict_inj (a b : option (gmap string string)) :
  PDict <$> a = PDict <$> b <-> a = b.
Proof. destruct a, b; simpl; split; congruence. Qed.

Lemma differs_gitRepo spec existing :
  differs spec existing "gitRepo" <-> cfg_gitRepo existing ≠ Some (gitRepo spec).
Proof.
  unfold differs, parent_field, child_field, configurable_fields. simpl.
  split.
  - intros [_ H] Heq. apply H. by rewrite Heq.
  - intros H. split; [repeat constructor|]. intros Heq. apply H.
    destruct (cfg_gitRepo existing); simpl in *; congruence.
Qed.

Lemma differs_ref spec existing :
  differs spec existing "ref" <-> ref spec ≠ cfg_ref existing.
Proof.
  unfold differs, parent_field, child_field, configurable_fields. simpl.
  rewrite fmap_PStr_inj. split; [tauto|]. intros H; split; [|done].
  repeat constructor.
Qed.

Lemma differs_subdir spec existing :
  differs spec existing "configurationSubdir" <->
  default "" (configurationSubdir spec) ≠ default "" (cfg_configurationSubdir existing).
Proof.
  unfold differs, parent_field, child_field, configurable_fields. simpl.
  split.
  - intros [_ H] Heq. apply H. by rewrite Heq.
  - intros H. split; [repeat constructor|]. congruence.
Qed.

Lemma differs_creds spec existing :
  differs spec existing "credentialsRef" <-> credentialsRef spec ≠ cfg_credentialsRef existing.
Proof.
  unfold differs, parent_field, child_field, configurable_fields. simpl.
  rewrite fmap_PDict_inj. split; [tauto|]. intros H; split; [|done].
  repeat constructor.
Qed.

Lemma differs_configurable spec existing field :
  differs spec existing field ->
  field = "gitRepo" \/ field = "ref" \/ field = "configurationSubdir"
  \/ field = "credentialsRef".
Proof.
  intros [Hin _]. unfold configurable_fields in Hin.
  repeat (apply elem_of_cons in Hin as [->|Hin]; [tauto|]).
  by apply elem_of_nil in Hin.
Qed.

Lemma spec_updates_keys spec existing field :
  field ∈ (spec_updates spec existing).*1 <-> differs spec existing field.
Proof.
  rewrite spec_updates_entries. split.
  - intros Hin. rewrite !fmap_app, !elem_of_app in Hin.
    destruct Hin as [Hin|[Hin|[Hin|Hin]]]; case_bool_decide as Hd; simpl in Hin;
      try (by apply elem_of_nil in Hin);
      apply list_elem_of_singleton in Hin as ->.
    + by apply differs_gitRepo.
    + by apply differs_ref.
    + by apply differs_subdir.
    + by apply differs_creds.
  - intros Hd. rewrite !fmap_app, !elem_of_app.
    destruct (differs_configurable _ _ _ Hd) as [-> | [-> | [-> | ->]]].
    + apply differs_gitRepo in Hd. left. rewrite bool_decide_eq_true_2 by done.
      simpl. by constructor.
    + apply differs_ref in Hd. right. left. rewrite bool_decide_eq_true_2 by done.
      simpl. by constructor.
    + apply differs_subdir in Hd. right. right. left.
      rewrite bool_decide_eq_true_2 by done. simpl. by constructor.
    + apply differs_creds in Hd. right. right. right.
      rewrite bool_decide_eq_true_2 by done. simpl. by constructor.
Qed.

Lemma spec_updates_NoDup spec existing : NoDup (spec_updates spec existing).*1.
Proof.
  rewrite spec_updates_entries.
  repeat case_bool_decide; simpl;
    repeat (constructor; [rewrite ?elem_of_cons, elem_of_nil; intuition discriminate|]);
    constructor.
Qed.

Lemma spec_updates_values spec existing field v :
  (field, v) ∈ spec_updates spec existing ->
  v = default PNull (parent_field spec field).
Proof.
  rewrite spec_updates_entries, !elem_of_app.
  intros [Hin|[Hin|[Hin|Hin]]]; case_bool_decide; simpl in Hin;
    try (by apply elem_of_nil in Hin);
    apply list_elem_of_singleton in Hin; simplify_eq; unfold parent_field; simpl;
    try done.
  - by destruct (ref spec).
  - by destruct (credentialsRef spec).
Qed.

Lemma patches_none t : Forall (entry_satisfies no_patch) t -> patches t = [].
Proof.
  induction 1 as [|e t He Ht IH]; [done|]. unfold patches in *.
  destruct e as [r resp|o]; [destruct r|]; simpl in *; done.
Qed.

Lemma create_for_machine_no_patch name uid machine_name role spec namespace token
    cp workers info :
  calls_satisfy no_patch
    (create_nixos_configuration_for_machine name uid machine_name role spec namespace
       token cp workers info).
Proof.
  unfold create_nixos_configuration_for_machine, create_nixos_configuration_with_owner,
    get_machine.
  repeat cs_step; exact I.
Qed.

Lemma run_log_keys srv h config_name (keys : list string) :
  exists t,
    run srv h (for_each keys tt
                 (fun _ key => log INFO ("Detected " +:+ key +:+ " change for "
                                          +:+ config_name)))
    = (t, Returns tt) /\ patches t = [].
Proof.
  revert h. induction keys as [|key keys IH]; intros h; [by exists []|].
  cbn [for_each]. rewrite run_bind, run_log.
  destruct (IH (h ++ [EOut (Log INFO ("Detected " +:+ key +:+ " change for "
                                       +:+ config_name))])) as (t & -> & Ht).
  eexists. split; [done|]. done.
Qed.

Lemma patches_try_except {A} srv h (m : prog A) hd :
  (forall e, calls_satisfy no_patch (hd e)) ->
  patches (trace srv h (try_except m hd)) = patches (trace srv h m).
Proof.
  intros Hhd. unfold trace. rewrite run_try_except.
  destruct (run srv h m) as [t1 [a|e]]; [done|].
  pose proof (cs_run no_patch (hd e) srv (h ++ t1) (Hhd e)) as Hno.
  unfold trace in Hno. destruct (run srv (h ++ t1) (hd e)) as [t2 r2]. simpl in *.
  unfold patches in *. rewrite omap_app. apply patches_none in Hno.
  unfold patches in Hno. rewrite Hno. by rewrite app_nil_r.
Qed.

Lemma ensure_configuration_patches (srv : server) h name uid machine_name role spec namespace token
    cp workers info applied (existing : NixosConfiguration) :
  srv h (get_namespaced_custom_object "nio.homystack.com" "v1alpha1" namespace
           "nixosconfigurations" (name +:+ "-" +:+ machine_name)) = Returns existing ->
  patches (trace srv h
             (ensure_configuration name uid machine_name role spec namespace token
                cp workers info applied))
  = match spec_updates spec (config_spec existing) with
    | [] => []
    | updates => [(name +:+ "-" +:+ machine_name, {| patch_spec := updates |},
                   "application/merge-patch+json")]
    end.
Proof.
  intros Hget. unfold ensure_configuration. cbv zeta.
  rewrite patches_try_except;
    [|intros e; repeat cs_step; try apply create_for_machine_no_patch].
  unfold trace. rewrite run_bind.
  unfold get_nixos_configuration at 1. cbn [run try_except call]. rewrite Hget.
  cbn [run try_except call].
  rewrite run_bind, run_log. rewrite run_bind.
  match goal with |- context [run srv ?h' (for_each _ tt _)] =>
    destruct (run_log_keys srv h' (name +:+ "-" +:+ machine_name)
                (map fst (spec_updates spec (config_spec existing)))) as (tl & Hl & Hpl)
  end.
  rewrite Hl. rewrite run_bind.
  destruct (spec_updates spec (config_spec existing)) as [|u us] eqn:Hu.
  - cbn [truthy_list when run fst snd app].
    unfold patches in *. simpl. by rewrite omap_app, Hpl.
  - cbn [truthy_list when].
    unfold patch_nixos_configuration_spec.
    rewrite run_bind, run_try_except, run_bind, run_call.
    match goal with |- context [srv ?h' (patch_namespaced_custom_object ?a ?b ?c ?d ?e ?f ?g)] =>
      destruct (srv h' (patch_namespaced_custom_object a b c d e f g)) as [[]|e']
    end; cbn [run bind log emit fst snd app];
      unfold patches in *; simpl; rewrite ?omap_app, ?Hpl; simpl; done.
Qed.

(** C4, the claim as stated fails on [configurationSubdir].  When the
    parent no longer sets it and the child has ["sub"], the patch carries
    the default [""], not JSON null; and when the child has [""] (as every
    child created by the reconciler has), nothing is patched although the
    key is present in the child and absent from the parent. *)
Lemma subdir_is_patched_with_default :
  configurationSubdir (example_spec None None) = None
  /\ spec_updates (example_spec None None)
       {| cfg_gitRepo := Some "https://git.example/infra.git"; cfg_flake := None;
          cfg_onRemoveFlake := None; cfg_configurationSubdir := Some "sub";
          cfg_machineRef := None; cfg_fullInstall := None; cfg_additionalFiles := None;
          cfg_ref := None; cfg_credentialsRef := None |}
     = [("configurationSubdir", PStr "")]
  /\ spec_updates (example_spec None None)
       {| cfg_gitRepo := Some "https://git.example/infra.git"; cfg_flake := None;
          cfg_onRemoveFlake := None; cfg_configurationSubdir := Some "";
          cfg_machineRef := None; cfg_fullInstall := None; cfg_additionalFiles := None;
          cfg_ref := None; cfg_credentialsRef := None |}
     = [].
Proof. repeat split; vm_compute; reflexivity. Qed.

(** C4, amended.  For an existing child, with [configurationSubdir] read
    with its default [""] on both sides, the keys of [spec_updates] are
    exactly the fields among [gitRepo], [ref], [configurationSubdir] and
    [credentialsRef] on which parent and child differ, each once; the value
    is the parent's, which is JSON null for a [ref] or [credentialsRef] the
    parent does not set and the default [""] for a [configurationSubdir]
    it does not set; no write-once field is among the keys.  When the fetch
    of the child succeeds, the reconciler sends this set as one merge patch
    if it is not empty and sends no patch if it is; in every execution the
    reconciler sends no other patch, and the monitor sends none. *)
Theorem drift_repair_scope (srv : server) h now body spec name uid machine_name role
    namespace token cp workers info applied (existing : NixosConfiguration) :
  let updates := spec_updates spec (config_spec existing) in
  let config_name := name +:+ "-" +:+ machine_name in
  (forall field, field ∈ updates.*1 <-> differs spec (config_spec existing) field)
  /\ NoDup updates.*1
  /\ (forall field v, (field, v) ∈ updates -> v = default PNull (parent_field spec field))
  /\ (forall field, field ∈ write_once_fields -> field ∉ updates.*1)
  /\ (srv h (get_namespaced_custom_object "nio.homystack.com" "v1alpha1" namespace
               "nixosconfigurations" config_name) = Returns existing ->
      patches (trace srv h
                 (ensure_configuration name uid machine_name role spec namespace token
                    cp workers info applied))
      = match updates with
        | [] => []
        | _ => [(config_name, {| patch_spec := updates |},
                 "application/merge-patch+json")]
        end)
  /\ Forall (entry_satisfies (patches_drift_only spec))
       (trace srv h (reconcile_kubernetes_cluster now body spec name namespace))
  /\ Forall (entry_satisfies no_patch)
       (trace srv h (monitor_cluster_status now body name namespace)).
Proof.
  intros updates config_name. subst updates config_name.
  split; [apply spec_updates_keys|]. split; [apply spec_updates_NoDup|].
  split; [apply spec_updates_values|]. split; [|split; [|split]].
  - intros field Hw Hin. apply spec_updates_keys, differs_configurable in Hin.
    unfold write_once_fields in Hw.
    repeat (apply elem_of_cons in Hw as [->|Hw]; [intuition discriminate|]).
    by apply elem_of_nil in Hw.
  - intros Hget.
    rewrite (ensure_configuration_patches srv h name uid machine_name role spec namespace
               token cp workers info applied existing Hget).
    by destruct (spec_updates spec (config_spec existing)).
  - apply cs_run. eapply cs_weaken; [|apply reconcile_calls].
    intros r [| | | |config existing_spec Hne| | | |? []]; simpl; eauto.
  - apply cs_run. eapply cs_weaken; [|apply monitor_calls]. by intros r [].
Qed.

(** Scenario S3: the child has [ref = "v1"], the parent sets no [ref]; the
    one patch sent is [{"spec": {"ref": null}}]. *)
Lemma drift_repair_scope_witness :
  patches (trace (world_server world_s3) []
             (ensure_configuration "demo" "uid-1234" "cp-01" "control-plane"
                (example_spec None None) "default" "demo-join-token" ["cp-01"] [] [] []))
  = [("demo-cp-01", {| patch_spec := [("ref", PNull)] |}, "application/merge-patch+json")].
Proof.
  destruct (drift_repair_scope (world_server world_s3) [] "2024-01-01T00:00:00Z"
              body_s3 (example_spec None None) "demo" "uid-1234" "cp-01"
              "control-plane" "default" "demo-join-token" ["cp-01"] [] [] [] config_s3)
    as (_ & _ & _ & _ & Hpatch & _).
  rewrite Hpatch by reflexivity. vm_compute. reflexivity.
Defined.

(** The same through a whole reconcile of the cluster. *)
Example reconcile_repairs_drift :
  patches (trace (world_server world_s3) []
             (reconcile_kubernetes_cluster "2024-01-01T00:00:00Z" body_s3
                (example_spec None None) "demo" "default"))
  = [("demo-cp-01", {| patch_spec := [("ref", PNull)] |}, "application/merge-patch+json")].
Proof. vm_compute. reflexivity. Qed.

(** ** Kubeconfig precondition *)

Lemma append_inv_head (p a b : string) : p +:+ a = p +:+ b -> a = b.
Proof. induction p as [|c p IH]; simpl; [done|]. intros [= H]. auto. Qed.

Lemma join_token_is_not_kubeconfig name : name +:+ "-join-token" <> name +:+ "-kubeconfig".
Proof. intros H. apply append_inv_head in H. discriminate. Qed.

Lemma ready_node_mono applied applied' t t' :
  applied ⊆ applied' -> t ⊆ t' ->
  ready_control_plane_node applied t -> ready_control_plane_node applied' t'.
Proof.
  intros Ha Ht (m & cn & cfg & mach & commit & Hin & Hc & Hm & Hrest).
  exists m, cn, cfg, mach, commit. split; [by apply Ha|].
  split; [|split; [|done]].
  - apply list_elem_of_omap in Hc as (e & He & Hs). apply list_elem_of_omap. eauto.
  - apply list_elem_of_omap in Hm as (e & He & Hs). apply list_elem_of_omap. eauto.
Qed.

Lemma count_machine_ready c machine_name config machine :
  control_plane_ready (count_machine c machine_name config machine)
  = control_plane_ready c
  \/ (control_plane_ready (count_machine c machine_name config machine)
      = (control_plane_ready c + 1)%Z
      /\ default ∅ (config_labels config) !! "nico.homystack.com/role"
         = Some "control-plane"
      /\ (exists commit, appliedCommit config = Some commit /\ commit <> "")
      /\ hasConfiguration machine = Some true).
Proof.
  unfold count_machine.
  destruct (appliedCommit config) as [commit|] eqn:Hcommit; simpl;
    [|case_bool_decide; auto].
  destruct (truthy_str commit) eqn:Htc; simpl; [|case_bool_decide; auto].
  destruct (hasConfiguration machine) as [[]|] eqn:Hhc; simpl;
    try (case_bool_decide; auto; fail).
  case_bool_decide as Hrole; simpl; [|auto].
  right. split; [done|]. split.
  - destruct (default ∅ (config_labels config) !! "nico.homystack.com/role"); simpl in *;
      congruence.
  - split; [|done]. exists commit. split; [done|]. by destruct commit.
Qed.

Lemma check_machine_ready (srv : server) h namespace c machine_name config_name :
  exists t c',
    run srv h (check_machine namespace c (machine_name, config_name)) = (t, Returns c')
    /\ Forall (entry_satisfies no_secret_create) t
    /\ (control_plane_ready c' = control_plane_ready c
        \/ (control_plane_ready c' = (control_plane_ready c + 1)%Z
            /\ ready_control_plane_node [(machine_name, config_name)] t)).
Proof.
  destruct (check_machine_cases srv h namespace c machine_name config_name)
    as [(e & m1 & m2 & ->)|[(cfg & e & m & ->)|(cfg & mach & ->)]].
  - eexists _, _. split; [done|]. split; [repeat constructor|]. by left.
  - eexists _, _. split; [done|]. split; [repeat constructor|]. by left.
  - eexists _, _. split; [done|]. split; [repeat constructor|].
    destruct (count_machine_ready c machine_name cfg mach)
      as [Heq|(Heq & Hrole & (commit & Hcommit & Hne) & Hhc)]; [by left|].
    right. split; [done|].
    exists machine_name, config_name, cfg, mach, commit.
    split; [by constructor|]. split; [by constructor|].
    split; [by constructor|]. done.
Qed.

Lemma aggregate_ready (srv : server) namespace applied : forall h c,
  exists t c',
    run srv h (for_each applied c (check_machine namespace)) = (t, Returns c')
    /\ Forall (entry_satisfies no_secret_create) t
    /\ (control_plane_ready c <= control_plane_ready c')%Z
    /\ ((control_plane_ready c < control_plane_ready c')%Z ->
        ready_control_plane_node applied t).
Proof.
  induction applied as [|[machine_name config_name] applied IH]; intros h c.
  - exists [], c. split; [done|]. split; [constructor|]. split; [lia|lia].
  - cbn [for_each]. rewrite run_bind.
    destruct (check_machine_ready srv h namespace c machine_name config_name)
      as (t1 & c1 & -> & Hno1 & Hstep).
    destruct (IH (h ++ t1) c1) as (t2 & c2 & -> & Hno2 & Hle & Hev).
    exists (t1 ++ t2), c2. split; [done|]. split; [by apply Forall_app|].
    split; [lia|]. intros Hlt.
    destruct Hstep as [Heq|[Heq Hnode]].
    + eapply ready_node_mono; [| |apply Hev; lia].
      * intros x Hx. by apply elem_of_cons; right.
      * intros x Hx. by apply elem_of_app; right.
    + eapply ready_node_mono; [| |apply Hnode].
      * intros x Hx. apply list_elem_of_singleton in Hx as ->. by apply elem_of_cons; left.
      * intros x Hx. by apply elem_of_app; left.
Qed.

Lemma no_secret_create_not_kubeconfig name t :
  Forall (entry_satisfies no_secret_create) t ->
  ~ Exists (creates_kubeconfig_secret name) t.
Proof.
  intros Hall Hex. apply Exists_exists in Hex as (e & Hin & He).
  rewrite Forall_forall in Hall. specialize (Hall e Hin). destruct e as [r resp|o]; [|done]. by destruct r.
Qed.

Lemma ensure_kubeconfig_secret_run (srv : server) h name namespace c :
  exists t,
    run srv h (ensure_kubeconfig_secret name namespace c) = (t, Returns tt)
    /\ (all_control_plane_ready (control_plane_ready c) (total_control_plane c) = false ->
        t = []).
Proof.
  unfold ensure_kubeconfig_secret. cbv zeta.
  destruct (all_control_plane_ready _ _); cbn [when]; [|by exists []].
  rewrite run_try_except.
  match goal with |- context [run srv h ?p] => destruct (run srv h p) as [t1 [[]|e]] end.
  - by exists t1.
  - cbn. eexists. split; [done|]. done.
Qed.

Lemma prefix_before {A} (P : A -> Prop) (a rest t1 t2 : list A) (e : A) :
  a ++ rest = t1 ++ e :: t2 -> Forall (fun x => ~ P x) a -> P e ->
  exists t1', t1 = a ++ t1'.
Proof.
  revert t1. induction a as [|x a IH]; intros t1 Heq Ha He; [by exists t1|].
  apply Forall_cons in Ha as [Hx Ha].
  destruct t1 as [|y t1]; simpl in Heq.
  - injection Heq as -> _. done.
  - injection Heq as -> Heq. destruct (IH t1 Heq Ha He) as [t1' ->]. by exists t1'.
Qed.

(** A tick, cut after the aggregation: if the tick creates the Secret at
    all, the aggregation has seen a ready control-plane node. *)
Lemma monitor_creates_secret_when_ready (srv : server) h now body name namespace :
  exists t_agg t_rest,
    trace srv h (monitor_cluster_status now body name namespace)
    = EOut (Log DEBUG ("Monitoring cluster status: " +:+ name)) :: t_agg ++ t_rest
    /\ Forall (entry_satisfies no_secret_create) t_agg
    /\ (Exists (creates_kubeconfig_secret name)
          (trace srv h (monitor_cluster_status now body name namespace)) ->
        ready_control_plane_node
          (default [] (default empty_status (status body)).(appliedMachines)) t_agg).
Proof.
  unfold trace, monitor_cluster_status. cbv zeta.
  rewrite run_bind, run_log, run_try_except.
  set (applied := default [] (appliedMachines (default empty_status (status body)))).
  destruct (truthy_list applied) eqn:Happ; cbn [negb]; cycle 1.
  { exists [], []. cbn. split; [done|]. split; [constructor|].
    intros Hex. apply Exists_cons in Hex as [[]|Hex]. by apply Exists_nil in Hex. }
  unfold aggregate. rewrite run_bind.
  destruct (aggregate_ready srv namespace applied
              (h ++ [EOut (Log DEBUG ("Monitoring cluster status: " +:+ name))])
              zero_counters) as (t_agg & c & -> & Hno & Hle & Hev).
  rewrite run_bind.
  destruct (ensure_kubeconfig_secret_run srv
              ((h ++ [EOut (Log DEBUG ("Monitoring cluster status: " +:+ name))]) ++ t_agg)
              name namespace c) as (t_ens & -> & Hens).
  set (rest := bind (update_cluster_status _ _ _) _).
  assert (forall h', Forall (entry_satisfies no_secret_create) (run srv h' rest).1) as Hrest.
  { intros h'. apply cs_run. subst rest. unfold update_cluster_status.
    repeat cs_step; exact I. }
  match goal with |- context [run srv ?h' rest] =>
    specialize (Hrest h'); destruct (run srv h' rest) as [t_rest r_rest] end.
  simpl in Hrest.
  assert (Exists (creates_kubeconfig_secret name) t_ens ->
          ready_control_plane_node applied t_agg) as Hmain.
  { intros Hex.
    destruct (all_control_plane_ready (control_plane_ready c) (total_control_plane c))
      eqn:Hall.
    - apply Hev. unfold all_control_plane_ready in Hall.
      apply andb_true_iff in Hall as [_ Hpos]. apply Z.gtb_lt in Hpos. simpl. lia.
    - rewrite (Hens eq_refl) in Hex. by apply Exists_nil in Hex. }
  exists t_agg.
  destruct r_rest as [[]|e]; cbn; rewrite <- ?app_assoc;
    (eexists; split; [reflexivity|]; split; [exact Hno|]);
    intros Hex; apply Hmain;
    apply Exists_cons in Hex as [[]|Hex];
    rewrite ?Exists_app in Hex;
    repeat match goal with
           | H : _ \/ _ |- _ => destruct H
           | H : Exists _ (_ :: _) |- _ => apply Exists_cons in H as [[]|H]
           | H : Exists _ [] |- _ => by apply Exists_nil in H
           | H : Exists _ t_agg |- _ => by apply no_secret_create_not_kubeconfig in H
           | H : Exists _ t_rest |- _ => by apply no_secret_create_not_kubeconfig in H
           end; done.
Qed.

(** The status names the Secret from the first reconcile on: the first
    reconcile of a fresh cluster writes [kubeconfigSecret =
    "demo-kubeconfig"] although no child existed before it and the only
    Machine reports [hasConfiguration = false].  The name is the promise of
    a Secret that may not exist yet. *)
Example kubeconfig_secret_named_before_ready :
  let t := trace (world_server world_fresh) []
             (reconcile_kubernetes_cluster "2024-01-01T00:00:00Z" body_fresh spec_fresh
                "demo" "default") in
  kubeconfigSecret <$> omap status_written t = [Some "demo-kubeconfig"]
  /\ omap config_seen t = []
  /\ (hasConfiguration ∘ snd) <$> omap machine_seen t = [Some false; Some false].
Proof. vm_compute. done. Qed.

(** C6.  The Secret [<cluster>-kubeconfig] is populated only after a
    control-plane node is ready, and never before: the reconciler never
    creates it, and whenever a tick of the monitor creates it, the tick has
    before that call fetched, for one of the applied machines, a child
    labelled [control-plane] with a non-empty [appliedCommit] and a Machine
    that reports [hasConfiguration = true].  The status field
    [kubeconfigSecret] only names the Secret: every status write of the
    reconciler and of the monitor sets it to [<cluster>-kubeconfig]. *)
Theorem kubeconfig_precondition (srv : server) h now body spec name namespace :
  Forall (entry_satisfies (names_kubeconfig_secret name))
    (trace srv h (reconcile_kubernetes_cluster now body spec name namespace))
  /\ Forall (entry_satisfies (names_kubeconfig_secret name))
       (trace srv h (monitor_cluster_status now body name namespace))
  /\ Forall (entry_satisfies (no_kubeconfig_secret name))
       (trace srv h (reconcile_kubernetes_cluster now body spec name namespace))
  /\ (forall t1 e t2,
        trace srv h (monitor_cluster_status now body name namespace) = t1 ++ e :: t2 ->
        creates_kubeconfig_secret name e ->
        ready_control_plane_node
          (default [] (appliedMachines (default empty_status (status body)))) t1).
Proof.
  split; [|split; [|split]].
  - apply cs_run. eapply cs_weaken; [|apply reconcile_calls].
    by intros r [| | | | | | | |? []].
  - apply cs_run. eapply cs_weaken; [|apply monitor_calls]. by intros r [].
  - apply cs_run. eapply cs_weaken; [|apply reconcile_calls].
    intros r [| | | | | | | |? []]; simpl; auto using join_token_is_not_kubeconfig.
  - intros t1 e t2 Heq He.
    destruct (monitor_creates_secret_when_ready srv h now body name namespace)
      as (t_agg & t_rest & Ht & Hno & Hready).
    assert (Exists (creates_kubeconfig_secret name)
              (trace srv h (monitor_cluster_status now body name namespace))) as Hex.
    { rewrite Heq. apply Exists_app. right. by apply Exists_cons_hd. }
    specialize (Hready Hex). rewrite Ht in Heq.
    destruct (prefix_before (creates_kubeconfig_secret name)
                (EOut (Log DEBUG ("Monitoring cluster status: " +:+ name)) :: t_agg)
                t_rest t1 t2 e Heq) as [t1' ->]; [|done|].
    + constructor; [by intros []|].
      eapply Forall_impl; [exact Hno|]. intros [r resp|o] Hr Hc; [|done]. by destruct r.
    + eapply ready_node_mono; [done| |exact Hready].
      intros x Hx. apply elem_of_app. left. by apply elem_of_cons; right.
Qed.

(** A tick that creates the Secret: [cp-01] is applied, and was seen ready
    before the Secret is created. *)
Lemma kubeconfig_precondition_witness :
  exists t1 e t2,
    trace (world_server world_ready) []
      (monitor_cluster_status "2024-01-01T00:00:00Z" body_ready "demo" "default")
    = t1 ++ e :: t2
    /\ creates_kubeconfig_secret "demo" e
    /\ ready_control_plane_node [("cp-01", "demo-cp-01")] t1.
Proof.
  destruct (kubeconfig_precondition (world_server world_ready) []
              "2024-01-01T00:00:00Z" body_ready spec_fresh "demo" "default")
    as (_ & _ & _ & Hpre).
  eexists (take 8 (trace (world_server world_ready) []
      (monitor_cluster_status "2024-01-01T00:00:00Z" body_ready "demo" "default"))),
    _, _.
  split; [vm_compute; reflexivity|]. split; [reflexivity|].
  eapply Hpre; [vm_compute; reflexivity|reflexivity].
Defined.

(** ** Specifications of programs *)

Lemma trace_bind {A B} srv h (m : prog A) (f : A -> prog B) :
  trace srv h (bind m f)
  = trace srv h m
    ++ match result srv h m with
       | Returns a => trace srv (h ++ trace srv h m) (f a)
       | Raises _ => []
       end.
Proof.
  unfold trace, result. rewrite run_bind.
  destruct (run srv h m) as [t1 [a|e]]; simpl; [|by rewrite app_nil_r].
  by destruct (run srv (h ++ t1) (f a)).
Qed.

Lemma result_bind {A B} srv h (m : prog A) (f : A -> prog B) :
  result srv h (bind m f)
  = match result srv h m with
    | Returns a => result srv (h ++ trace srv h m) (f a)
    | Raises e => Raises e
    end.
Proof.
  unfold trace, result. rewrite run_bind.
  destruct (run srv h m) as [t1 [a|e]]; simpl; [|done].
  by destruct (run srv (h ++ t1) (f a)).
Qed.

Lemma trace_try_except {A} srv h (m : prog A) hd :
  trace srv h (try_except m hd)
  = trace srv h m
    ++ match result srv h m with
       | Returns _ => []
       | Raises e => trace srv (h ++ trace srv h m) (hd e)
       end.
Proof.
  unfold trace, result. rewrite run_try_except.
  destruct (run srv h m) as [t1 [a|e]]; simpl; [by rewrite app_nil_r|].
  by destruct (run srv (h ++ t1) (hd e)).
Qed.

Lemma result_try_except {A} srv h (m : prog A) hd :
  result srv h (try_except m hd)
  = match result srv h m with
    | Returns a => Returns a
    | Raises e => result srv (h ++ trace srv h m) (hd e)
    end.
Proof.
  unfold trace, result. rewrite run_try_except.
  destruct (run srv h m) as [t1 [a|e]]; simpl; [done|].
  by destruct (run srv (h ++ t1) (hd e)).
Qed.

Lemma trace_call srv h r : trace srv h (call r) = [ECall r (srv h r)].
Proof. unfold trace. by rewrite run_call. Qed.

Lemma result_call srv h r :
  result srv h (call r)
  = match srv h r with Returns a => Returns a | Raises e => Raises e end.
Proof. unfold result. by rewrite run_call. Qed.

Lemma trace_log srv h lvl msg : trace srv h (log lvl msg) = [EOut (Log lvl msg)].
Proof. done. Qed.

Lemma result_log srv h lvl msg : result srv h (log lvl msg) = Returns tt.
Proof. done. Qed.

Lemma trace_metric srv h m : trace srv h (metric m) = [EOut (Metric m)].
Proof. done. Qed.

Lemma result_metric srv h m : result srv h (metric m) = Returns tt.
Proof. done. Qed.

Lemma calls_of_app t1 t2 : calls_of (t1 ++ t2) = calls_of t1 ++ calls_of t2.
Proof. apply omap_app. Qed.

Lemma outputs_of_app t1 t2 : outputs_of (t1 ++ t2) = outputs_of t1 ++ outputs_of t2.
Proof. apply omap_app. Qed.

Section Triples.
Context (R : exn -> Prop) (P : request -> Prop).

Lemma tr_bind {A B} (Q1 : A -> Prop) (Q : B -> Prop) E (m : prog A) (f : A -> prog B) :
  triple R P Q1 E m -> (forall a, Q1 a -> triple R P Q E (f a)) ->
  triple R P Q E (bind m f).
Proof. intros Hm Hf. induction Hm; simpl; auto; constructor; auto. Qed.

Lemma tr_try_except {A} (Q : A -> Prop) E1 E (m : prog A) hd :
  triple R P Q E1 m -> (forall e, E1 e -> triple R P Q E (hd e)) ->
  triple R P Q E (try_except m hd).
Proof. intros Hm Hh. induction Hm; simpl; auto; constructor; auto. Qed.

Lemma tr_weaken {A} (P' : request -> Prop) (Q Q' : A -> Prop) (E E' : exn -> Prop) m :
  (forall r, P r -> P' r) -> (forall a, Q a -> Q' a) -> (forall e, E e -> E' e) ->
  triple R P Q E m -> triple R P' Q' E' m.
Proof. intros HP HQ HE Hm. induction Hm; constructor; auto. Qed.

Lemma tr_call {E} r (Q : resp_type r -> Prop) :
  P r -> (forall a, Q a) -> (forall e, R e -> E e) -> triple R P Q E (call r).
Proof. intros Hr HQ HE. constructor; [done|]. intros [a|e] He; constructor; auto. Qed.

Lemma tr_log {E} (Q : unit -> Prop) lvl msg : Q tt -> triple R P Q E (log lvl msg).
Proof. intros. repeat constructor. done. Qed.

Lemma tr_metric {E} (Q : unit -> Prop) m : Q tt -> triple R P Q E (metric m).
Proof. intros. repeat constructor. done. Qed.

Lemma tr_when {E} (Q : unit -> Prop) c m :
  Q tt -> (c = true -> triple R P Q E m) -> triple R P Q E (when c m).
Proof. intros HQ Hm. destruct c; simpl; auto. by constructor. Qed.

(** A loop keeps an invariant that may mention the items already done. *)
Lemma tr_for_each {S X} (I : list X -> S -> Prop) E (l : list X) (s : S)
    (body : S -> X -> prog S) :
  I [] s ->
  (forall done x s, I done s -> triple R P (I (done ++ [x])) E (body s x)) ->
  triple R P (I l) E (for_each l s body).
Proof.
  intros Hs Hb.
  assert (forall done l s, I done s -> triple R P (I (done ++ l)) E (for_each l s body))
    as Hgen; [|by apply (Hgen [] l s)].
  clear l s Hs. intros done0 l. revert done0.
  induction l as [|x l IH]; intros done0 s Hs; simpl.
  - rewrite app_nil_r. by constructor.
  - eapply tr_bind; [by apply Hb|]. intros s' Hs'.
    replace (done0 ++ x :: l) with ((done0 ++ [x]) ++ l) by (by rewrite <- app_assoc).
    by apply IH.
Qed.

(** What a specification says of an execution. *)
Lemma tr_run {A} (Q : A -> Prop) E (m : prog A) srv h :
  raises_only R srv ->
  triple R P Q E m ->
  Forall (entry_satisfies P) (trace srv h m)
  /\ match result srv h m with Returns a => Q a | Raises e => E e end.
Proof.
  unfold trace, result. intros Hsrv Hm. revert h.
  induction Hm as [a Ha|e He|o k Hk IH|r k Hr Hk IH]; intros h; simpl.
  - split; [constructor|done].
  - split; [constructor|done].
  - specialize (IH (h ++ [EOut o])). destruct (run srv _ k). simpl in *.
    split; [constructor; [exact I|tauto]|tauto].
  - assert (match srv h r with Raises e => R e | Returns _ => True end) as Hresp.
    { destruct (srv h r) eqn:Hr'; [done|]. by eapply Hsrv. }
    specialize (IH (srv h r) Hresp (h ++ [ECall r (srv h r)])).
    destruct (run srv _ (k (srv h r))). simpl in *.
    split; [constructor; tauto|tauto].
Qed.

Lemma cs_triple {A} (m : prog A) : calls_satisfy P m -> triple R P any_value any_exn m.
Proof. induction 1; constructor; auto; done. Qed.
End Triples.

Lemma raises_only_any srv : raises_only any_exn srv.
Proof. done. Qed.

(** Follows the structure of a program in a [triple] goal. *)
Ltac tr_step :=
  lazymatch goal with
  | |- triple _ _ _ _ (bind _ _) => eapply tr_bind with (Q1 := any_value); [|intros ? _]
  | |- triple ?R _ _ _ (try_except _ _) =>
      eapply tr_try_except with (E1 := R); [|intros ? ?]
  | |- triple ?R ?P _ _ (call ?r) => refine (tr_call R P r _ _ _ _); intros
  | |- triple _ _ _ _ (log _ _) => apply tr_log
  | |- triple _ _ _ _ (metric _) => apply tr_metric
  | |- triple _ _ _ _ (when _ _) => apply tr_when; [|intros]
  | |- triple _ _ _ _ (for_each _ _ _) =>
      apply tr_for_each with (I := fun _ _ => True); [exact I|intros]
  | |- triple _ _ _ _ (Ret _) => apply tr_Ret
  | |- triple _ _ _ _ (Raise _) => apply tr_Raise
  | |- triple _ _ _ _ (let _ := _ in _) => cbv zeta
  | |- triple _ _ _ _ (if ?c then _ else _) => destruct c eqn:?
  | |- triple _ _ _ _ (match ?c with _ => _ end) => destruct c eqn:?
  end.

Ltac tr_side := first [reflexivity | exact I | assumption].

(** ** The reconciler *)

Lemma dict_get_set_eq {V} k (v : V) d : dict_get k (dict_set k v d) = Some v.
Proof.
  induction d as [|[k' v'] d IH]; simpl.
  - by rewrite bool_decide_eq_true_2.
  - case_bool_decide as Hk; simpl.
    + by rewrite bool_decide_eq_true_2.
    + by rewrite bool_decide_eq_false_2.
Qed.

Lemma dict_get_set_ne {V} k k' (v : V) d :
  k <> k' -> dict_get k' (dict_set k v d) = dict_get k' d.
Proof.
  intros Hne. induction d as [|[k0 v0] d IH]; simpl.
  - by rewrite bool_decide_eq_false_2.
  - case_bool_decide as Hk; simpl.
    + subst k0. by rewrite !bool_decide_eq_false_2.
    + case_bool_decide; [done|]. apply IH.
Qed.

Lemma dict_set_keys {V} k (v : V) d x :
  x ∈ (dict_set k v d).*1 <-> x = k \/ x ∈ d.*1.
Proof.
  induction d as [|[k0 v0] d IH]; simpl.
  - rewrite list_elem_of_singleton, elem_of_nil. tauto.
  - case_bool_decide as Hk; simpl.
    + subst k0. rewrite !elem_of_cons. tauto.
    + rewrite !elem_of_cons, IH. tauto.
Qed.

Lemma dict_set_NoDup {V} k (v : V) d : NoDup d.*1 -> NoDup (dict_set k v d).*1.
Proof.
  induction d as [|[k0 v0] d IH]; simpl; intros Hnd.
  - repeat constructor. apply not_elem_of_nil.
  - apply NoDup_cons in Hnd as [Hnin Hnd]. case_bool_decide as Hk; simpl.
    + subst k0. by constructor.
    + constructor; [|by apply IH]. rewrite dict_set_keys. intros [->|?]; done.
Qed.

Lemma applied_covers_step name done m applied :
  applied_covers name done applied ->
  applied_covers name (done ++ [m]) (dict_set m (name +:+ "-" +:+ m) applied).
Proof.
  intros (Hget & Hkeys & Hnd). split; [|split].
  - intros x Hx. apply elem_of_app in Hx as [Hx|Hx].
    + destruct (decide (m = x)) as [->|Hne]; [apply dict_get_set_eq|].
      rewrite dict_get_set_ne by done. by apply Hget.
    + apply list_elem_of_singleton in Hx as ->. apply dict_get_set_eq.
  - intros x Hx. apply dict_set_keys in Hx as [->|Hx]; apply elem_of_app.
    + right. by constructor.
    + left. by apply Hkeys.
  - by apply dict_set_NoDup.
Qed.

Lemma writes_no_status_complete name r : writes_no_status r -> status_write_complete name r.
Proof. by destruct r. Qed.

Lemma select_no_status spec namespace role name st :
  calls_satisfy writes_no_status (select_machines_for_cluster spec namespace role name st).
Proof.
  unfold select_machines_for_cluster, list_machines. repeat cs_step; reflexivity.
Qed.

Lemma join_token_returns_name name namespace :
  triple any_exn writes_no_status (fun s => s = name +:+ "-join-token") any_exn
    (create_join_token_secret name namespace).
Proof.
  unfold create_join_token_secret, create_secret.
  repeat tr_step; tr_side.
Qed.

Lemma create_for_machine_returns_name name uid machine_name role spec namespace token
    cp workers info :
  triple any_exn writes_no_status (fun c => c = name +:+ "-" +:+ machine_name) any_exn
    (create_nixos_configuration_for_machine name uid machine_name role spec namespace
       token cp workers info).
Proof.
  unfold create_nixos_configuration_for_machine, create_nixos_configuration_with_owner,
    get_machine.
  repeat tr_step; tr_side.
Qed.

Lemma ensure_configuration_records name uid machine_name role spec namespace token
    cp workers info applied :
  triple any_exn writes_no_status
    (fun a => a = dict_set machine_name (name +:+ "-" +:+ machine_name) applied) any_exn
    (ensure_configuration name uid machine_name role spec namespace token cp workers info
       applied).
Proof.
  unfold ensure_configuration, get_nixos_configuration, patch_nixos_configuration_spec.
  cbv zeta. tr_step.
  - repeat tr_step; tr_side.
  - tr_step; [|by constructor].
    eapply tr_bind; [apply create_for_machine_returns_name|].
    intros c ->. repeat tr_step; tr_side.
Qed.

Lemma reconcile_status_writes now body spec name namespace :
  triple any_exn (status_write_complete name) any_value any_exn
    (reconcile_kubernetes_cluster now body spec name namespace).
Proof.
  unfold reconcile_kubernetes_cluster, reconcile_body.
  tr_step; [tr_step; tr_side|]. tr_step; [|repeat tr_step; tr_side].
  destruct (truthy_opt truthy_str (deletionTimestamp body)).
  { eapply tr_weaken; [| | |apply cs_triple, deletion_calls]; try done.
    by intros r []. }
  destruct (negb (truthy_opt truthy_str (uid body))); [by constructor|].
  eapply tr_bind with (Q1 := any_value); [|intros control_plane_nodes _].
  { eapply tr_weaken; [| | |apply cs_triple, select_no_status]; try done.
    apply writes_no_status_complete. }
  eapply tr_bind with (Q1 := any_value); [|intros worker_nodes _].
  { eapply tr_weaken; [| | |apply cs_triple, select_no_status]; try done.
    apply writes_no_status_complete. }
  destruct (truthy_list control_plane_nodes) eqn:Hcp; cbn [negb]; [|by constructor].
  apply truthy_list_true in Hcp.
  tr_step.
  { eapply tr_weaken; [| | |apply join_token_returns_name]; try done.
    apply writes_no_status_complete. }
  tr_step.
  { eapply tr_weaken; [| | |apply cs_triple, cs_for_each]; try done.
    intros. unfold get_machine. repeat cs_step. tr_side. }
  eapply tr_bind with (Q1 := applied_covers name control_plane_nodes).
  { apply tr_for_each.
    - split; [|split]; [by intros ? ?%elem_of_nil|by intros ? ?%elem_of_nil|constructor].
    - intros done m applied Hcov.
      eapply tr_weaken; [| | |apply ensure_configuration_records]; try done.
      + apply writes_no_status_complete.
      + intros ? ->. by apply applied_covers_step. }
  intros applied_cp Hcov_cp.
  eapply tr_bind with (Q1 := applied_covers name (control_plane_nodes ++ worker_nodes)).
  { eapply tr_weaken with (Q := fun a => applied_covers name
                                           (control_plane_nodes ++ worker_nodes) a);
      [done|done|done|].
    apply (tr_for_each _ _ (fun done a => applied_covers name (control_plane_nodes ++ done) a)).
    - by rewrite app_nil_r.
    - intros done m applied Hcov.
      eapply tr_weaken; [| | |apply ensure_configuration_records]; try done.
      + apply writes_no_status_complete.
      + intros ? ->. rewrite app_assoc. by apply applied_covers_step. }
  intros applied (Hget & Hkeys & Hnd).
  unfold update_cluster_status. repeat tr_step; try tr_side.
  simpl. by exists control_plane_nodes, worker_nodes, applied.
Qed.

(** X1.  Every status write of a reconcile records a non-empty
    control-plane selection together with the worker selection, and an
    [appliedMachines] map whose keys are exactly the selected machines, each
    once, each mapped to the child [<cluster>-<machine>]; the ready
    counters are written as 0 of the number selected. *)
Theorem reconcile_status_is_complete srv h now body spec name namespace :
  Forall (entry_satisfies (status_write_complete name))
    (trace srv h (reconcile_kubernetes_cluster now body spec name namespace)).
Proof.
  apply (tr_run any_exn (status_write_complete name) any_value any_exn);
    [apply raises_only_any | apply reconcile_status_writes].
Qed.
Section EnvironmentErrors.
Context (P : request -> Prop) (HP : forall r, P r).

Lemma deletion_raises_env name namespace body :
  triple env_exn P any_value env_exn (handle_cluster_deletion name namespace body).
Proof.
  unfold handle_cluster_deletion, delete_nixos_configuration, delete_secret.
  repeat tr_step; first [apply HP | tr_side].
Qed.

Lemma select_raises_env spec namespace role name st :
  triple env_exn P any_value env_exn
    (select_machines_for_cluster spec namespace role name st).
Proof.
  unfold select_machines_for_cluster, list_machines.
  repeat tr_step; first [apply HP | tr_side].
Qed.

Lemma join_token_raises_env name namespace :
  triple env_exn P any_value env_exn (create_join_token_secret name namespace).
Proof.
  unfold create_join_token_secret, create_secret.
  repeat tr_step; first [apply HP | tr_side].
Qed.

Lemma ensure_configuration_raises_env name uid machine_name role spec namespace token
    cp workers info applied :
  triple env_exn P any_value env_exn
    (ensure_configuration name uid machine_name role spec namespace token cp workers info
       applied).
Proof.
  unfold ensure_configuration, get_nixos_configuration, patch_nixos_configuration_spec,
    create_nixos_configuration_for_machine, create_nixos_configuration_with_owner,
    get_machine.
  repeat tr_step; first [apply HP | tr_side].
Qed.

Lemma reconcile_body_raises now body spec name namespace :
  triple env_exn P any_value (reconcile_body_error body)
    (reconcile_body now body spec name namespace).
Proof.
  unfold reconcile_body. cbv zeta.
  destruct (truthy_opt truthy_str (deletionTimestamp body)) eqn:Hdel.
  { eapply tr_weaken; [| | |apply deletion_raises_env]; try done. by left. }
  destruct (truthy_opt truthy_str (uid body)) eqn:Huid; cbn [negb];
    [|constructor; right; left; done].
  eapply tr_bind with (Q1 := any_value); [|intros control_plane_nodes _].
  { eapply tr_weaken; [| | |apply select_raises_env]; try done. by left. }
  eapply tr_bind with (Q1 := any_value); [|intros worker_nodes _].
  { eapply tr_weaken; [| | |apply select_raises_env]; try done. by left. }
  destruct (negb (truthy_list control_plane_nodes)); [constructor; right; right; done|].
  eapply tr_weaken with (Q := any_value) (E := env_exn); [done|done|by left|].
  tr_step; [apply join_token_raises_env|].
  tr_step. { unfold get_machine. repeat tr_step; first [apply HP | tr_side]. }
  tr_step. { tr_step. apply ensure_configuration_raises_env. }
  tr_step. { tr_step. apply ensure_configuration_raises_env. }
  unfold update_cluster_status. repeat tr_step; first [apply HP | tr_side].
Qed.

Lemma reconcile_raises now body spec name namespace :
  triple env_exn P any_value (reconcile_error body)
    (reconcile_kubernetes_cluster now body spec name namespace).
Proof.
  unfold reconcile_kubernetes_cluster.
  tr_step; [tr_step; exact I|].
  eapply tr_try_except; [apply reconcile_body_raises|].
  intros e [He|[(-> & Huid & Hdel)| ->]].
  - destruct e; try done; repeat tr_step; try exact I;
      (split; [reflexivity|right; eexists; split; [exact He|reflexivity]]).
  - repeat tr_step; [exact I|]. done.
  - repeat tr_step; [exact I|]. simpl. auto.
Qed.
End EnvironmentErrors.

(** X2.  Against an API server that raises only its own exceptions, a
    reconcile raises nothing but kopf's two errors: [PermanentError] with
    the message of the missing uid, and only when the uid is missing or
    empty and no deletion timestamp is set; or [TemporaryError] with delay
    60, either for the empty control-plane selection or wrapping the text
    of the exception that stopped it.  Conversely a reconcile of a body
    without uid (and without deletion timestamp) makes no call at all and
    raises that [PermanentError]. *)
Theorem reconcile_error_classification srv h now body spec name namespace :
  raises_only env_exn srv ->
  match result srv h (reconcile_kubernetes_cluster now body spec name namespace) with
  | Returns _ => True
  | Raises e => reconcile_error body e
  end
  /\ (truthy_opt truthy_str (deletionTimestamp body) = false ->
      truthy_opt truthy_str (uid body) = false ->
      run srv h (reconcile_kubernetes_cluster now body spec name namespace)
      = ([EOut (Log INFO ("Reconciling KubernetesCluster: " +:+ name));
          EOut (Metric (record_reconcile_error namespace name "permanent"))],
         Raises (PermanentError "Cluster UID not found in metadata"))).
Proof.
  intros Hsrv. split.
  - apply (tr_run env_exn any_call any_value (reconcile_error body)); [done|].
    by apply reconcile_raises.
  - intros Hdel Huid. unfold reconcile_kubernetes_cluster, reconcile_body.
    cbv zeta. rewrite Hdel, Huid. reflexivity.
Qed.

(** Every call fails with NotFound: the listing gives no machine, and the
    reconcile asks to be retried in 60 s. *)
Lemma reconcile_error_classification_witness :
  match result (failing_server not_found) []
          (reconcile_kubernetes_cluster "2024-01-01T00:00:00Z" body_fresh spec_fresh
             "demo" "default") with
  | Returns _ => True
  | Raises e => reconcile_error body_fresh e
  end.
Proof.
  apply (reconcile_error_classification (failing_server not_found) []
           "2024-01-01T00:00:00Z" body_fresh spec_fresh "demo" "default").
  intros h r e [= <-]. exact I.
Defined.

Lemma select_returns srv h spec namespace role name st :
  exists l, result srv h (select_machines_for_cluster spec namespace role name st)
            = Returns l.
Proof.
  assert (triple any_exn any_call any_value no_exn
            (select_machines_for_cluster spec namespace role name st)) as Ht.
  { unfold select_machines_for_cluster, list_machines. repeat tr_step; tr_side. }
  apply (tr_run _ _ _ _ _ srv h (raises_only_any srv)) in Ht as [_ Hr].
  destruct (result srv h _) as [l|e]; [by exists l|done].
Qed.

Lemma select_lists_only spec namespace role name st :
  calls_satisfy (is_machine_listing namespace)
    (select_machines_for_cluster spec namespace role name st).
Proof.
  unfold select_machines_for_cluster, list_machines. repeat cs_step; reflexivity.
Qed.

(** X3.  When no deletion is pending, the uid is present and the
    control-plane selection comes back empty, the reconcile raises
    [TemporaryError] "No available control plane machines found" with delay
    60, and the only calls it has made are listings of the Machines: no
    Secret, no child and no status is written. *)
Theorem reconcile_empty_control_plane srv h now body spec name namespace :
  truthy_opt truthy_str (deletionTimestamp body) = false ->
  truthy_opt truthy_str (uid body) = true ->
  result srv (h ++ [EOut (Log INFO ("Reconciling KubernetesCluster: " +:+ name))])
    (select_machines_for_cluster spec namespace "controlPlane" name
       (Some (default empty_status (status body)))) = Returns [] ->
  result srv h (reconcile_kubernetes_cluster now body spec name namespace)
  = Raises (TemporaryError "No available control plane machines found" 60)
  /\ Forall (entry_satisfies (is_machine_listing namespace))
       (trace srv h (reconcile_kubernetes_cluster now body spec name namespace)).
Proof.
  intros Hdel Huid Hcp.
  unfold reconcile_kubernetes_cluster, reconcile_body. cbv zeta.
  rewrite Hdel, Huid. cbn [negb].
  rewrite result_bind, trace_bind, result_log, trace_log.
  rewrite result_try_except, trace_try_except.
  set (h1 := h ++ [EOut (Log INFO ("Reconciling KubernetesCluster: " +:+ name))]) in *.
  set (sel_cp := select_machines_for_cluster spec namespace "controlPlane" name _) in *.
  rewrite result_bind, trace_bind, Hcp. cbv beta iota.
  set (sel_dp := select_machines_for_cluster spec namespace "dataPlane" name _).
  destruct (select_returns srv (h1 ++ trace srv h1 sel_cp) spec namespace "dataPlane" name
              (Some (default empty_status (status body)))) as [dp Hdp].
  fold sel_dp in Hdp. rewrite result_bind, trace_bind, Hdp. cbn [truthy_list negb].
  cbv beta iota.
  split.
  - reflexivity.
  - cbn [app]. constructor; [exact I|].
    rewrite !Forall_app. repeat split; try (by repeat constructor).
    + apply cs_run, select_lists_only.
    + apply cs_run, select_lists_only.
Qed.

(** The only control-plane machine is already claimed. *)
Lemma reconcile_empty_control_plane_witness :
  result (world_server world_s3) []
    (reconcile_kubernetes_cluster "2024-01-01T00:00:00Z" body_fresh spec_fresh
       "demo" "default")
  = Raises (TemporaryError "No available control plane machines found" 60).
Proof.
  apply (reconcile_empty_control_plane (world_server world_s3) []
           "2024-01-01T00:00:00Z" body_fresh spec_fresh "demo" "default");
    vm_compute; reflexivity.
Defined.

(** ** Order and presence of calls *)

Section CallOrder.
Context (F : request -> Prop).

Lemma fc_of_cs {A} (m : prog A) :
  calls_satisfy (fun r => ~ F r) m -> final_call F m.
Proof. induction 1; [constructor|constructor|constructor|apply fc_Call_other]; auto. Qed.

Lemma fc_silent {A} (m : prog A) : calls_satisfy no_call m -> final_call F m.
Proof.
  induction 1 as [| | |r k Hr]; [constructor|constructor|constructor; auto|destruct Hr].
Qed.

Lemma fc_bind_before {A B} (m : prog A) (f : A -> prog B) :
  calls_satisfy (fun r => ~ F r) m -> (forall a, final_call F (f a)) ->
  final_call F (bind m f).
Proof.
  intros Hm Hf. induction Hm as [a|e|o k Hk IH|r k Hr Hk IH]; simpl.
  - apply Hf.
  - constructor.
  - constructor. apply IH.
  - apply fc_Call_other; [done|]. intros resp. apply IH.
Qed.

Lemma fc_bind_after {A B} (m : prog A) (f : A -> prog B) :
  final_call F m -> (forall a, calls_satisfy no_call (f a)) -> final_call F (bind m f).
Proof.
  intros Hm Hf. induction Hm; simpl.
  - by apply fc_silent.
  - constructor.
  - constructor. auto.
  - apply fc_Call_other; auto.
  - apply fc_Call_final; [done|]. intros resp. apply cs_bind; auto.
Qed.

Lemma fc_try_before {A} (m : prog A) hd :
  calls_satisfy (fun r => ~ F r) m -> (forall e, final_call F (hd e)) ->
  final_call F (try_except m hd).
Proof.
  intros Hm Hf. induction Hm as [a|e|o k Hk IH|r k Hr Hk IH]; simpl.
  - constructor.
  - apply Hf.
  - constructor. apply IH.
  - apply fc_Call_other; [done|]. intros resp. apply IH.
Qed.

Lemma fc_try_after {A} (m : prog A) hd :
  final_call F m -> (forall e, calls_satisfy no_call (hd e)) ->
  final_call F (try_except m hd).
Proof.
  intros Hm Hf. induction Hm; simpl.
  - constructor.
  - by apply fc_silent.
  - constructor. auto.
  - apply fc_Call_other; auto.
  - apply fc_Call_final; [done|]. intros resp. apply cs_try_except; auto.
Qed.

Lemma silent_trace {A} (m : prog A) srv h :
  calls_satisfy no_call m -> calls_of (trace srv h m) = [].
Proof.
  intros Hm. pose proof (cs_run no_call m srv h Hm) as Hall.
  induction Hall as [|e t He Ht IH]; [done|].
  destruct e as [r resp|o]; [done|]. exact IH.
Qed.

Lemma fc_run {A} (m : prog A) srv h : final_call F m -> trace_final F (trace srv h m).
Proof.
  unfold trace. intros Hm. revert h.
  induction Hm as [a|e|o k Hk IH|r k Hr Hk IH|r k Hr Hk]; intros h; simpl.
  - left. constructor.
  - left. constructor.
  - specialize (IH (h ++ [EOut o])). destruct (run srv _ k) as [t res]. simpl in *.
    destruct IH as [Hall|(t1 & r & resp & t2 & -> & Hall & HF & Hsil)].
    + left. by constructor.
    + right. exists (EOut o :: t1), r, resp, t2. repeat split; try done.
      by constructor.
  - specialize (IH (srv h r) (h ++ [ECall r (srv h r)])).
    destruct (run srv _ (k (srv h r))) as [t res]. simpl in *.
    destruct IH as [Hall|(t1 & r' & resp & t2 & -> & Hall & HF & Hsil)].
    + left. by constructor.
    + right. exists (ECall r (srv h r) :: t1), r', resp, t2. repeat split; try done.
      by constructor.
  - pose proof (silent_trace (k (srv h r)) srv (h ++ [ECall r (srv h r)])
                  (Hk (srv h r))) as Hsil.
    unfold trace in Hsil. destruct (run srv _ (k (srv h r))) as [t res]. simpl in *.
    right. exists [], r, (srv h r), t. repeat split; done.
Qed.

Lemma ra_bind_first {A B} (m : prog A) (f : A -> prog B) :
  returns_after F m -> returns_after F (bind m f).
Proof.
  induction 1 as [e|o k Hk IH|r k Hk IH|r k Hr Hk IH]; simpl.
  - constructor.
  - constructor. apply IH.
  - constructor. intros resp. apply IH.
  - apply ra_Call_done; [done|]. intros e. apply IH.
Qed.

Lemma ra_bind_then {A B} (m : prog A) (f : A -> prog B) :
  (forall a, returns_after F (f a)) -> returns_after F (bind m f).
Proof.
  intros Hf. induction m as [a|e|o k IH|r k IH]; simpl.
  - apply Hf.
  - constructor.
  - constructor. apply IH.
  - constructor. intros resp. apply IH.
Qed.

Lemma ra_try_except {A} (m : prog A) hd :
  returns_after F m -> (forall e, returns_after F (hd e)) ->
  returns_after F (try_except m hd).
Proof.
  intros Hm Hh. induction Hm as [e|o k Hk IH|r k Hk IH|r k Hr Hk IH]; simpl.
  - apply Hh.
  - constructor. apply IH.
  - constructor. intros resp. apply IH.
  - apply ra_Call_done; [done|]. intros e. apply IH.
Qed.

Lemma ra_run {A} (m : prog A) srv h a :
  returns_after F m -> result srv h m = Returns a ->
  Exists (returned_call F) (trace srv h m).
Proof.
  unfold result, trace. intros Hm. revert h.
  induction Hm as [e|o k Hk IH|r k Hk IH|r k Hr Hk IH]; intros h; simpl.
  - done.
  - specialize (IH (h ++ [EOut o])). destruct (run srv _ k) as [t res]. simpl in *.
    intros Hres. apply Exists_cons_tl. auto.
  - specialize (IH (srv h r) (h ++ [ECall r (srv h r)])).
    destruct (run srv _ (k (srv h r))) as [t res]. simpl in *.
    intros Hres. apply Exists_cons_tl. auto.
  - destruct (srv h r) as [v|e] eqn:Hresp.
    + destruct (run srv _ (k (Returns v))) as [t res]. simpl. intros _.
      apply Exists_cons_hd. done.
    + specialize (IH e (h ++ [ECall r (Raises e)])).
      destruct (run srv _ (k (Raises e))) as [t res]. simpl in *.
      intros Hres. apply Exists_cons_tl. auto.
Qed.

Lemma ac_bind_first {A B} (m : prog A) (f : A -> prog B) :
  always_calls F m -> always_calls F (bind m f).
Proof.
  induction 1 as [o k Hk IH|r k Hk IH|r k Hr]; simpl.
  - constructor. apply IH.
  - constructor. intros resp. apply IH.
  - by apply ac_Call_here.
Qed.

Lemma ac_bind_then {A B} P (Q : A -> Prop) (m : prog A) (f : A -> prog B) :
  triple any_exn P Q no_exn m -> (forall a, always_calls F (f a)) ->
  always_calls F (bind m f).
Proof.
  intros Hm Hf. induction Hm as [a Ha|e He|o k Hk IH|r k Hr Hk IH]; simpl.
  - apply Hf.
  - destruct He.
  - constructor. apply IH.
  - constructor. intros resp. apply IH. by destruct resp.
Qed.

Lemma ac_run {A} (m : prog A) srv h :
  always_calls F m -> Exists (fun e => exists r, call_of e = Some r /\ F r) (trace srv h m).
Proof.
  unfold trace. intros Hm. revert h.
  induction Hm as [o k Hk IH|r k Hk IH|r k Hr]; intros h; simpl.
  - specialize (IH (h ++ [EOut o])). destruct (run srv _ k) as [t res]. simpl in *.
    by apply Exists_cons_tl.
  - specialize (IH (srv h r) (h ++ [ECall r (srv h r)])).
    destruct (run srv _ (k (srv h r))) as [t res]. simpl in *. by apply Exists_cons_tl.
  - destruct (run srv _ (k (srv h r))) as [t res]. simpl.
    apply Exists_cons_hd. by exists r.
Qed.
End CallOrder.
Lemma triple_cs {A} P (Q : A -> Prop) E (m : prog A) :
  triple any_exn P Q E m -> calls_satisfy P m.
Proof.
  induction 1 as [| |o k Hk IH|r k Hr Hk IH].
  - constructor.
  - constructor.
  - constructor. apply IH.
  - constructor; [done|]. intros resp. apply IH. by destruct resp.
Qed.

Lemma no_status_not_write r : writes_no_status r -> ~ is_status_write r.
Proof. unfold writes_no_status. destruct r; simpl; intros Hw Hs; done. Qed.

Lemma update_cluster_status_final name namespace st :
  final_call is_status_write (update_cluster_status name namespace st).
Proof.
  unfold update_cluster_status, call. cbn [bind try_except].
  apply fc_Call_final; [exact I|]. intros [[]|e]; repeat constructor.
Qed.

Lemma update_cluster_status_returns_after name namespace st :
  returns_after is_status_write (update_cluster_status name namespace st).
Proof.
  unfold update_cluster_status, call. cbn [bind try_except].
  apply ra_Call_done; [exact I|]. intros e. repeat constructor.
Qed.

Lemma ensure_configuration_no_status name uid machine_name role spec namespace token
    cp workers info applied :
  calls_satisfy (fun r => ~ is_status_write r)
    (ensure_configuration name uid machine_name role spec namespace token cp workers info
       applied).
Proof.
  eapply cs_weaken; [apply no_status_not_write|].
  eapply triple_cs, ensure_configuration_records.
Qed.

Lemma reconcile_final_call now body spec name namespace :
  final_call is_status_write (reconcile_kubernetes_cluster now body spec name namespace).
Proof.
  unfold reconcile_kubernetes_cluster, reconcile_body. cbv zeta.
  apply fc_bind_before; [apply cs_log|intros _].
  apply fc_try_after; [|intros e; destruct e; repeat cs_step].
  destruct (truthy_opt truthy_str (deletionTimestamp body)).
  { apply fc_of_cs. eapply cs_weaken; [|apply deletion_calls].
    intros r []; simpl; tauto. }
  destruct (negb (truthy_opt truthy_str (uid body))); [constructor|].
  apply fc_bind_before; [|intros control_plane_nodes].
  { eapply cs_weaken; [apply no_status_not_write|apply select_no_status]. }
  apply fc_bind_before; [|intros worker_nodes].
  { eapply cs_weaken; [apply no_status_not_write|apply select_no_status]. }
  destruct (negb (truthy_list control_plane_nodes)); [constructor|].
  apply fc_bind_before; [|intros token].
  { eapply cs_weaken; [apply no_status_not_write|].
    eapply triple_cs, join_token_returns_name. }
  apply fc_bind_before; [|intros info].
  { unfold get_machine. repeat cs_step. tauto. }
  apply fc_bind_before; [|intros applied_cp].
  { cs_step. apply ensure_configuration_no_status. }
  apply fc_bind_before; [|intros applied].
  { cs_step. apply ensure_configuration_no_status. }
  apply fc_bind_after; [apply update_cluster_status_final|].
  intros _. repeat cs_step.
Qed.

Lemma reconcile_returns_after now body spec name namespace :
  truthy_opt truthy_str (deletionTimestamp body) = false ->
  returns_after is_status_write
    (reconcile_kubernetes_cluster now body spec name namespace).
Proof.
  intros Hdel. unfold reconcile_kubernetes_cluster, reconcile_body. cbv zeta.
  rewrite Hdel. apply ra_bind_then. intros _.
  apply ra_try_except; [|intros e; destruct e; repeat constructor].
  destruct (negb (truthy_opt truthy_str (uid body))); [constructor|].
  apply ra_bind_then. intros control_plane_nodes.
  apply ra_bind_then. intros worker_nodes.
  destruct (negb (truthy_list control_plane_nodes)); [constructor|].
  do 4 (apply ra_bind_then; intros ?).
  apply ra_bind_first, update_cluster_status_returns_after.
Qed.

(** X4.  A reconcile writes the status at most once, and the status write
    is its last call: only log lines and metrics follow it.  When no
    deletion is pending, a reconcile that returns normally has made a
    status write that succeeded. *)
Theorem reconcile_status_write_is_last srv h now body spec name namespace :
  trace_final is_status_write
    (trace srv h (reconcile_kubernetes_cluster now body spec name namespace))
  /\ (truthy_opt truthy_str (deletionTimestamp body) = false ->
      result srv h (reconcile_kubernetes_cluster now body spec name namespace)
      = Returns tt ->
      Exists (returned_call is_status_write)
        (trace srv h (reconcile_kubernetes_cluster now body spec name namespace))).
Proof.
  split.
  - apply fc_run, reconcile_final_call.
  - intros Hdel Hres. eapply ra_run; [|exact Hres]. by apply reconcile_returns_after.
Qed.

Lemma reconcile_status_write_is_last_witness :
  Exists (returned_call is_status_write)
    (trace (world_server world_fresh) []
       (reconcile_kubernetes_cluster "2024-01-01T00:00:00Z" body_fresh spec_fresh
          "demo" "default")).
Proof.
  apply (reconcile_status_write_is_last (world_server world_fresh) []
           "2024-01-01T00:00:00Z" body_fresh spec_fresh "demo" "default");
    vm_compute; reflexivity.
Defined.

(** ** Deletion *)

Lemma deletion_children srv namespace cluster_name (applied : list (string * string)) :
  forall h,
    let loop :=
      for_each applied tt
        (fun _ item =>
           let config_name := item.2 in
           try_except
             (delete_nixos_configuration config_name namespace ;;;
              log INFO ("Deleted NixosConfiguration: " +:+ config_name) ;;;
              metric (record_nixos_config_deleted namespace cluster_name))
             (fun e =>
                log WARNING ("Failed to delete NixosConfiguration " +:+ config_name
                             +:+ ": " +:+ str_exn e))) in
    calls_of (trace srv h loop)
    = map (fun item => delete_namespaced_custom_object
                         "nio.homystack.com" "v1alpha1" namespace
                         "nixosconfigurations" item.2) applied
    /\ result srv h loop = Returns tt.
Proof.
  induction applied as [|[m c] applied IH]; intros h; [done|].
  cbn [for_each map]. cbv zeta.
  rewrite trace_bind, result_bind.
  set (step := try_except _ _).
  assert (calls_of (trace srv h step)
          = [delete_namespaced_custom_object "nio.homystack.com" "v1alpha1" namespace
               "nixosconfigurations" c]
          /\ result srv h step = Returns tt) as [Hc Hr].
  { subst step. unfold trace, result, delete_nixos_configuration. cbn.
    destruct (srv h (delete_namespaced_custom_object _ _ _ _ _)) as [[]|e]; by cbn. }
  rewrite Hr, calls_of_app, Hc. destruct (IH (h ++ trace srv h step)) as [Hc' Hr'].
  cbv zeta in Hc', Hr'. rewrite Hr', Hc'. done.
Qed.

Lemma deletion_secret srv h secret namespace msg_ok (msg_fail : exn -> string) :
  let step :=
    try_except
      (delete_secret secret namespace ;;; log INFO msg_ok)
      (fun e => log WARNING (msg_fail e)) in
  calls_of (trace srv h step) = [delete_namespaced_secret secret namespace]
  /\ result srv h step = Returns tt.
Proof.
  unfold trace, result, delete_secret. cbn.
  destruct (srv h (delete_namespaced_secret _ _)) as [[]|e]; by cbn.
Qed.

Lemma deletion_run srv h name namespace body :
  calls_of (trace srv h (handle_cluster_deletion name namespace body))
  = map (fun item => delete_namespaced_custom_object
                       "nio.homystack.com" "v1alpha1" namespace
                       "nixosconfigurations" item.2)
        (default [] (appliedMachines (default empty_status (status body))))
    ++ [delete_namespaced_secret (name +:+ "-join-token") namespace;
        delete_namespaced_secret (name +:+ "-kubeconfig") namespace]
  /\ result srv h (handle_cluster_deletion name namespace body) = Returns tt.
Proof.
  unfold handle_cluster_deletion. cbv zeta.
  rewrite trace_bind, result_bind, trace_log, result_log.
  rewrite trace_bind, result_bind.
  match goal with |- context [trace srv ?h' (for_each ?l tt ?b)] =>
    destruct (deletion_children srv namespace name l h') as [Hc1 Hr1] end.
  cbv zeta in Hc1, Hr1. rewrite Hr1.
  rewrite trace_bind, result_bind.
  match goal with |- context [trace srv ?h' (try_except ?m ?hd)] =>
    destruct (deletion_secret srv h' (name +:+ "-join-token") namespace
                ("Deleted join token secret: " +:+ (name +:+ "-join-token"))
                (fun e => "Failed to delete join token secret: " +:+ str_exn e))
      as [Hc2 Hr2] end.
  cbv zeta in Hc2, Hr2. rewrite Hr2.
  rewrite trace_bind, result_bind.
  match goal with |- context [trace srv ?h' (try_except (delete_secret (name +:+ "-kubeconfig") _ ;;; _) ?hd)] =>
    destruct (deletion_secret srv h' (name +:+ "-kubeconfig") namespace
                ("Deleted kubeconfig secret: " +:+ (name +:+ "-kubeconfig"))
                (fun e => "Failed to delete kubeconfig secret: " +:+ str_exn e))
      as [Hc3 Hr3] end.
  cbv zeta in Hc3, Hr3. rewrite Hr3.
  rewrite trace_log, result_log. split; [|done].
  rewrite !calls_of_app, Hc1, Hc2, Hc3. reflexivity.
Qed.

(** X5.  Deletion never raises and, whatever fails on the way, makes
    exactly these calls in this order: one delete for the child of every
    entry of [status.appliedMachines], then the delete of
    [<cluster>-join-token], then the delete of [<cluster>-kubeconfig].  A
    reconcile of a body with a deletion timestamp makes these calls and no
    other (no listing, no status write), and returns normally, with or
    without uid. *)
Theorem deletion_call_sequence srv h now body spec name namespace :
  let expected :=
    map (fun item => delete_namespaced_custom_object
                       "nio.homystack.com" "v1alpha1" namespace
                       "nixosconfigurations" item.2)
        (default [] (appliedMachines (default empty_status (status body))))
    ++ [delete_namespaced_secret (name +:+ "-join-token") namespace;
        delete_namespaced_secret (name +:+ "-kubeconfig") namespace] in
  (calls_of (trace srv h (handle_cluster_deletion name namespace body)) = expected
   /\ result srv h (handle_cluster_deletion name namespace body) = Returns tt)
  /\ (truthy_opt truthy_str (deletionTimestamp body) = true ->
      calls_of (trace srv h (reconcile_kubernetes_cluster now body spec name namespace))
      = expected
      /\ result srv h (reconcile_kubernetes_cluster now body spec name namespace)
         = Returns tt).
Proof.
  intros expected. split; [apply deletion_run|].
  intros Hdel. unfold reconcile_kubernetes_cluster, reconcile_body. cbv zeta.
  rewrite Hdel. rewrite trace_bind, result_bind, trace_log, result_log.
  rewrite trace_try_except, result_try_except.
  match goal with |- context [trace srv ?h' (handle_cluster_deletion _ _ _)] =>
    destruct (deletion_run srv h' name namespace body) as [Hc Hr] end.
  rewrite Hr, !calls_of_app, Hc. split; [|done]. by rewrite app_nil_r.
Qed.

(** Scenario S6, with every delete failing with NotFound. *)
Lemma deletion_call_sequence_witness :
  calls_of (trace (failing_server not_found) []
              (reconcile_kubernetes_cluster "2024-01-01T00:00:00Z" body_deleting
                 spec_fresh "demo" "default"))
  = [delete_namespaced_custom_object "nio.homystack.com" "v1alpha1" "default"
       "nixosconfigurations" "c1";
     delete_namespaced_custom_object "nio.homystack.com" "v1alpha1" "default"
       "nixosconfigurations" "c2";
     delete_namespaced_secret "demo-join-token" "default";
     delete_namespaced_secret "demo-kubeconfig" "default"]
  /\ result (failing_server not_found) []
       (reconcile_kubernetes_cluster "2024-01-01T00:00:00Z" body_deleting
          spec_fresh "demo" "default") = Returns tt.
Proof.
  apply (deletion_call_sequence (failing_server not_found) [] "2024-01-01T00:00:00Z"
           body_deleting spec_fresh "demo" "default").
  reflexivity.
Defined.

(** ** The readiness monitor *)

Lemma tr_any {A} (m : prog A) : triple any_exn any_call any_value any_exn m.
Proof. induction m; constructor; auto; done. Qed.

Lemma count_machine_ok done c machine_name config_name config machine :
  counters_ok done c ->
  counters_ok (done ++ [(machine_name, config_name)])
    (count_machine c machine_name config machine).
Proof.
  intros (Hcp & Hdp & Htot & Hlen & Hsub). unfold counters_ok, count_machine.
  rewrite length_app, fmap_app. simpl.
  destruct (truthy_opt truthy_str (appliedCommit config)
            && truthy_opt id (hasConfiguration machine));
    case_bool_decide; simpl; rewrite ?length_app; simpl;
    repeat split; try lia;
    intros x Hx; rewrite ?elem_of_app in *; try (left; by apply Hsub);
    destruct Hx as [Hx|Hx]; [left; by apply Hsub|right; done].
Qed.

Lemma counters_ok_skip done item c : counters_ok done c -> counters_ok (done ++ [item]) c.
Proof.
  intros (Hcp & Hdp & Htot & Hlen & Hsub). unfold counters_ok.
  rewrite length_app, fmap_app. simpl. repeat split; try lia.
  intros x Hx. apply elem_of_app. left. by apply Hsub.
Qed.

Lemma check_machine_ok P namespace done c item :
  (forall r, ~ is_status_write r -> P r) -> counters_ok done c ->
  triple any_exn P (counters_ok (done ++ [item])) no_exn (check_machine namespace c item).
Proof.
  intros HP Hc. destruct item as [machine_name config_name].
  unfold check_machine, get_nixos_configuration, get_machine.
  eapply tr_try_except with (E1 := any_exn).
  - repeat tr_step; try first [apply HP; simpl; tauto | tr_side].
    by apply count_machine_ok.
  - intros e _. repeat tr_step; [exact I|]. by apply counters_ok_skip.
Qed.

Lemma aggregate_ok P namespace applied :
  (forall r, ~ is_status_write r -> P r) ->
  triple any_exn P (counters_ok applied) no_exn (aggregate namespace applied).
Proof.
  intros HP. unfold aggregate. apply tr_for_each.
  - unfold counters_ok. simpl. repeat split; try lia. done.
  - intros done item c Hc. by apply check_machine_ok.
Qed.

Section HarvestCalls.
Context (P : request -> Prop) (HP : forall r, ~ is_status_write r -> P r).

Lemma try_kubeconfig_paths_other ssh_base first_cp paths :
  calls_satisfy P (try_kubeconfig_paths ssh_base first_cp paths).
Proof.
  induction paths as [|path rest IH]; [constructor|].
  cbn [try_kubeconfig_paths].
  cs_step; [repeat cs_step; apply HP; simpl; tauto|].
  destruct a; [constructor | done].
Qed.

Lemma extract_kubeconfig_other nodes namespace :
  calls_satisfy P (extract_kubeconfig_from_control_plane nodes namespace).
Proof.
  unfold extract_kubeconfig_from_control_plane, get_machine, get_secret_data.
  destruct nodes as [|first_cp ?]; [constructor|].
  cs_step; [|repeat cs_step].
  cs_step; [cs_step; apply HP; simpl; tauto|].
  cs_step; [repeat cs_step|].
  cs_step. { repeat cs_step; apply HP; simpl; tauto. }
  cs_step; [apply try_kubeconfig_paths_other|].
  repeat cs_step; apply HP; simpl; tauto.
Qed.

Lemma ensure_kubeconfig_secret_other name namespace c :
  calls_satisfy P (ensure_kubeconfig_secret name namespace c).
Proof.
  unfold ensure_kubeconfig_secret, create_secret.
  cs_step. cs_step; [|repeat cs_step].
  cs_step; [repeat cs_step; apply HP; simpl; tauto|].
  destruct e; try (repeat cs_step; fail).
  cs_step; [|constructor].
  cs_step; [apply extract_kubeconfig_other|].
  repeat cs_step; apply HP; simpl; tauto.
Qed.
End HarvestCalls.

Lemma monitor_writes now body name namespace :
  triple any_exn
    (monitor_write_ok name (default [] (appliedMachines (default empty_status (status body)))))
    any_value no_exn (monitor_cluster_status now body name namespace).
Proof.
  unfold monitor_cluster_status. cbv zeta.
  set (applied := default [] (appliedMachines (default empty_status (status body)))).
  assert (forall r, ~ is_status_write r -> monitor_write_ok name applied r) as HP.
  { intros r Hr. destruct r; simpl in *; tauto. }
  tr_step; [tr_step; exact I|].
  eapply tr_try_except with (E1 := any_exn); [|intros e _; tr_step; exact I].
  destruct (negb (truthy_list applied)); [by constructor|].
  eapply tr_bind; [eapply tr_weaken; [| | |by apply aggregate_ok]; done|].
  intros c Hc.
  eapply tr_bind with (Q1 := any_value); [|intros _ _].
  { apply cs_triple. by apply ensure_kubeconfig_secret_other. }
  unfold update_cluster_status. repeat tr_step; try tr_side.
  simpl. by exists c.
Qed.
(** X6.  A tick of the monitor never raises.  Every status it writes
    carries counters with [0 <= ready <= total] for both roles and totals
    that add up to at most the number of applied machines, the phase
    derived from these counters, and the two "R/T" strings printed from
    them; it never writes [appliedMachines] or the persisted selections. *)
Theorem monitor_status_counters srv h now body name namespace :
  result srv h (monitor_cluster_status now body name namespace) = Returns tt
  /\ Forall (entry_satisfies
               (monitor_write_ok name
                  (default [] (appliedMachines (default empty_status (status body))))))
       (trace srv h (monitor_cluster_status now body name namespace)).
Proof.
  destruct (tr_run any_exn _ _ _ _ srv h (raises_only_any srv)
              (monitor_writes now body name namespace)) as [Hcalls Hres].
  split; [|done].
  destruct (result srv h _) as [[]|e]; done.
Qed.

Lemma ac_try_except {A} F (m : prog A) hd :
  always_calls F m -> always_calls F (try_except m hd).
Proof.
  induction 1 as [o k Hk IH|r k Hk IH|r k Hr]; simpl.
  - constructor. apply IH.
  - constructor. intros resp. apply IH.
  - by apply ac_Call_here.
Qed.

Lemma ensure_kubeconfig_secret_returns name namespace c :
  triple any_exn any_call any_value no_exn (ensure_kubeconfig_secret name namespace c).
Proof.
  unfold ensure_kubeconfig_secret. cbv zeta. tr_step; [exact I|].
  eapply tr_try_except with (E1 := any_exn); [apply tr_any|].
  intros e _. repeat tr_step; exact I.
Qed.

Lemma monitor_final_call now body name namespace :
  final_call is_status_write (monitor_cluster_status now body name namespace).
Proof.
  unfold monitor_cluster_status. cbv zeta.
  apply fc_bind_before; [apply cs_log|intros _].
  apply fc_try_after; [|intros e; repeat cs_step].
  destruct (negb (truthy_list _)); [constructor|].
  apply fc_bind_before; [|intros c].
  { eapply triple_cs. apply aggregate_ok. auto. }
  apply fc_bind_before; [|intros _].
  { apply ensure_kubeconfig_secret_other. auto. }
  apply fc_bind_after; [apply update_cluster_status_final|].
  intros _. repeat cs_step.
Qed.

Lemma monitor_always_writes now body name namespace :
  default [] (appliedMachines (default empty_status (status body))) <> [] ->
  always_calls is_status_write (monitor_cluster_status now body name namespace).
Proof.
  intros Happ. unfold monitor_cluster_status. cbv zeta.
  apply truthy_list_true in Happ. rewrite Happ. cbn [negb].
  eapply ac_bind_then with (P := any_call) (Q := any_value);
    [repeat constructor|intros _].
  apply ac_try_except.
  eapply ac_bind_then; [apply aggregate_ok with (P := any_call); done|intros c].
  eapply ac_bind_then; [apply ensure_kubeconfig_secret_returns|intros _].
  apply ac_bind_first. unfold update_cluster_status, call. cbn [bind try_except].
  by apply ac_Call_here.
Qed.

(** X7.  A tick of the monitor whose cluster has no applied machine makes
    no call at all.  Otherwise it always attempts the status write, whatever
    failed while aggregating or harvesting the kubeconfig; in either case it
    writes the status at most once, as its last call. *)
Theorem monitor_tick_shape srv h now body name namespace :
  let applied := default [] (appliedMachines (default empty_status (status body))) in
  trace_final is_status_write
    (trace srv h (monitor_cluster_status now body name namespace))
  /\ (applied = [] ->
      trace srv h (monitor_cluster_status now body name namespace)
      = [EOut (Log DEBUG ("Monitoring cluster status: " +:+ name))])
  /\ (applied <> [] ->
      Exists (fun e => exists r, call_of e = Some r /\ is_status_write r)
        (trace srv h (monitor_cluster_status now body name namespace))).
Proof.
  intros applied. split; [|split].
  - apply fc_run, monitor_final_call.
  - intros Happ. unfold monitor_cluster_status. cbv zeta. fold applied.
    rewrite Happ. reflexivity.
  - intros Happ. by apply ac_run, monitor_always_writes.
Qed.

(** Scenario S5 with a server on which every call fails: nothing can be
    fetched, and the status write is still attempted. *)
Lemma monitor_tick_shape_witness :
  Exists (fun e => exists r, call_of e = Some r /\ is_status_write r)
    (trace (failing_server not_found) []
       (monitor_cluster_status "2024-01-01T00:00:00Z" body_s5 "demo" "default")).
Proof.
  apply (monitor_tick_shape (failing_server not_found) [] "2024-01-01T00:00:00Z"
           body_s5 "demo" "default").
  discriminate.
Defined.

(** ** The kubeconfig harvester *)

Lemma ssh_attempts_app t1 t2 : ssh_attempts (t1 ++ t2) = ssh_attempts t1 ++ ssh_attempts t2.
Proof. apply omap_app. Qed.

Lemma no_ssh_attempts t : Forall (entry_satisfies no_ssh) t -> ssh_attempts t = [].
Proof.
  induction 1 as [|e t He _ IH]; [done|].
  change (e :: t) with ([e] ++ t). rewrite ssh_attempts_app, IH.
  destruct e as [r resp|o]; [|done]. by destruct r.
Qed.

(** One SSH attempt: whatever the command does, the step returns. *)
Lemma ssh_step_run srv h cmd msg (hd : exn -> prog (option string)) :
  (forall e, exists lvl m, hd e = (log lvl m ;;; Ret None)) ->
  let step :=
    try_except
      (result <- call (subprocess_run cmd 10) ;;
       if (returncode result =? 0)%Z && truthy_stripped (stdout result) then
         log INFO msg ;;; Ret (Some (stdout result))
       else Ret None)
      hd in
  ssh_attempts (trace srv h step) = [(cmd, 10%Z, ssh_ok (srv h (subprocess_run cmd 10)))]
  /\ result srv h step
     = match srv h (subprocess_run cmd 10) with
       | Returns r =>
           if ssh_ok (srv h (subprocess_run cmd 10)) then Returns (Some (stdout r))
           else Returns None
       | Raises _ => Returns None
       end.
Proof.
  intros Hhd step. subst step. unfold trace, result.
  cbn [run try_except bind call fst snd].
  destruct (srv h (subprocess_run cmd 10)) as [r|e] eqn:Hr.
  - cbn [ssh_ok run try_except bind call fst snd]. destruct (_ && _) eqn:Hok; cbn; by rewrite ?Hok.
  - destruct (Hhd e) as (lvl & m & Hm).
    cbn [run try_except bind call fst snd]. rewrite Hm. by cbn.
Qed.

Lemma try_kubeconfig_paths_run srv base cp paths : forall h,
  (ssh_attempts (trace srv h (try_kubeconfig_paths base cp paths))
   = failed_attempts base (map (fun p => "cat " +:+ p) paths)
   /\ result srv h (try_kubeconfig_paths base cp paths) = Returns None)
  \/ exists n p s,
       paths !! n = Some p
       /\ ssh_attempts (trace srv h (try_kubeconfig_paths base cp paths))
          = failed_attempts base (map (fun p => "cat " +:+ p) (take n paths))
            ++ [((base ++ ["cat " +:+ p])%list, 10%Z, true)]
       /\ result srv h (try_kubeconfig_paths base cp paths) = Returns (Some s).
Proof.
  induction paths as [|p paths IH]; intros h; [by left|].
  cbn [try_kubeconfig_paths]. cbv zeta.
  rewrite trace_bind, result_bind, ssh_attempts_app.
  match goal with |- context [result srv h (try_except _ ?hd)] =>
    destruct (ssh_step_run srv h (base ++ ["cat " +:+ p])
                ("Found kubeconfig at " +:+ p +:+ " on " +:+ cp) hd) as [Ha Hr]
  end.
  { intros []; eauto. }
  cbv zeta in Ha, Hr. set (step := try_except _ _) in *.
  specialize (IH (h ++ trace srv h step)).
  rewrite Ha, Hr. clear Ha Hr.
  destruct (srv h (subprocess_run _ 10)) as [r|e]; cbn [ssh_ok] in *.
  - destruct (_ && _) eqn:Hok.
    + right. exists 0%nat, p, (stdout r). by rewrite app_nil_r.
    + destruct IH as [[Ha Hr]|(n & q & s & Hq & Ha & Hr)].
      * left. by rewrite Ha, Hr.
      * right. exists (S n), q, s. by rewrite Ha, Hr.
  - destruct IH as [[Ha Hr]|(n & q & s & Hq & Ha & Hr)].
    + left. by rewrite Ha, Hr.
    + right. exists (S n), q, s. by rewrite Ha, Hr.
Qed.

(** After the attempts: the key file is unlinked and the content is passed
    through the YAML library; neither step can fail the harvester. *)
Lemma harvest_tail_run srv h
    (ssh_key_path : option (resp_type (tempfile_mkstemp "nico-ssh-"))) first_cp
    (kubeconfig_content : option string) :
  let tail : prog (option string) :=
    (match ssh_key_path with
     | Some p => try_except (call (os_unlink p)) (fun _ => Ret tt)
     | None => Ret tt
     end ;;;
     match kubeconfig_content with
     | Some content =>
         try_except
           (dumped <- call (yaml_load_dump content) ;; Ret (Some dumped))
           (fun e =>
              log WARNING ("Failed to parse kubeconfig: " +:+ str_exn e) ;;;
              Ret (Some content))
     | None =>
         log WARNING ("Could not extract kubeconfig from " +:+ first_cp) ;;;
         Ret None
     end) in
  ssh_attempts (trace srv h tail) = []
  /\ match kubeconfig_content with
     | Some _ => exists s, result srv h tail = Returns (Some s)
     | None => result srv h tail = Returns None
     end.
Proof.
  intros tail. split.
  - apply no_ssh_attempts, cs_run. subst tail. repeat cs_step; exact I.
  - subst tail. unfold result.
    destruct ssh_key_path as [p|], kubeconfig_content as [content|];
      cbn [run try_except bind call fst snd].
    + destruct (srv h (os_unlink p)) as [[]|e]; cbn [run try_except bind call fst snd];
        match goal with |- context [srv ?h' (yaml_load_dump content)] =>
          destruct (srv h' (yaml_load_dump content)) as [s|e'] end; cbn; eauto.
    + destruct (srv h (os_unlink p)) as [[]|e]; by cbn.
    + destruct (srv h (yaml_load_dump content)) as [s|e']; cbn; eauto.
    + done.
Qed.

Lemma remote_commands_paths n p :
  kubeconfig_paths !! n = Some p ->
  remote_commands !! n = Some ("cat " +:+ p)
  /\ take n remote_commands = map (fun p => "cat " +:+ p) (take n kubeconfig_paths).
Proof.
  do 5 (destruct n as [|n]; [intros [= <-]; by split|]). done.
Qed.

Lemma trace_get_machine srv h machine_name namespace :
  trace srv h (get_machine machine_name namespace)
  = [ECall (get_namespaced_custom_object "nio.homystack.com" "v1alpha1" namespace
              "machines" machine_name)
       (srv h (get_namespaced_custom_object "nio.homystack.com" "v1alpha1" namespace
                 "machines" machine_name))].
Proof. exact (trace_call srv h _). Qed.

Lemma result_get_machine srv h machine_name namespace :
  result srv h (get_machine machine_name namespace)
  = match srv h (get_namespaced_custom_object "nio.homystack.com" "v1alpha1" namespace
                   "machines" machine_name) with
    | Returns a => Returns a
    | Raises e => Raises e
    end.
Proof.
  exact (result_call srv h (get_namespaced_custom_object "nio.homystack.com" "v1alpha1"
                              namespace "machines" machine_name)).
Qed.

(** The [try] block of the harvester, for a first node [first_cp]. *)
Lemma harvest_body_run srv h first_cp namespace (rest : list string) :
  let m := extract_kubeconfig_from_control_plane (first_cp :: rest) namespace in
  exists key target,
    let base :=
      (["ssh"; "-o"; "StrictHostKeyChecking=no"; "-o"; "UserKnownHostsFile=/dev/null"]
       ++ key ++ [target])%list in
    (key = [] \/ exists p, key = ["-i"; p])
    /\ ((result srv h m = Returns None
         /\ (ssh_attempts (trace srv h m) = []
             \/ ssh_attempts (trace srv h m) = failed_attempts base remote_commands))
        \/ exists n c s,
             remote_commands !! n = Some c
             /\ ssh_attempts (trace srv h m)
                = failed_attempts base (take n remote_commands)
                  ++ [((base ++ [c])%list, 10%Z, true)]
             /\ result srv h m = Returns (Some s)).
Proof.
  intros m. subst m. unfold extract_kubeconfig_from_control_plane.
  rewrite trace_try_except, result_try_except.
  rewrite trace_bind, result_bind, trace_get_machine, result_get_machine.
  destruct (srv h (get_namespaced_custom_object _ _ _ _ _)) as [machine|e].
  2:{ exists [], "". cbv zeta. split; [by left|]. left. by split; [|left]. }
  cbv zeta.
  destruct (negb _).
  { exists [], "". split; [by left|]. left. by split; [|left]. }
  rewrite trace_bind, result_bind.
  set (h1 := h ++ [ECall _ _]).
  set (keyprog := match sshKeySecretRef machine with Some _ => _ | None => _ end).
  assert (ssh_attempts (trace srv h1 keyprog) = []) as Hkey.
  { apply no_ssh_attempts, cs_run. subst keyprog. unfold get_secret_data.
    repeat cs_step; exact I. }
  assert (match result srv h1 keyprog with
          | Returns (Some _) => True
          | Returns None => True
          | Raises _ => True
          end) as _ by (by destruct (result srv h1 keyprog) as [[?|]|?]).
  destruct (result srv h1 keyprog) as [ssh_key_path|e].
  2:{ exists [], "". split; [by left|]. left.
      rewrite !ssh_attempts_app, Hkey. by split; [|left]. }
  set (target := default "root" (sshUser machine) +:+ "@" +:+ _).
  set (key := match ssh_key_path with Some p => ["-i"; p] | None => [] end).
  exists key, target. split.
  { subst key. destruct ssh_key_path; eauto. }
  set (base := (_ ++ key ++ [target])%list).
  set (h2 := h1 ++ trace srv h1 keyprog).
  rewrite trace_bind, result_bind.
  destruct (try_kubeconfig_paths_run srv base first_cp kubeconfig_paths h2)
    as [[Ha Hr]|(n & p & s & Hp & Ha & Hr)]; rewrite Hr.
  - (* no path worked: kubectl *)
    rewrite trace_bind, result_bind.
    set (h3 := h2 ++ trace srv h2 _).
    match goal with |- context [result srv h3 (try_except _ ?hd)] =>
      destruct (ssh_step_run srv h3 (base ++ ["kubectl config view --raw"])
                  ("Retrieved kubeconfig via kubectl on " +:+ first_cp) hd) as [Ha' Hr']
    end.
    { intros e. eauto. }
    cbv zeta in Ha', Hr'. set (step := try_except _ _) in *.
    rewrite Hr'.
    destruct (srv h3 (subprocess_run _ 10)) as [r|e]; cbn [ssh_ok] in *.
    + destruct (_ && _) eqn:Hok.
      * cbv beta iota.
        match goal with |- context [trace srv ?h' (bind ?u ?f)] =>
          destruct (harvest_tail_run srv h' ssh_key_path first_cp (Some (stdout r)))
            as [Ht [s Hs]] end.
        cbv zeta beta iota in Ht, Hs. right. exists 5%nat, "kubectl config view --raw", s.
        split; [done|]. rewrite Hs. split; [|done].
        rewrite !ssh_attempts_app, Hkey, Ha, Ha', Ht. by rewrite app_nil_r.
      * cbv beta iota.
        match goal with |- context [trace srv ?h' (bind ?u ?f)] =>
          destruct (harvest_tail_run srv h' ssh_key_path first_cp None)
            as [Ht Hs] end.
        cbv zeta beta iota in Ht, Hs. left. rewrite Hs. split; [done|]. right.
        rewrite !ssh_attempts_app, Hkey, Ha, Ha', Ht. by rewrite app_nil_r.
    + cbv beta iota.
      match goal with |- context [trace srv ?h' (bind ?u ?f)] =>
        destruct (harvest_tail_run srv h' ssh_key_path first_cp None)
          as [Ht Hs] end.
      cbv zeta beta iota in Ht, Hs. left. rewrite Hs. split; [done|]. right.
      rewrite !ssh_attempts_app, Hkey, Ha, Ha', Ht. by rewrite app_nil_r.
  - (* a path worked *)
    rewrite trace_bind, result_bind.
    change (result srv ?h' (Ret (Some s))) with (@Returns (option string) (Some s)).
    change (trace srv ?h' (Ret (Some s))) with (@nil entry). cbv beta iota.
    match goal with |- context [trace srv ?h' (bind ?u ?f)] =>
      destruct (harvest_tail_run srv h' ssh_key_path first_cp (Some s))
        as [Ht [s' Hs]] end.
    cbv zeta beta iota in Ht, Hs. destruct (remote_commands_paths n p Hp) as [Hc Htake].
    right. exists n, ("cat " +:+ p), s'. split; [done|]. rewrite Hs. split; [|done].
    rewrite !ssh_attempts_app, Hkey, Ha, Ht, Htake. by rewrite !app_nil_r.
Qed.

(** X8.  The harvester never raises.  Its SSH commands all share one
    prefix, [ssh -o StrictHostKeyChecking=no -o UserKnownHostsFile=/dev/null],
    then [-i <key file>] or nothing, then one target, and all have a
    time-out of 10 s.  The remote commands are tried in a fixed order: [cat]
    of the five kubeconfig paths, then [kubectl config view --raw].  Either
    the result is [None], and then no SSH command was run at all or all six
    were run and failed; or some command succeeded, every command before it
    was run and failed, none was run after it, and the result is a
    kubeconfig. *)
Theorem harvest_ssh_attempts srv h nodes namespace :
  let m := extract_kubeconfig_from_control_plane nodes namespace in
  exists key target,
    let base :=
      (["ssh"; "-o"; "StrictHostKeyChecking=no"; "-o"; "UserKnownHostsFile=/dev/null"]
       ++ key ++ [target])%list in
    (key = [] \/ exists p, key = ["-i"; p])
    /\ ((result srv h m = Returns None
         /\ (ssh_attempts (trace srv h m) = []
             \/ ssh_attempts (trace srv h m) = failed_attempts base remote_commands))
        \/ exists n c s,
             remote_commands !! n = Some c
             /\ ssh_attempts (trace srv h m)
                = failed_attempts base (take n remote_commands)
                  ++ [((base ++ [c])%list, 10%Z, true)]
             /\ result srv h m = Returns (Some s)).
Proof.
  destruct nodes as [|first_cp rest]; [|apply harvest_body_run].
  exists [], "". cbv zeta. split; [by left|]. left. by split; [|left].
Qed.

(** A command whose output is white space only has failed, also outside
    ASCII: a no-break space (U+00A0, bytes C2 A0) and a newline are blank,
    a zero-width space (U+200B, bytes E2 80 8B) is not. *)
Example ssh_ok_blank_output :
  ssh_ok (Returns {| returncode := 0;
                     stdout := String (ascii_of_nat 194) (String (ascii_of_nat 160)
                                 (String (ascii_of_nat 10) EmptyString)) |}) = false
  /\ ssh_ok (Returns {| returncode := 0;
                        stdout := String (ascii_of_nat 226) (String (ascii_of_nat 128)
                                    (String (ascii_of_nat 139) EmptyString)) |}) = true.
Proof. by vm_compute. Qed.

(** ** Calls that need a reason *)

Section Guarded.
Context (G : entry -> Prop) (F : request -> Prop).

Lemma gd_of_cs {A} (m : prog A) : calls_satisfy (fun r => ~ F r) m -> guarded G F m.
Proof. induction 1; constructor; auto. Qed.

Lemma gd_bind {A B} (m : prog A) (f : A -> prog B) :
  guarded G F m -> (forall a, guarded G F (f a)) -> guarded G F (bind m f).
Proof. intros Hm Hf. induction Hm; simpl; auto; constructor; auto. Qed.

Lemma gd_try_except {A} (m : prog A) hd :
  guarded G F m -> (forall e, guarded G F (hd e)) -> guarded G F (try_except m hd).
Proof. intros Hm Hh. induction Hm; simpl; auto; constructor; auto. Qed.

Lemma gd_run {A} (m : prog A) srv h :
  (forall e, G e \/ ~ G e) ->
  guarded G F m -> trace_guarded G F (trace srv h m).
Proof.
  unfold trace, trace_guarded. intros HG Hm. revert h.
  induction Hm as [a|e|o k Hk IH|r k Hr Hk IH]; intros h t1 r' resp' t2; simpl.
  - by destruct t1.
  - by destruct t1.
  - specialize (IH (h ++ [EOut o])). destruct (run srv _ k) as [t res]. simpl in *.
    destruct t1 as [|e1 t1]; [done|]. intros [= <- ->] HF.
    apply Exists_cons_tl. by eapply IH.
  - specialize (IH (srv h r)).
    destruct (run srv _ (k (srv h r))) as [t res] eqn:Hrun. simpl.
    destruct t1 as [|e1 t1].
    + intros [= <- _ _] HF. done.
    + intros [= <- ->] HF. destruct (HG (ECall r (srv h r))) as [Hg|Hg].
      * by apply Exists_cons_hd.
      * apply Exists_cons_tl. specialize (IH Hg (h ++ [ECall r (srv h r)])).
        rewrite Hrun in IH. by eapply IH.
Qed.
End Guarded.

Lemma kubeconfig_not_found_dec name e :
  kubeconfig_not_found name e \/ ~ kubeconfig_not_found name e.
Proof.
  destruct e as [r resp|o]; [|right; simpl; tauto].
  destruct r; try (right; simpl; tauto).
  destruct resp as [?|e]; [right; simpl; tauto|].
  destruct e as [status text| | | |]; try (right; simpl; tauto). simpl.
  destruct (decide (name0 = name +:+ "-kubeconfig")); [|right; tauto].
  destruct (decide (status = 404%Z)); [by left|right; tauto].
Qed.

Lemma ensure_kubeconfig_secret_guarded name namespace c :
  guarded (kubeconfig_not_found name) is_ssh_call
    (ensure_kubeconfig_secret name namespace c).
Proof.
  unfold ensure_kubeconfig_secret. cbv zeta.
  destruct (all_control_plane_ready _ _); [|constructor]. cbn [when].
  apply gd_try_except; [|intros e; apply gd_of_cs; repeat cs_step].
  unfold call. cbn [bind try_except]. constructor; [by intros []|].
  intros [s|e] Hg; cbn [bind try_except]; [constructor|].
  destruct e as [status text| | | |]; try constructor.
  destruct (status =? 404)%Z eqn:Hs; [|constructor].
  exfalso. apply Hg. simpl. split; [done|]. by apply Z.eqb_eq.
Qed.

Lemma monitor_guarded now body name namespace :
  guarded (kubeconfig_not_found name) is_ssh_call
    (monitor_cluster_status now body name namespace).
Proof.
  unfold monitor_cluster_status. cbv zeta.
  apply gd_bind; [apply gd_of_cs, cs_log|intros _].
  apply gd_try_except; [|intros e; apply gd_of_cs; repeat cs_step].
  destruct (negb _); [constructor|].
  apply gd_bind; [|intros c].
  { apply gd_of_cs. unfold aggregate, check_machine, get_nixos_configuration, get_machine.
    repeat cs_step; by intros []. }
  apply gd_bind; [apply ensure_kubeconfig_secret_guarded|intros _].
  apply gd_of_cs. unfold update_cluster_status. repeat cs_step. by intros [].
Qed.

(** X9.  A tick of the monitor runs an SSH command only after its read of
    the Secret [<cluster>-kubeconfig] was answered with status 404: once
    the Secret exists, or while its read fails in any other way, no machine
    is contacted. *)
Theorem monitor_ssh_needs_missing_secret srv h now body name namespace :
  trace_guarded (kubeconfig_not_found name) is_ssh_call
    (trace srv h (monitor_cluster_status now body name namespace)).
Proof. apply gd_run; [apply kubeconfig_not_found_dec|apply monitor_guarded]. Qed.

(** The guard is not vacuous: with [cp-01] ready and the Secret missing,
    [cp-01] is asked for its kubeconfig. *)
Example monitor_runs_ssh_when_secret_missing :
  ssh_attempts (trace (world_server world_ready) []
                  (monitor_cluster_status "2024-01-01T00:00:00Z" body_ready "demo"
                     "default"))
  = [(["ssh"; "-o"; "StrictHostKeyChecking=no"; "-o"; "UserKnownHostsFile=/dev/null";
       "root@cp-01.local"; "cat /etc/rancher/k3s/k3s.yaml"], 10%Z, true)].
Proof. vm_compute. reflexivity. Qed.

(** With [cp-01] ready and the Secret missing, the SSH command comes after
    the read that was answered with 404. *)
Lemma monitor_ssh_needs_missing_secret_witness :
  exists t1 r resp t2,
    trace (world_server world_ready) []
      (monitor_cluster_status "2024-01-01T00:00:00Z" body_ready "demo" "default")
    = t1 ++ ECall r resp :: t2
    /\ is_ssh_call r
    /\ Exists (kubeconfig_not_found "demo") t1.
Proof.
  pose proof (monitor_ssh_needs_missing_secret (world_server world_ready) []
                "2024-01-01T00:00:00Z" body_ready "demo" "default") as H.
  unfold trace_guarded in H.
  eexists (take 5 (trace (world_server world_ready) []
      (monitor_cluster_status "2024-01-01T00:00:00Z" body_ready "demo" "default"))),
    _, _, _.
  split; [vm_compute; reflexivity|]. split; [exact I|].
  eapply H; [vm_compute; reflexivity|exact I].
Defined.

(** ** The key file of the harvester *)

Lemma harvest_steps_app t1 t2 :
  harvest_steps (t1 ++ t2) = harvest_steps t1 ++ harvest_steps t2.
Proof. apply omap_app. Qed.

Lemma harvest_steps_none t :
  Forall (entry_satisfies (fun r => key_or_ssh r = false)) t -> harvest_steps t = [].
Proof.
  induction 1 as [|e t He _ IH]; [done|].
  change (e :: t) with ([e] ++ t). rewrite harvest_steps_app, IH.
  destruct e as [r resp|o]; [|done]. simpl in He. unfold harvest_steps. simpl.
  by rewrite He.
Qed.

Lemma harvest_steps_ssh base t :
  Forall (entry_satisfies (fun r => exists c, r = subprocess_run (base ++ [c]) 10)) t ->
  Forall (ssh_over base) (harvest_steps t).
Proof.
  induction 1 as [|e t He _ IH]; [constructor|].
  change (e :: t) with ([e] ++ t). rewrite harvest_steps_app. apply Forall_app. split; [|done].
  destruct e as [r resp|o]; [|constructor]. destruct He as [c ->].
  repeat constructor. by exists c, resp.
Qed.

Lemma try_kubeconfig_paths_ssh base cp paths :
  calls_satisfy (fun r => exists c, r = subprocess_run (base ++ [c]) 10)
    (try_kubeconfig_paths base cp paths).
Proof.
  induction paths as [|p paths IH]; [constructor|].
  cbn [try_kubeconfig_paths]. repeat cs_step; eauto.
Qed.

Lemma try_kubeconfig_paths_returns srv base cp paths h :
  exists kc, result srv h (try_kubeconfig_paths base cp paths) = Returns kc.
Proof.
  destruct (try_kubeconfig_paths_run srv base cp paths h)
    as [[_ Hr]|(n & p & s & _ & _ & Hr)]; eauto.
Qed.

(** What follows the writing of the key file: the SSH attempts, then the
    removal of the file. *)
Lemma harvest_rest_steps srv h base first_cp
    (ssh_key_path : option (resp_type (tempfile_mkstemp "nico-ssh-"))) :
  let rest : prog (option string) :=
    (kubeconfig_content <- try_kubeconfig_paths base first_cp kubeconfig_paths ;;
     kubeconfig_content <-
       match kubeconfig_content with
       | Some _ => Ret kubeconfig_content
       | None =>
           try_except
             (let cmd := (base ++ ["kubectl config view --raw"])%list in
              result <- call (subprocess_run cmd 10) ;;
              if (returncode result =? 0)%Z && truthy_stripped (stdout result) then
                log INFO ("Retrieved kubeconfig via kubectl on " +:+ first_cp) ;;;
                Ret (Some (stdout result))
              else Ret None)
             (fun e =>
                log DEBUG ("Failed to run kubectl: " +:+ str_exn e) ;;; Ret None)
       end ;;
     match ssh_key_path with
     | Some p => try_except (call (os_unlink p)) (fun _ => Ret tt)
     | None => Ret tt
     end ;;;
     match kubeconfig_content with
     | Some content =>
         try_except
           (dumped <- call (yaml_load_dump content) ;; Ret (Some dumped))
           (fun e =>
              log WARNING ("Failed to parse kubeconfig: " +:+ str_exn e) ;;;
              Ret (Some content))
     | None =>
         log WARNING ("Could not extract kubeconfig from " +:+ first_cp) ;;;
         Ret None
     end) in
  exists sshs,
    Forall (ssh_over base) sshs
    /\ match ssh_key_path with
       | Some p =>
           exists resp, harvest_steps (trace srv h rest) = sshs ++ [ECall (os_unlink p) resp]
       | None => harvest_steps (trace srv h rest) = sshs
       end.
Proof.
  intros rest. subst rest.
  rewrite trace_bind.
  destruct (try_kubeconfig_paths_returns srv base first_cp kubeconfig_paths h) as [kc Hkc].
  rewrite Hkc.
  pose proof (harvest_steps_ssh base _
                (cs_run _ _ srv h (try_kubeconfig_paths_ssh base first_cp kubeconfig_paths)))
    as Hs1.
  set (h1 := h ++ _).
  rewrite trace_bind.
  set (fallback := match kc with Some _ => _ | None => _ end).
  assert (Forall (ssh_over base) (harvest_steps (trace srv h1 fallback))) as Hs2.
  { apply harvest_steps_ssh, cs_run. subst fallback. repeat cs_step; eauto. }
  assert (exists kc', result srv h1 fallback = Returns kc') as [kc' Hkc'].
  { subst fallback. destruct kc as [s|]; [by eexists|].
    match goal with |- context [try_except _ ?hd] =>
      destruct (ssh_step_run srv h1 (base ++ ["kubectl config view --raw"])
                  ("Retrieved kubeconfig via kubectl on " +:+ first_cp) hd) as [_ Hr]
    end; [intros e; eauto|].
    cbv zeta in Hr. cbv zeta. rewrite Hr.
    destruct (srv h1 _) as [r|e]; [destruct (ssh_ok _)|]; eauto. }
  rewrite Hkc'. set (h2 := h1 ++ _).
  rewrite trace_bind.
  set (unlink := match ssh_key_path with Some _ => _ | None => _ end).
  set (final := match kc' with Some _ => _ | None => _ end).
  assert (result srv h2 unlink = Returns tt) as Hu.
  { subst unlink. destruct ssh_key_path as [p|]; [|done].
    unfold result. cbn [run try_except call fst snd].
    destruct (srv h2 (os_unlink p)) as [[]|e]; by cbn. }
  rewrite Hu.
  assert (harvest_steps (trace srv (h2 ++ trace srv h2 unlink) final) = []) as Hf.
  { apply harvest_steps_none, cs_run. subst final. repeat cs_step; done. }
  exists (harvest_steps (trace srv h (try_kubeconfig_paths base first_cp kubeconfig_paths))
          ++ harvest_steps (trace srv h1 fallback)).
  split; [by apply Forall_app|].
  rewrite !harvest_steps_app, Hf, app_nil_r.
  subst unlink. destruct ssh_key_path as [p|].
  - exists (srv h2 (os_unlink p)). rewrite <- app_assoc. do 2 f_equal.
    unfold trace. cbn [run try_except call fst snd].
    destruct (srv h2 (os_unlink p)) as [[]|e]; by cbn.
  - by rewrite app_nil_r.
Qed.

(** Writing the key file. *)
Lemma key_file_write_run srv h private_key :
  let mk := tempfile_mkstemp "nico-ssh-" in
  let write : prog (option (resp_type mk)) :=
    (ssh_key_path <- call mk ;;
     call (file_write ssh_key_path private_key) ;;;
     call (os_chmod ssh_key_path 384) ;;;
     Ret (Some ssh_key_path)) in
  (exists e, harvest_steps (trace srv h write) = [ECall mk (Raises e)]
             /\ result srv h write = Raises e)
  \/ (exists p e,
        harvest_steps (trace srv h write)
        = [ECall mk (Returns p); ECall (file_write p private_key) (Raises e)]
        /\ result srv h write = Raises e)
  \/ (exists p e,
        harvest_steps (trace srv h write)
        = [ECall mk (Returns p); ECall (file_write p private_key) (Returns tt);
           ECall (os_chmod p 384) (Raises e)]
        /\ result srv h write = Raises e)
  \/ (exists p,
        harvest_steps (trace srv h write)
        = [ECall mk (Returns p); ECall (file_write p private_key) (Returns tt);
           ECall (os_chmod p 384) (Returns tt)]
        /\ result srv h write = Returns (Some p)).
Proof.
  intros mk write. subst mk write. unfold trace, result.
  cbn [run bind call fst snd].
  destruct (srv h (tempfile_mkstemp "nico-ssh-")) as [p|e]; cbn [run bind call fst snd].
  2:{ left. by exists e. }
  right.
  match goal with |- context [srv ?h' (file_write p private_key)] =>
    destruct (srv h' (file_write p private_key)) as [[]|e] end;
    cbn [run bind call fst snd].
  2:{ left. by exists p, e. }
  right.
  match goal with |- context [srv ?h' (os_chmod p 384)] =>
    destruct (srv h' (os_chmod p 384)) as [[]|e] end;
    cbn [run bind call fst snd].
  2:{ left. by exists p, e. }
  right. by exists p.
Qed.

(** X10.  The harvester handles the SSH key of the first control-plane
    machine in one of five ways, read off its steps on temporary files and
    its SSH commands.  Without a key it runs its SSH commands without [-i].
    With a key it creates a temporary file; if creating, writing or the
    [chmod] to 0600 fails, it runs no SSH command and removes nothing, so a
    file already created stays behind; otherwise every SSH command uses
    [-i <file>], and the file is unlinked once, after the last of them. *)
Theorem harvest_key_file srv h nodes namespace :
  let steps :=
    harvest_steps (trace srv h (extract_kubeconfig_from_control_plane nodes namespace)) in
  let mk := tempfile_mkstemp "nico-ssh-" in
  (exists target sshs,
      Forall (ssh_over (ssh_options ++ [target])) sshs /\ steps = sshs)
  \/ (exists e, steps = [ECall mk (Raises e)])
  \/ (exists p key e,
        steps = [ECall mk (Returns p); ECall (file_write p key) (Raises e)])
  \/ (exists p key e,
        steps = [ECall mk (Returns p); ECall (file_write p key) (Returns tt);
                 ECall (os_chmod p 384) (Raises e)])
  \/ (exists p key target sshs resp,
        Forall (ssh_over (ssh_options ++ ["-i"; p] ++ [target])) sshs
        /\ steps = [ECall mk (Returns p); ECall (file_write p key) (Returns tt);
                    ECall (os_chmod p 384) (Returns tt)]
                   ++ sshs ++ [ECall (os_unlink p) resp]).
Proof.
  intros steps mk. subst steps mk.
  assert (forall P : Prop, (exists target : string, exists sshs : list entry,
             Forall (ssh_over (ssh_options ++ [target])) sshs /\ [] = sshs) \/ P) as Hnone.
  { intros P. left. exists "", []. by split. }
  destruct nodes as [|first_cp rest]; [apply Hnone|].
  unfold extract_kubeconfig_from_control_plane.
  rewrite trace_try_except, harvest_steps_app.
  set (body := bind (get_machine first_cp namespace) _).
  assert (forall e h',
            harvest_steps
              (trace srv h' (log ERROR ("Failed to extract kubeconfig: " +:+ str_exn e) ;;;
                             Ret (@None string))) = []) as Hhd by done.
  assert (harvest_steps
            match result srv h body with
            | Returns _ => []
            | Raises e =>
                trace srv (h ++ trace srv h body)
                  (log ERROR ("Failed to extract kubeconfig: " +:+ str_exn e) ;;;
                   Ret (@None string))
            end = []) as ->.
  { destruct (result srv h body); [done|apply Hhd]. }
  rewrite app_nil_r. clear Hhd. subst body.
  rewrite trace_bind, trace_get_machine, result_get_machine.
  destruct (srv h (get_namespaced_custom_object _ _ _ _ _)) as [machine|e];
    [|apply Hnone].
  cbv zeta. destruct (negb _); [apply Hnone|].
  rewrite harvest_steps_app. change (harvest_steps [ECall _ _]) with (@nil entry).
  rewrite app_nil_l.
  set (h1 := h ++ [ECall _ _]).
  set (target := default "root" (sshUser machine) +:+ "@" +:+ _).
  rewrite trace_bind, harvest_steps_app.
  destruct (sshKeySecretRef machine) as [key_name|].
  2:{ (* no key *)
      change (trace srv h1 (Ret None)) with (@nil entry).
      change (result srv h1 (Ret (@None (resp_type (tempfile_mkstemp "nico-ssh-")))))
        with (@Returns (option (resp_type (tempfile_mkstemp "nico-ssh-"))) None).
      cbv beta iota. rewrite app_nil_l.
      match goal with |- context [trace srv ?h' _] =>
        destruct (harvest_rest_steps srv h' (ssh_options ++ [] ++ [target]) first_cp None)
          as (sshs & Hs & Ht) end.
      cbv zeta in Ht. left. exists target, sshs. split; [exact Hs|exact Ht]. }
  rewrite trace_bind, result_bind, harvest_steps_app.
  assert (harvest_steps (trace srv h1 (get_secret_data key_name namespace)) = []) as ->.
  { apply harvest_steps_none, cs_run. unfold get_secret_data. repeat cs_step; done. }
  rewrite app_nil_l.
  destruct (result srv h1 (get_secret_data key_name namespace)) as [secret_data|e].
  2:{ rewrite app_nil_r. apply Hnone. }
  set (h2 := h1 ++ _).
  destruct (dict_get "ssh-privatekey" secret_data) as [private_key|].
  2:{ change (trace srv h2 (Ret None)) with (@nil entry).
      change (result srv h2 (Ret (@None (resp_type (tempfile_mkstemp "nico-ssh-")))))
        with (@Returns (option (resp_type (tempfile_mkstemp "nico-ssh-"))) None).
      cbv beta iota. rewrite app_nil_l.
      match goal with |- context [trace srv ?h' _] =>
        destruct (harvest_rest_steps srv h' (ssh_options ++ [] ++ [target]) first_cp None)
          as (sshs & Hs & Ht) end.
      cbv zeta in Ht. left. exists target, sshs. split; [exact Hs|exact Ht]. }
  destruct (key_file_write_run srv h2 private_key)
    as [(e & Hs & Hr)|[(p & e & Hs & Hr)|[(p & e & Hs & Hr)|(p & Hs & Hr)]]];
    cbv zeta in Hs, Hr; rewrite Hs, Hr.
  - right. left. by exists e.
  - right. right. left. by exists p, private_key, e.
  - right. right. right. left. by exists p, private_key, e.
  - right. right. right. right.
    match goal with |- context [trace srv ?h' _] =>
      destruct (harvest_rest_steps srv h' (ssh_options ++ ["-i"; p] ++ [target]) first_cp
                  (Some p)) as (sshs & Hs' & resp & Ht) end.
    cbv zeta in Ht. exists p, private_key, target, sshs, resp. split; [exact Hs'|].
    f_equal. exact Ht.
Qed.

(** ** Children as created *)

Lemma created_spec_drift spec (existing : NixosConfigSpec) :
  cfg_gitRepo existing = Some (gitRepo spec) ->
  cfg_configurationSubdir existing = Some (default "" (configurationSubdir spec)) ->
  cfg_ref existing = (if truthy_opt truthy_str (ref spec) then ref spec else None) ->
  cfg_credentialsRef existing
  = (if truthy_opt truthy_dict (credentialsRef spec) then credentialsRef spec else None) ->
  spec_updates spec existing = creation_drift spec.
Proof.
  intros Hrepo Hsub Href Hcreds. unfold spec_updates, creation_drift. cbv zeta.
  rewrite Hrepo, Hsub, Href, Hcreds. clear.
  rewrite (bool_decide_eq_false_2 (Some (gitRepo spec) ≠ Some (gitRepo spec))) by tauto.
  cbn [default].
  rewrite (bool_decide_eq_false_2
             (default "" (configurationSubdir spec) ≠ default "" (configurationSubdir spec)))
    by tauto.
  destruct (ref spec) as [[|c r]|]; cbn [truthy_opt truthy_str];
    destruct (credentialsRef spec) as [d|]; cbn [truthy_opt];
    unfold truthy_dict; repeat case_bool_decide; simplify_eq; try done.
Qed.

Lemma creation_drift_nil spec :
  creation_drift spec = [] <-> ref spec <> Some "" /\ credentialsRef spec <> Some ∅.
Proof.
  unfold creation_drift. repeat case_bool_decide; simpl; split; try done; tauto.
Qed.

Lemma create_for_machine_in_sync name uid machine_name role spec namespace token cp
    workers info :
  calls_satisfy (created_in_sync spec name)
    (create_nixos_configuration_for_machine name uid machine_name role spec namespace
       token cp workers info).
Proof.
  unfold create_nixos_configuration_for_machine, create_nixos_configuration_with_owner,
    get_machine.
  repeat cs_step; try exact I.
  split; [by apply created_spec_drift|]. by exists machine_name.
Qed.

Lemma ensure_configuration_in_sync name uid machine_name role spec namespace token cp
    workers info applied :
  calls_satisfy (created_in_sync spec name)
    (ensure_configuration name uid machine_name role spec namespace token cp workers info
       applied).
Proof.
  unfold ensure_configuration, get_nixos_configuration, patch_nixos_configuration_spec.
  cs_step; [repeat cs_step; exact I|].
  cs_step; [|constructor].
  cs_step; [apply create_for_machine_in_sync|]. repeat cs_step.
Qed.

Lemma reconcile_in_sync now body spec name namespace :
  calls_satisfy (created_in_sync spec name)
    (reconcile_kubernetes_cluster now body spec name namespace).
Proof.
  unfold reconcile_kubernetes_cluster, reconcile_body.
  cs_step; [cs_step|]. cs_step; [|repeat cs_step].
  destruct (truthy_opt truthy_str (deletionTimestamp body)).
  { eapply cs_weaken; [|apply deletion_calls]. by intros r []. }
  destruct (negb _); [constructor|].
  cs_step. { unfold select_machines_for_cluster, list_machines. repeat cs_step; exact I. }
  cs_step. { unfold select_machines_for_cluster, list_machines. repeat cs_step; exact I. }
  cs_step; [constructor|].
  cs_step. { unfold create_join_token_secret, create_secret. repeat cs_step; exact I. }
  cs_step. { unfold get_machine. repeat cs_step; exact I. }
  cs_step. { cs_step. apply ensure_configuration_in_sync. }
  cs_step. { cs_step. apply ensure_configuration_in_sync. }
  unfold update_cluster_status. repeat cs_step; exact I.
Qed.

(** X11.  Every child a reconcile creates is named [<cluster>-<machine>]
    for the machine it refers to, builds the flake output [#<machine>], and
    is in sync with the parent: against the spec it was created from, the
    drift check finds nothing, except that a [ref] equal to the empty
    string and a [credentialsRef] equal to the empty dict are left out of
    the child at creation and are found as drift (and patched) by a later
    reconcile. *)
Theorem created_children_in_sync srv h now body spec name namespace :
  Forall (entry_satisfies (created_in_sync spec name))
    (trace srv h (reconcile_kubernetes_cluster now body spec name namespace))
  /\ (creation_drift spec = [] <-> ref spec <> Some "" /\ credentialsRef spec <> Some ∅).
Proof. split; [apply cs_run, reconcile_in_sync|apply creation_drift_nil]. Qed.

(** A fresh cluster whose [ref] is the empty string: the child is created
    without [ref], and the next drift check would patch [ref]. *)
Example empty_ref_is_drift :
  let spec :=
    {| gitRepo := gitRepo spec_fresh; ref := Some ""; configurationSubdir := None;
       credentialsRef := None; controlPlane := controlPlane spec_fresh;
       dataPlane := dataPlane spec_fresh |} in
  omap (fun e =>
          match e with
          | ECall (create_namespaced_custom_object _ _ _ _ child) _ =>
              Some (body_name child, cfg_ref (body_spec child),
                    spec_updates spec (body_spec child))
          | _ => None
          end)
    (trace (world_server world_fresh) []
       (reconcile_kubernetes_cluster "2024-01-01T00:00:00Z" body_fresh spec
          "demo" "default"))
  = [("demo-cp-01", None, [("ref", PStr "")])].
Proof. vm_compute. reflexivity. Qed.

(** ** Properties of whole executions *)

Section Always.
Context (R : exn -> Prop).

Lemma al_mono {A} (m : prog A) (Φ Ψ : list entry -> outcome A -> Prop) :
  (forall t res, Φ t res -> Ψ t res) -> always R m Φ -> always R m Ψ.
Proof.
  revert Φ Ψ. induction m as [a|e|o k IH|r k IH]; intros Φ Ψ HΦΨ; simpl.
  - apply HΦΨ.
  - apply HΦΨ.
  - apply IH. intros t res. apply HΦΨ.
  - intros Hk resp Hresp. eapply IH; [|by apply Hk]. intros t res. apply HΦΨ.
Qed.

Lemma al_conj {A} (m : prog A) (Φ Ψ : list entry -> outcome A -> Prop) :
  always R m Φ -> always R m Ψ -> always R m (fun t res => Φ t res /\ Ψ t res).
Proof.
  revert Φ Ψ. induction m as [a|e|o k IH|r k IH]; intros Φ Ψ; simpl.
  - done.
  - done.
  - intros H1 H2. by apply (IH _ _ H1 H2).
  - intros H1 H2 resp Hresp. by apply (IH _ _ _ (H1 resp Hresp) (H2 resp Hresp)).
Qed.

Lemma al_bind {A B} (m : prog A) (f : A -> prog B)
    (Φ1 : list entry -> outcome A -> Prop) (Φ : list entry -> outcome B -> Prop) :
  always R m Φ1 ->
  (forall t a, Φ1 t (Returns a) -> always R (f a) (fun t' res => Φ (t ++ t') res)) ->
  (forall t e, Φ1 t (Raises e) -> Φ t (Raises e)) ->
  always R (bind m f) Φ.
Proof.
  revert Φ1 Φ. induction m as [a|e|o k IH|r k IH]; intros Φ1 Φ; simpl.
  - intros Ha Hf _. by apply (Hf [] a).
  - intros He _ Hr. by apply Hr.
  - intros Hk Hf Hr. eapply IH; [exact Hk| |].
    + intros t a Ha. by apply (Hf (EOut o :: t) a).
    + intros t e He. by apply Hr.
  - intros Hk Hf Hr resp Hresp. eapply IH; [by apply Hk| |].
    + intros t a Ha. by apply (Hf (ECall r resp :: t) a).
    + intros t e He. by apply Hr.
Qed.

Lemma al_try_except {A} (m : prog A) (hd : exn -> prog A)
    (Φ1 Φ : list entry -> outcome A -> Prop) :
  always R m Φ1 ->
  (forall t a, Φ1 t (Returns a) -> Φ t (Returns a)) ->
  (forall t e, Φ1 t (Raises e) -> always R (hd e) (fun t' res => Φ (t ++ t') res)) ->
  always R (try_except m hd) Φ.
Proof.
  revert Φ1 Φ. induction m as [a|e|o k IH|r k IH]; intros Φ1 Φ; simpl.
  - intros Ha Hr _. by apply Hr.
  - intros He _ Hh. by apply (Hh [] e).
  - intros Hk Hr Hh. eapply IH; [exact Hk| |].
    + intros t a Ha. by apply Hr.
    + intros t e He. by apply (Hh (EOut o :: t) e).
  - intros Hk Hr Hh resp Hresp. eapply IH; [by apply Hk| |].
    + intros t a Ha. by apply Hr.
    + intros t e He. by apply (Hh (ECall r resp :: t) e).
Qed.

Lemma al_for_each {S X} (I : list X -> list entry -> S -> Prop)
    (E : list entry -> exn -> Prop) (l : list X) (s : S) (body : S -> X -> prog S) :
  I [] [] s ->
  (forall done t s x,
      I done t s ->
      always R (body s x)
        (fun t' res =>
           match res with
           | Returns s' => I (done ++ [x]) (t ++ t') s'
           | Raises e => E (t ++ t') e
           end)) ->
  always R (for_each l s body)
    (fun t res => match res with Returns s' => I l t s' | Raises e => E t e end).
Proof.
  intros Hs Hb.
  assert (forall done t l s,
             I done t s ->
             always R (for_each l s body)
               (fun t' res =>
                  match res with
                  | Returns s' => I (done ++ l) (t ++ t') s'
                  | Raises e => E (t ++ t') e
                  end)) as Hgen.
  { intros done0 t l'. revert done0 t.
    induction l' as [|x l' IH]; intros done0 t s0 Hs0; simpl.
    - by rewrite !app_nil_r.
    - eapply al_bind; [by apply (Hb done0 t)| |].
      + intros t1 s1 Hs1. cbv beta in Hs1.
        eapply al_mono; [|by apply (IH (done0 ++ [x]) (t ++ t1))].
        intros t2 [s2|e]; cbv beta; rewrite <- !app_assoc; done.
      + intros t1 e He. exact He. }
  exact (Hgen [] [] l s Hs).
Qed.

Lemma al_run {A} (m : prog A) (Φ : list entry -> outcome A -> Prop) srv h :
  raises_only R srv -> always R m Φ -> Φ (trace srv h m) (result srv h m).
Proof.
  unfold trace, result. intros Hsrv. revert Φ h.
  induction m as [a|e|o k IH|r k IH]; intros Φ h; simpl.
  - done.
  - done.
  - intros Hk. specialize (IH _ (h ++ [EOut o]) Hk). by destruct (run srv _ k).
  - intros Hk.
    assert (answer_ok R (srv h r)) as Hresp.
    { destruct (srv h r) eqn:Hr; [done|]. by eapply Hsrv. }
    specialize (IH (srv h r) _ (h ++ [ECall r (srv h r)]) (Hk _ Hresp)).
    by destruct (run srv _ (k (srv h r))).
Qed.

Lemma al_of_triple {A} P (Q : A -> Prop) E (m : prog A) :
  triple R P Q E m ->
  always R m (fun t res =>
                Forall (entry_satisfies P) t
                /\ match res with Returns a => Q a | Raises e => E e end).
Proof.
  induction 1 as [a Ha|e He|o k Hk IH|r k Hr Hk IH]; simpl.
  - by split.
  - by split.
  - eapply al_mono; [|exact IH]. intros t res [Ht Hres]. split; [|done].
    by constructor.
  - intros resp Hresp. eapply al_mono; [|by apply IH]. intros t res [Ht Hres].
    split; [|done]. by constructor.
Qed.

Lemma al_of_steps {A} P (m : prog A) :
  steps_satisfy P m -> always R m (fun t _ => Forall P t).
Proof.
  induction 1 as [a|e|o k Ho Hk IH|r k Hr Hk IH]; simpl; try done.
  - eapply al_mono; [|exact IH]. intros t res Ht. by constructor.
  - intros resp _. eapply al_mono; [|by apply IH]. intros t res Ht. by constructor.
Qed.
End Always.

Section StepsSatisfy.
Context (P : entry -> Prop).

Lemma ss_bind {A B} (m : prog A) (f : A -> prog B) :
  steps_satisfy P m -> (forall a, steps_satisfy P (f a)) -> steps_satisfy P (bind m f).
Proof. intros Hm Hf. induction Hm; simpl; auto; constructor; auto. Qed.

Lemma ss_try_except {A} (m : prog A) (hd : exn -> prog A) :
  steps_satisfy P m -> (forall e, steps_satisfy P (hd e)) ->
  steps_satisfy P (try_except m hd).
Proof. intros Hm Hh. induction Hm; simpl; auto; constructor; auto. Qed.

Lemma ss_call r : (forall resp, P (ECall r resp)) -> steps_satisfy P (call r).
Proof. intros Hr. constructor; [done|]. intros [a|e]; constructor. Qed.

Lemma ss_log lvl msg : P (EOut (Log lvl msg)) -> steps_satisfy P (log lvl msg).
Proof. intros. repeat constructor. done. Qed.

Lemma ss_metric m : P (EOut (Metric m)) -> steps_satisfy P (metric m).
Proof. intros. repeat constructor. done. Qed.

Lemma ss_when c m : (c = true -> steps_satisfy P m) -> steps_satisfy P (when c m).
Proof. destruct c; simpl; auto. constructor. Qed.

Lemma ss_for_each {S X} (l : list X) (s : S) (body : S -> X -> prog S) :
  (forall s x, steps_satisfy P (body s x)) -> steps_satisfy P (for_each l s body).
Proof.
  intros Hb. revert s. induction l as [|x l IH]; intros s; simpl.
  - constructor.
  - apply ss_bind; auto.
Qed.

Lemma ss_run {A} (m : prog A) srv h : steps_satisfy P m -> Forall P (trace srv h m).
Proof.
  intros Hm. apply (al_run any_exn m (fun t _ => Forall P t) srv h).
  - by intros ? ? ? _.
  - by apply al_of_steps.
Qed.
End StepsSatisfy.

Ltac ss_step :=
  lazymatch goal with
  | |- steps_satisfy _ (bind _ _) => apply ss_bind; [|intros]
  | |- steps_satisfy _ (try_except _ _) => apply ss_try_except; [|intros]
  | |- steps_satisfy _ (for_each _ _ _) => apply ss_for_each; intros
  | |- steps_satisfy _ (when _ _) => apply ss_when; intros
  | |- steps_satisfy ?P (call ?r) => refine (ss_call P r _); intros
  | |- steps_satisfy _ (log _ _) => apply ss_log
  | |- steps_satisfy _ (metric _) => apply ss_metric
  | |- steps_satisfy _ (Ret _) => constructor
  | |- steps_satisfy _ (Raise _) => constructor
  | |- steps_satisfy _ (let _ := _ in _) => cbv zeta
  | |- steps_satisfy _ (if ?c then _ else _) => destruct c eqn:?
  | |- steps_satisfy _ (match ?c with _ => _ end) => destruct c eqn:?
  end.

(** ** Printing and parsing the counters *)

Lemma pretty_N_char_digit d :
  (d < 10)%N ->
  is_digit (pretty_N_char d) = true /\ digit_value (pretty_N_char d) = Some (Z.of_N d).
Proof.
  intros Hd.
  assert (d = 0 \/ d = 1 \/ d = 2 \/ d = 3 \/ d = 4 \/ d = 5 \/ d = 6 \/ d = 7
          \/ d = 8 \/ d = 9)%N as H by lia.
  repeat (destruct H as [->|H]; [by vm_compute|]). subst. by vm_compute.
Qed.

Lemma pretty_N_go_digits x s :
  all_chars is_digit s = true -> all_chars is_digit (pretty_N_go x s) = true.
Proof.
  revert s. induction (N.lt_wf_0 x) as [x _ IH]; intros s Hs.
  destruct (decide (x = 0)%N) as [->|Hx]; [by rewrite pretty_N_go_0|].
  rewrite pretty_N_go_step by lia. apply IH; [apply N.div_lt; lia|].
  cbn [all_chars]. rewrite Hs, andb_true_r.
  apply pretty_N_char_digit, N.mod_lt. lia.
Qed.

Lemma pretty_N_go_nonempty x s : (0 < x)%N -> pretty_N_go x s <> "".
Proof.
  revert s. induction (N.lt_wf_0 x) as [x _ IH]; intros s Hx.
  rewrite pretty_N_go_step by done.
  destruct (decide (x `div` 10 = 0)%N) as [->|Hd]; [by rewrite pretty_N_go_0|].
  apply IH; [apply N.div_lt; lia|by apply N.neq_0_lt_0].
Qed.

Lemma int_digits_pretty_N_go x s :
  (0 < x)%N ->
  int_digits 0 false (pretty_N_go x s) = int_digits (Z.of_N x) true s.
Proof.
  revert s. induction (N.lt_wf_0 x) as [x _ IH]; intros s Hx.
  rewrite pretty_N_go_step by done.
  destruct (pretty_N_char_digit (x `mod` 10)) as [_ Hd]; [apply N.mod_lt; lia|].
  destruct (decide (x `div` 10 = 0)%N) as [Hz|Hnz].
  - rewrite Hz, pretty_N_go_0. cbn [int_digits]. rewrite Hd. f_equal.
    pose proof (N.div_mod x 10). lia.
  - rewrite IH; [|apply N.div_lt; lia|by apply N.neq_0_lt_0].
    cbn [int_digits]. rewrite Hd. f_equal.
    pose proof (N.div_mod x 10). lia.
Qed.

Lemma lstrip_id p s :
  (forall c, p c = true -> is_space c = false) -> all_chars p s = true -> lstrip s = s.
Proof.
  intros Hp. destruct s as [|c s]; [done|]. cbn [all_chars lstrip].
  intros [Hc _]%andb_true_iff. by rewrite (Hp c Hc).
Qed.

Lemma rstrip_id p s :
  (forall c, p c = true -> is_space c = false) -> all_chars p s = true -> rstrip s = s.
Proof.
  intros Hp. induction s as [|c s IH]; [done|]. cbn [all_chars rstrip].
  intros [Hc Hs]%andb_true_iff. rewrite (IH Hs), (Hp c Hc). by destruct s.
Qed.

Lemma str_strip_id p s :
  (forall c, p c = true -> is_space c = false) -> all_chars p s = true -> str_strip s = s.
Proof.
  intros Hp Hs. unfold str_strip. rewrite (lstrip_id p s Hp Hs). by apply (rstrip_id p).
Qed.

Lemma is_digit_cases c :
  is_digit c = true ->
  is_space c = false /\ Ascii.eqb c "+" = false /\ Ascii.eqb c "-" = false
  /\ Ascii.eqb c "/" = false.
Proof.
  destruct c as [[] [] [] [] [] [] [] []]; vm_compute; intros; try done.
Qed.

Lemma py_int_pretty_N_go x :
  (0 < x)%N -> py_int (pretty_N_go x "") = Some (Z.of_N x).
Proof.
  intros Hx. unfold py_int.
  pose proof (pretty_N_go_digits x "" eq_refl) as Hd.
  rewrite (str_strip_id is_digit) by (done || apply is_digit_cases).
  destruct (pretty_N_go x "") as [|c s] eqn:Hs; [by destruct (pretty_N_go_nonempty x "")|].
  cbn [all_chars] in Hd. apply andb_true_iff in Hd as [Hc _].
  destruct (is_digit_cases c Hc) as (_ & -> & -> & _).
  rewrite <- Hs, int_digits_pretty_N_go by done. done.
Qed.

Lemma py_int_pretty (z : Z) : py_int (pretty z) = Some z.
Proof.
  destruct z as [|p|p]; [done| |].
  - change (pretty (Z.pos p)) with (pretty_N_go (N.pos p) "").
    by rewrite py_int_pretty_N_go.
  - change (pretty (Z.neg p)) with (String "-" (pretty_N_go (N.pos p) "")).
    unfold py_int.
    pose proof (pretty_N_go_digits (N.pos p) "" eq_refl) as Hd.
    rewrite (str_strip_id (fun c => is_digit c || Ascii.eqb c "-")).
    + change (Ascii.eqb "-" "+") with false. change (Ascii.eqb "-" "-") with true.
      cbv iota. rewrite int_digits_pretty_N_go by done. done.
    + intros c [Hc|Hc]%orb_true_iff; [by apply is_digit_cases|].
      apply Ascii.eqb_eq in Hc. by subst.
    + cbn [all_chars]. change (is_digit "-" || Ascii.eqb "-" "-") with true.
      cbn [andb]. clear -Hd. induction (pretty_N_go (N.pos p) "") as [|c s IH]; [done|].
      cbn [all_chars] in *. apply andb_true_iff in Hd as [-> Hs]. by rewrite IH.
Qed.

Lemma all_chars_impl (p q : ascii -> bool) s :
  (forall c, p c = true -> q c = true) -> all_chars p s = true -> all_chars q s = true.
Proof.
  intros Hpq. induction s as [|c s IH]; [done|]. cbn [all_chars].
  intros [Hc Hs]%andb_true_iff. by rewrite (Hpq c Hc), IH.
Qed.

Lemma pretty_Z_chars (z : Z) :
  all_chars (fun c => is_digit c || Ascii.eqb c "-") (pretty z) = true.
Proof.
  destruct z as [|p|p]; [done| |].
  - change (pretty (Z.pos p)) with (pretty_N_go (N.pos p) "").
    eapply all_chars_impl; [|by apply (pretty_N_go_digits (N.pos p) "")].
    by intros c ->.
  - change (pretty (Z.neg p)) with (String "-" (pretty_N_go (N.pos p) "")).
    cbn [all_chars]. change (is_digit "-" || Ascii.eqb "-" "-") with true. cbn [andb].
    eapply all_chars_impl; [|by apply (pretty_N_go_digits (N.pos p) "")].
    by intros c ->.
Qed.

Lemma str_split_no_sep sep s :
  all_chars (fun c => negb (Ascii.eqb c sep)) s = true -> str_split sep s = [s].
Proof.
  induction s as [|c s IH]; [done|]. cbn [all_chars str_split].
  intros [Hc Hs]%andb_true_iff. apply negb_true_iff in Hc. by rewrite Hc, (IH Hs).
Qed.

Lemma str_split_app sep a b :
  all_chars (fun c => negb (Ascii.eqb c sep)) a = true ->
  str_split sep (a +:+ String sep b) = a :: str_split sep b.
Proof.
  induction a as [|c a IH]; cbn [all_chars].
  - intros _. change ("" +:+ String sep b) with (String sep b).
    cbn [str_split]. by rewrite Ascii.eqb_refl.
  - intros [Hc Ha]%andb_true_iff. apply negb_true_iff in Hc.
    change (String c a +:+ String sep b) with (String c (a +:+ String sep b)).
    cbn [str_split]. by rewrite Hc, (IH Ha).
Qed.

Lemma parse_ready_pretty (a b : Z) :
  parse_ready (pretty a +:+ "/" +:+ pretty b) = Some (a, b).
Proof.
  assert (forall z : Z, all_chars (fun c => negb (Ascii.eqb c "/")) (pretty z) = true)
    as Hno.
  { intros z. eapply all_chars_impl; [|apply pretty_Z_chars].
    intros c [Hc|Hc]%orb_true_iff.
    - by destruct (is_digit_cases c Hc) as (_ & _ & _ & ->).
    - apply Ascii.eqb_eq in Hc. by subst. }
  unfold parse_ready.
  change (pretty a +:+ "/" +:+ pretty b) with (pretty a +:+ String "/" (pretty b)).
  rewrite str_split_app, str_split_no_sep by apply Hno.
  cbn [map]. by rewrite !py_int_pretty.
Qed.

(** ** The registry *)

Lemma sample_inc_eq reg metric labels :
  metrics.sample (metrics.inc metric labels reg) metric labels
  = (metrics.sample reg metric labels + 1)%Z.
Proof. unfold metrics.inc, metrics.sample. by rewrite lookup_insert_eq. Qed.

Lemma sample_inc_ne reg metric labels metric' labels' :
  (metric, labels) <> (metric', labels') ->
  metrics.sample (metrics.inc metric labels reg) metric' labels'
  = metrics.sample reg metric' labels'.
Proof. intros. unfold metrics.inc, metrics.sample. by rewrite lookup_insert_ne. Qed.

Lemma sample_set_eq reg metric labels v :
  metrics.sample (metrics.gauge_set metric labels v reg) metric labels = v.
Proof. unfold metrics.gauge_set, metrics.sample. by rewrite lookup_insert_eq. Qed.

Lemma sample_set_ne reg metric labels v metric' labels' :
  (metric, labels) <> (metric', labels') ->
  metrics.sample (metrics.gauge_set metric labels v reg) metric' labels'
  = metrics.sample reg metric' labels'.
Proof. intros. unfold metrics.gauge_set, metrics.sample. by rewrite lookup_insert_ne. Qed.

Ltac sample_simpl :=
  repeat first
    [ rewrite sample_inc_eq
    | rewrite sample_set_eq
    | rewrite sample_inc_ne by congruence
    | rewrite sample_set_ne by congruence ].

Lemma update_phase_hit namespace phase reg :
  phase ∈ metrics.phases ->
  metrics.sample (metrics.update_phase namespace phase reg)
    metrics.clusters_by_phase [namespace; phase]
  = (metrics.sample reg metrics.clusters_by_phase [namespace; phase] + 1)%Z.
Proof.
  unfold metrics.update_phase. unfold metrics.phases. intros Hin.
  repeat (apply elem_of_cons in Hin as [->|Hin]); [..|by apply elem_of_nil in Hin];
    cbn [foldl]; repeat case_bool_decide; try done; sample_simpl; done.
Qed.

Lemma update_phase_miss namespace phase p reg :
  p ∈ metrics.phases -> p <> phase ->
  metrics.sample (metrics.update_phase namespace phase reg)
    metrics.clusters_by_phase [namespace; p] = 0%Z.
Proof.
  unfold metrics.update_phase. unfold metrics.phases. intros Hin Hne.
  repeat (apply elem_of_cons in Hin as [->|Hin]); [..|by apply elem_of_nil in Hin];
    cbn [foldl]; repeat case_bool_decide; try done; sample_simpl; done.
Qed.

Lemma update_phase_frame namespace phase metric labels reg :
  metric <> metrics.clusters_by_phase ->
  metrics.sample (metrics.update_phase namespace phase reg) metric labels
  = metrics.sample reg metric labels.
Proof.
  unfold metrics.update_phase. unfold metrics.phases. intros Hne.
  cbn [foldl]; repeat case_bool_decide; sample_simpl; done.
Qed.

Lemma counters_phase_known c : counters_phase c ∈ metrics.phases.
Proof.
  unfold counters_phase, metrics.phases.
  pose proof (cluster_phase_values (control_plane_ready c) (total_control_plane c)
                (data_plane_ready c) (total_data_plane c)) as H.
  repeat (apply elem_of_cons in H as [->|H]); [..|by apply elem_of_nil in H];
    repeat constructor.
Qed.

(** The update of the cluster metrics from a status of the monitor. *)
Lemma monitor_metrics_update namespace name now c reg :
  let reg' := metrics.update_cluster_metrics namespace name (monitor_status now name c) reg in
  metrics.sample reg' metrics.cluster_control_plane_nodes [namespace; name; "ready"]
  = control_plane_ready c
  /\ metrics.sample reg' metrics.cluster_control_plane_nodes [namespace; name; "total"]
     = total_control_plane c
  /\ metrics.sample reg' metrics.cluster_worker_nodes [namespace; name; "ready"]
     = data_plane_ready c
  /\ metrics.sample reg' metrics.cluster_worker_nodes [namespace; name; "total"]
     = total_data_plane c
  /\ metrics.sample reg' metrics.clusters_by_phase [namespace; counters_phase c]
     = (metrics.sample reg metrics.clusters_by_phase [namespace; counters_phase c] + 1)%Z
  /\ (forall p, p ∈ metrics.phases -> p <> counters_phase c ->
                metrics.sample reg' metrics.clusters_by_phase [namespace; p] = 0%Z).
Proof.
  intros reg'. subst reg'. unfold metrics.update_cluster_metrics, monitor_status.
  cbv zeta. cbn [phase controlPlaneReady dataPlaneReady default from_option id].
  unfold metrics.update_nodes. rewrite !parse_ready_pretty.
  unfold metrics.cluster_control_plane_nodes, metrics.cluster_worker_nodes.
  repeat split; sample_simpl; try done.
  - rewrite <- update_phase_hit by apply counters_phase_known. done.
  - intros p Hp Hne. sample_simpl. by apply update_phase_miss.
Qed.

Lemma kubeconfig_metric_frame m metric labels reg :
  is_kubeconfig_metric m ->
  metric <> metrics.kubeconfig_generation_success ->
  metric <> metrics.kubeconfig_generation_errors ->
  metrics.sample (apply_metric m reg) metric labels = metrics.sample reg metric labels.
Proof.
  destruct m; try done. intros _ H1 H2. cbn [apply_metric].
  unfold metrics.record_kubeconfig_generated. destruct success; sample_simpl; done.
Qed.

Lemma metrics_of_app t1 t2 : metrics_of (t1 ++ t2) = metrics_of t1 ++ metrics_of t2.
Proof. apply omap_app. Qed.

Lemma registry_after_app t1 t2 reg :
  registry_after (t1 ++ t2) reg = registry_after t2 (registry_after t1 reg).
Proof. unfold registry_after. by rewrite metrics_of_app, foldl_app. Qed.

Lemma registry_after_quiet t metric labels reg :
  Forall monitor_quiet t ->
  metric <> metrics.kubeconfig_generation_success ->
  metric <> metrics.kubeconfig_generation_errors ->
  metrics.sample (registry_after t reg) metric labels = metrics.sample reg metric labels.
Proof.
  intros Ht H1 H2. revert reg. induction Ht as [|e t He _ IH]; intros reg; [done|].
  change (e :: t) with ([e] ++ t). rewrite registry_after_app, IH.
  destruct e as [r resp|[lvl msg|m]]; try done.
  by apply kubeconfig_metric_frame.
Qed.

Lemma quiet_no_write t st : Forall monitor_quiet t -> ~ Exists (status_write_returned st) t.
Proof.
  intros Ht Hex. apply Exists_exists in Hex as (e & He & Hw).
  rewrite Forall_forall in Ht. specialize (Ht e He).
  destruct e as [r resp|o]; [|done]. destruct r; try done. by destruct resp.
Qed.

(** ** The gauges after a tick *)

Lemma shape_prefix now name namespace applied t0 t :
  Forall monitor_quiet t0 ->
  monitor_trace_shape now name namespace applied t ->
  monitor_trace_shape now name namespace applied (t0 ++ t).
Proof.
  intros H0 [Ht|(t1 & c & Ht1 & Hc & ->)].
  - left. by apply Forall_app.
  - right. exists (t0 ++ t1), c. split; [by apply Forall_app|]. by rewrite <- app_assoc.
Qed.

Lemma aggregate_quiet namespace applied :
  steps_satisfy monitor_quiet (aggregate namespace applied).
Proof.
  unfold aggregate, check_machine, get_nixos_configuration, get_machine.
  repeat ss_step; exact I.
Qed.

Lemma try_kubeconfig_paths_quiet ssh_base first_cp paths :
  steps_satisfy monitor_quiet (try_kubeconfig_paths ssh_base first_cp paths).
Proof.
  induction paths as [|path rest IH]; [constructor|].
  cbn [try_kubeconfig_paths].
  ss_step; [repeat ss_step; exact I|]. destruct a; [constructor|done].
Qed.

Lemma extract_kubeconfig_quiet nodes namespace :
  steps_satisfy monitor_quiet (extract_kubeconfig_from_control_plane nodes namespace).
Proof.
  unfold extract_kubeconfig_from_control_plane, get_machine, get_secret_data.
  destruct nodes as [|first_cp ?]; [constructor|].
  ss_step; [|repeat ss_step; exact I].
  ss_step; [ss_step; exact I|].
  ss_step; [repeat ss_step; exact I|].
  ss_step. { repeat ss_step; exact I. }
  ss_step; [apply try_kubeconfig_paths_quiet|].
  repeat ss_step; exact I.
Qed.

Lemma ensure_kubeconfig_secret_quiet name namespace c :
  steps_satisfy monitor_quiet (ensure_kubeconfig_secret name namespace c).
Proof.
  unfold ensure_kubeconfig_secret, create_secret.
  ss_step. ss_step; [|repeat ss_step; exact I].
  ss_step; [repeat ss_step; exact I|].
  destruct e; try (repeat ss_step; fail).
  ss_step; [|constructor].
  ss_step; [apply extract_kubeconfig_quiet|].
  repeat ss_step; exact I.
Qed.

Lemma monitor_shape now body name namespace :
  always any_exn (monitor_cluster_status now body name namespace)
    (fun t _ =>
       monitor_trace_shape now name namespace
         (default [] (appliedMachines (default empty_status (status body)))) t).
Proof.
  unfold monitor_cluster_status. cbv zeta.
  set (applied := default [] (appliedMachines (default empty_status (status body)))).
  set (shape := monitor_trace_shape now name namespace applied).
  assert (forall t0 t, Forall monitor_quiet t0 -> shape t -> shape (t0 ++ t)) as Hpre.
  { intros. by apply shape_prefix. }
  eapply al_bind with (Φ1 := fun t _ => Forall monitor_quiet t).
  { simpl. by repeat constructor. }
  2:{ intros t e Ht. by left. }
  intros t0 _ Ht0. eapply al_mono; [intros t res Ht; apply (Hpre t0 t Ht0 Ht)|].
  clear t0 Ht0.
  eapply al_try_except
    with (Φ1 := fun t res =>
                  match res with
                  | Returns _ => shape t
                  | Raises _ => Forall monitor_quiet t
                  end).
  2:{ intros t a Ht. exact Ht. }
  2:{ intros t e Ht. simpl. left. apply Forall_app. split; [done|by repeat constructor]. }
  destruct (negb (truthy_list applied)); [by left|].
  eapply al_bind
    with (Φ1 := fun t res =>
                  Forall monitor_quiet t
                  /\ match res with Returns c => counters_ok applied c | Raises _ => True end).
  { eapply al_mono; [|apply al_conj;
                       [apply al_of_steps, aggregate_quiet
                       |apply (al_of_triple any_exn any_call), aggregate_ok; done]].
    intros t [c|e] (Hq & _ & Hc); done. }
  2:{ intros t e [Ht _]. exact Ht. }
  intros t0 c [Ht0 Hc].
  eapply al_mono
    with (Φ := fun t res =>
                 match res with
                 | Returns _ => shape t
                 | Raises _ => Forall monitor_quiet t
                 end).
  { intros t [[]|e] Ht; [by apply Hpre|by apply Forall_app]. }
  clear t0 Ht0.
  eapply al_bind with (Φ1 := fun t _ => Forall monitor_quiet t).
  { apply al_of_steps, ensure_kubeconfig_secret_quiet. }
  2:{ intros t e Ht. exact Ht. }
  intros t0 _ Ht0.
  eapply al_mono
    with (Φ := fun t res =>
                 match res with
                 | Returns _ => shape t
                 | Raises _ => Forall monitor_quiet t
                 end).
  { intros t [[]|e] Ht; [by apply Hpre|by apply Forall_app]. }
  clear t0 Ht0.
  unfold update_cluster_status, call. cbn [bind try_except always log metric emit].
  intros [[]|e] _; cbn [bind try_except always log metric emit].
  - right. exists [], c. split; [constructor|split; [exact Hc|reflexivity]].
  - by repeat constructor.
Qed.

(** X12.  The gauges after a tick of the monitor.  If the tick wrote a
    status and the write returned, the status is the one computed from the
    counters of the tick, the node gauges of the cluster read exactly these
    counters (the "R/T" strings of the status parse back to the numbers they
    were printed from), the by-phase gauge of the namespace for the phase
    written is one more than before the tick, and the by-phase gauges of
    the other four phases are 0: the by-phase gauge counts status updates,
    not clusters.  If no status write returned, no gauge or counter changes
    apart from the two kubeconfig counters. *)
Theorem monitor_gauges srv h now body name namespace reg :
  let applied := default [] (appliedMachines (default empty_status (status body))) in
  let t := trace srv h (monitor_cluster_status now body name namespace) in
  let reg' := registry_after t reg in
  (forall st,
      Exists (status_write_returned st) t ->
      exists c,
        counters_ok applied c
        /\ st = monitor_status now name c
        /\ metrics.sample reg' metrics.cluster_control_plane_nodes
             [namespace; name; "ready"] = control_plane_ready c
        /\ metrics.sample reg' metrics.cluster_control_plane_nodes
             [namespace; name; "total"] = total_control_plane c
        /\ metrics.sample reg' metrics.cluster_worker_nodes
             [namespace; name; "ready"] = data_plane_ready c
        /\ metrics.sample reg' metrics.cluster_worker_nodes
             [namespace; name; "total"] = total_data_plane c
        /\ metrics.sample reg' metrics.clusters_by_phase [namespace; counters_phase c]
           = (metrics.sample reg metrics.clusters_by_phase
                [namespace; counters_phase c] + 1)%Z
        /\ (forall p, p ∈ metrics.phases -> p <> counters_phase c ->
                      metrics.sample reg' metrics.clusters_by_phase [namespace; p] = 0%Z))
  /\ ((forall st, ~ Exists (status_write_returned st) t) ->
      forall metric labels,
        metric <> metrics.kubeconfig_generation_success ->
        metric <> metrics.kubeconfig_generation_errors ->
        metrics.sample reg' metric labels = metrics.sample reg metric labels).
Proof.
  intros applied t reg'.
  pose proof (al_run any_exn _ _ srv h (raises_only_any srv)
                (monitor_shape now body name namespace)) as Hshape.
  cbv beta in Hshape. fold applied in Hshape.
  change (trace srv h (monitor_cluster_status now body name namespace)) with t in Hshape.
  clearbody t. destruct Hshape as [Hq|(t1 & c & Ht1 & Hc & Ht)].
  - split.
    + intros st Hex. by destruct (quiet_no_write t st).
    + intros _ metric labels. by apply registry_after_quiet.
  - set (st := monitor_status now name c) in *.
    assert (Exists (status_write_returned st) t) as Hwritten.
    { rewrite Ht. apply Exists_app. right. by apply Exists_cons_hd. }
    split; [|intros Hno; by destruct (Hno st)].
    intros st' Hex. exists c. split; [done|].
    assert (st' = st) as ->.
    { rewrite Ht in Hex. apply Exists_app in Hex as [Hex|Hex].
      - by destruct (quiet_no_write t1 st').
      - apply Exists_cons in Hex as [Hex|Hex]; [done|].
        apply Exists_cons in Hex as [[]|Hex].
        apply Exists_cons in Hex as [[]|Hex]. by apply Exists_nil in Hex. }
    split; [done|].
    assert (reg' = metrics.update_cluster_metrics namespace name st (registry_after t1 reg))
      as ->.
    { subst reg'. by rewrite Ht, registry_after_app. }
    destruct (monitor_metrics_update namespace name now c (registry_after t1 reg))
      as (H1 & H2 & H3 & H4 & H5 & H6).
    cbv zeta in *. fold st in H1, H2, H3, H4, H5, H6.
    repeat split; try done.
    rewrite H5. f_equal. by apply registry_after_quiet.
Qed.

(** One ready control-plane machine and no worker, starting from an empty
    registry. *)
Lemma monitor_gauges_witness :
  exists c,
    counters_ok (default [] (appliedMachines (default empty_status (status body_ready)))) c
    /\ metrics.sample
         (registry_after
            (trace (world_server world_ready) []
               (monitor_cluster_status "2024-01-01T00:00:00Z" body_ready "demo" "default"))
            ∅)
         metrics.clusters_by_phase ["default"; "Ready"] = 1%Z.
Proof.
  destruct (proj1 (monitor_gauges (world_server world_ready) [] "2024-01-01T00:00:00Z"
                     body_ready "demo" "default" ∅)
              (monitor_status "2024-01-01T00:00:00Z" "demo"
                 {| control_plane_ready := 1; data_plane_ready := 0;
                    total_control_plane := 1; total_data_plane := 0;
                    ready_control_plane_nodes := ["cp-01"] |}))
    as (c & Hc & Hst & _ & _ & _ & _ & Hphase & _).
  - vm_compute.
    repeat first [apply Exists_cons_hd; reflexivity | apply Exists_cons_tl].
  - exists c. split; [exact Hc|].
    assert (counters_phase c = "Ready") as Hp.
    { apply (f_equal phase) in Hst. cbn in Hst. by injection Hst as <-. }
    rewrite Hp in Hphase. rewrite Hphase. reflexivity.
Defined.

(** ** The outcome counters of a reconcile *)

Lemma outcome_metrics_app t1 t2 :
  outcome_metrics (t1 ++ t2) = outcome_metrics t1 ++ outcome_metrics t2.
Proof. apply omap_app. Qed.

Lemma outcome_metrics_none t : Forall no_outcome t -> outcome_metrics t = [].
Proof.
  induction 1 as [|e t He _ IH]; [done|].
  change (e :: t) with ([e] ++ t). rewrite outcome_metrics_app, IH.
  unfold no_outcome in He. unfold outcome_metrics at 1.
  change (omap outcome_metric_of [e])
    with (match outcome_metric_of e with Some m => [m] | None => [] end).
  by rewrite He.
Qed.

(** A step of [m] that emits no outcome metric can be put in front. *)
Lemma al_bind_no_outcome {A B} R (m : prog A) (f : A -> prog B)
    (X : list metric_call) :
  steps_satisfy no_outcome m ->
  (forall a,
      always R (f a)
        (fun t res =>
           match res with
           | Returns _ => outcome_metrics t = X
           | Raises _ => outcome_metrics t = []
           end)) ->
  always R (bind m f)
    (fun t res =>
       match res with
       | Returns _ => outcome_metrics t = X
       | Raises _ => outcome_metrics t = []
       end).
Proof.
  intros Hm Hf.
  eapply al_bind with (Φ1 := fun t _ => Forall no_outcome t).
  - by apply al_of_steps.
  - intros t a Ht. eapply al_mono; [|apply Hf].
    intros t' [b|e]; cbv beta; rewrite outcome_metrics_app, (outcome_metrics_none t Ht);
      done.
  - intros t e Ht. by apply outcome_metrics_none.
Qed.

Lemma select_no_outcome spec namespace role name st :
  steps_satisfy no_outcome (select_machines_for_cluster spec namespace role name st).
Proof.
  unfold select_machines_for_cluster, list_machines. repeat ss_step; reflexivity.
Qed.

Lemma join_token_no_outcome name namespace :
  steps_satisfy no_outcome (create_join_token_secret name namespace).
Proof. unfold create_join_token_secret, create_secret. repeat ss_step; reflexivity. Qed.

Lemma ensure_configuration_no_outcome name uid machine_name role spec namespace token cp
    workers info applied :
  steps_satisfy no_outcome
    (ensure_configuration name uid machine_name role spec namespace token cp workers info
       applied).
Proof.
  unfold ensure_configuration, get_nixos_configuration, patch_nixos_configuration_spec,
    create_nixos_configuration_for_machine, create_nixos_configuration_with_owner,
    get_machine.
  repeat ss_step; reflexivity.
Qed.

Lemma deletion_no_outcome name namespace body :
  steps_satisfy no_outcome (handle_cluster_deletion name namespace body).
Proof.
  unfold handle_cluster_deletion, delete_nixos_configuration, delete_secret.
  repeat ss_step; reflexivity.
Qed.

Lemma reconcile_body_outcome R now body spec name namespace :
  always R (reconcile_body now body spec name namespace)
    (fun t res =>
       match res with
       | Returns _ =>
           outcome_metrics t
           = if truthy_opt truthy_str (deletionTimestamp body) then []
             else [record_reconcile_success namespace name]
       | Raises _ => outcome_metrics t = []
       end).
Proof.
  unfold reconcile_body. cbv zeta.
  destruct (truthy_opt truthy_str (deletionTimestamp body)).
  { eapply al_mono; [|apply al_of_steps, deletion_no_outcome].
    intros t [a|e] Ht; by apply outcome_metrics_none. }
  destruct (negb _); [done|].
  apply al_bind_no_outcome; [apply select_no_outcome|intros control_plane_nodes].
  apply al_bind_no_outcome; [apply select_no_outcome|intros worker_nodes].
  destruct (negb _); [done|].
  apply al_bind_no_outcome; [apply join_token_no_outcome|intros token].
  apply al_bind_no_outcome; [|intros info].
  { unfold get_machine. repeat ss_step; reflexivity. }
  apply al_bind_no_outcome; [|intros applied_cp].
  { ss_step. apply ensure_configuration_no_outcome. }
  apply al_bind_no_outcome; [|intros applied].
  { ss_step. apply ensure_configuration_no_outcome. }
  unfold update_cluster_status, call. cbn [bind try_except always log metric emit].
  intros [[]|e] _; cbn [bind try_except always log metric emit]; reflexivity.
Qed.

Lemma reconcile_outcome_always now body spec name namespace :
  always env_exn (reconcile_kubernetes_cluster now body spec name namespace)
    (reconcile_outcome body name namespace).
Proof.
  unfold reconcile_kubernetes_cluster.
  cbn [bind log emit always].
  eapply al_try_except
    with (Φ1 := fun t res =>
                  match res with
                  | Returns _ =>
                      outcome_metrics t
                      = if truthy_opt truthy_str (deletionTimestamp body) then []
                        else [record_reconcile_success namespace name]
                  | Raises e => outcome_metrics t = [] /\ reconcile_body_error body e
                  end).
  - eapply al_mono;
      [|apply al_conj;
          [apply reconcile_body_outcome
          |apply (al_of_triple env_exn any_call), reconcile_body_raises; done]].
    intros t [a|e] [Ho [_ He]]; done.
  - intros t a Ht. exact Ht.
  - intros t e [Ht He].
    assert (forall t' : list entry, outcome_metrics (EOut (Log INFO ("Reconciling KubernetesCluster: " +:+ name)) :: t ++ t') = outcome_metrics t') as Hpre.
    { intros t'. change (EOut ?o :: t ++ t') with ([EOut o] ++ t ++ t').
      by rewrite !outcome_metrics_app, Ht. }
    destruct e as [status text|text|text|msg delay|msg];
      cbn [bind log metric emit always reconcile_outcome].
    + exists "unknown". split; [right; eexists; split; [|split; reflexivity]; exact I|].
      by rewrite Hpre.
    + exists "unknown". split; [right; eexists; split; [|split; reflexivity]; exact I|].
      by rewrite Hpre.
    + exists "unknown". split; [right; eexists; split; [|split; reflexivity]; exact I|].
      by rewrite Hpre.
    + exists "temporary". split; [|by rewrite Hpre].
      destruct He as [[]|[[? _]|He]]; [done|]. injection He as -> ->. by left.
    + exists "permanent". split; [done|]. by rewrite Hpre.
Qed.

Ltac metric_names :=
  unfold metrics.clusters_by_phase, metrics.cluster_control_plane_nodes,
    metrics.cluster_worker_nodes, metrics.cluster_reconcile_errors,
    metrics.cluster_reconcile_success, metrics.nixos_configs_created,
    metrics.nixos_configs_deleted, metrics.machines_selected,
    metrics.kubeconfig_generation_success, metrics.kubeconfig_generation_errors in *.

Lemma update_cluster_metrics_frame namespace name st metric labels reg :
  metric <> metrics.clusters_by_phase ->
  metric <> metrics.cluster_control_plane_nodes ->
  metric <> metrics.cluster_worker_nodes ->
  metrics.sample (metrics.update_cluster_metrics namespace name st reg) metric labels
  = metrics.sample reg metric labels.
Proof.
  intros H1 H2 H3. unfold metrics.update_cluster_metrics, metrics.update_nodes. cbv zeta.
  repeat case_match; sample_simpl; by apply update_phase_frame.
Qed.

Lemma outcome_counter_frame m metric labels reg :
  is_outcome_metric m = false ->
  metric = metrics.cluster_reconcile_success \/ metric = metrics.cluster_reconcile_errors ->
  metrics.sample (apply_metric m reg) metric labels = metrics.sample reg metric labels.
Proof.
  intros Hm Hmetric.
  destruct m as [? ?|? ? ?|? ? ?|? ?|? ? success|? ? ? ?|? ? ?|? ?|? ? ?]; try done;
    cbn [apply_metric].
  all: try (unfold metrics.record_nixos_config_created, metrics.record_nixos_config_deleted,
              metrics.record_kubeconfig_generated, metrics.record_machines_selected;
            metric_names).
  - destruct Hmetric as [-> | ->]; by sample_simpl.
  - destruct Hmetric as [-> | ->]; by sample_simpl.
  - destruct success, Hmetric as [-> | ->]; by sample_simpl.
  - destruct Hmetric as [-> | ->]; by sample_simpl.
  - destruct Hmetric as [-> | ->]; by apply update_cluster_metrics_frame.
Qed.

Lemma outcome_metrics_single m :
  outcome_metrics [EOut (Metric m)] = if is_outcome_metric m then [m] else [].
Proof. unfold outcome_metrics. simpl. by destruct (is_outcome_metric m). Qed.

(** Only the outcome metrics of a trace move the outcome counters. *)
Lemma registry_after_outcome t metric labels :
  metric = metrics.cluster_reconcile_success \/ metric = metrics.cluster_reconcile_errors ->
  forall reg reg',
    (forall labels', metrics.sample reg metric labels' = metrics.sample reg' metric labels') ->
    metrics.sample (registry_after t reg) metric labels
    = metrics.sample (foldl (fun reg m => apply_metric m reg) reg' (outcome_metrics t))
        metric labels.
Proof.
  intros Hmetric. revert labels. induction t as [|e t IH]; intros labels reg reg' Hagree.
  { apply Hagree. }
  change (e :: t) with ([e] ++ t). rewrite registry_after_app, outcome_metrics_app, foldl_app.
  apply IH. intros labels'.
  destruct e as [r resp|[lvl msg|m]]; try apply Hagree.
  change (registry_after [EOut (Metric m)] reg) with (apply_metric m reg).
  rewrite outcome_metrics_single.
  destruct (is_outcome_metric m) eqn:Hm; cbn [foldl].
  - destruct m as [ns c|ns c ty|? ? ?|? ?|? ? ?|? ? ? ?|? ? ?|? ?|? ? ?]; try done;
      cbn [apply_metric];
      unfold metrics.record_reconcile_success, metrics.record_reconcile_error.
    + destruct (decide ((metrics.cluster_reconcile_success, [ns; c])
                        = (metric, labels'))) as [[= <- <-]|Hne].
      * by rewrite !sample_inc_eq, Hagree.
      * by rewrite !sample_inc_ne.
    + destruct (decide ((metrics.cluster_reconcile_errors, [ns; c; ty])
                        = (metric, labels'))) as [[= <- <-]|Hne].
      * by rewrite !sample_inc_eq, Hagree.
      * by rewrite !sample_inc_ne.
  - rewrite outcome_counter_frame by done. apply Hagree.
Qed.

(** X13.  The outcome counters of a reconcile, against an API server that
    raises only its own exceptions.  A reconcile that returns adds one to
    the success counter of the cluster, unless the cluster is being deleted,
    in which case it adds nothing, and leaves every error counter as it is.
    A reconcile that raises leaves the success counter as it is and adds one
    to exactly one error counter of the cluster: [permanent] for a
    [PermanentError], [temporary] for the empty control-plane selection and
    [unknown] for every exception it wraps. *)
Theorem reconcile_outcome_counters srv h now body spec name namespace reg :
  raises_only env_exn srv ->
  let t := trace srv h (reconcile_kubernetes_cluster now body spec name namespace) in
  let reg' := registry_after t reg in
  let success r := metrics.sample r metrics.cluster_reconcile_success [namespace; name] in
  let errors r ty :=
    metrics.sample r metrics.cluster_reconcile_errors [namespace; name; ty] in
  match result srv h (reconcile_kubernetes_cluster now body spec name namespace) with
  | Returns _ =>
      success reg'
      = (success reg + if truthy_opt truthy_str (deletionTimestamp body) then 0 else 1)%Z
      /\ forall ty, errors reg' ty = errors reg ty
  | Raises e =>
      success reg' = success reg
      /\ exists ty,
           error_type e ty
           /\ errors reg' ty = (errors reg ty + 1)%Z
           /\ forall ty', ty' <> ty -> errors reg' ty' = errors reg ty'
  end.
Proof.
  intros Hsrv t reg' success errors.
  pose proof (al_run env_exn _ _ srv h Hsrv
                (reconcile_outcome_always now body spec name namespace)) as Hout.
  fold t in Hout. subst reg' success errors. cbv beta.
  assert (forall metric labels,
             metric = metrics.cluster_reconcile_success
             \/ metric = metrics.cluster_reconcile_errors ->
             metrics.sample (registry_after t reg) metric labels
             = metrics.sample (foldl (fun reg m => apply_metric m reg) reg
                                 (outcome_metrics t)) metric labels) as Hreg.
  { intros metric labels Hm. by apply registry_after_outcome. }
  pose proof (fun labels => Hreg metrics.cluster_reconcile_success labels (or_introl eq_refl))
    as Hs.
  pose proof (fun labels => Hreg metrics.cluster_reconcile_errors labels (or_intror eq_refl))
    as He.
  clear Hreg.
  destruct (result srv h _) as [[]|e]; cbn [reconcile_outcome] in Hout.
  - rewrite Hout in Hs, He. split.
    + rewrite Hs. destruct (truthy_opt truthy_str (deletionTimestamp body));
        cbn [foldl apply_metric]; [lia|].
      unfold metrics.record_reconcile_success. by rewrite sample_inc_eq.
    + intros ty. rewrite He. destruct (truthy_opt truthy_str (deletionTimestamp body));
        cbn [foldl apply_metric]; [done|].
      unfold metrics.record_reconcile_success. by rewrite sample_inc_ne.
  - destruct Hout as (ty & Hty & Hout). rewrite Hout in Hs, He.
    cbn [foldl apply_metric] in Hs, He. unfold metrics.record_reconcile_error in Hs, He.
    split; [rewrite Hs; by rewrite sample_inc_ne|].
    exists ty. split; [done|]. split.
    + rewrite He. by rewrite sample_inc_eq.
    + intros ty' Hne. rewrite He. rewrite sample_inc_ne; [done|]. intros [= ?]. done.
Qed.

(** Every call fails with NotFound: the reconcile raises, and one error
    counter of the cluster moves from 0 to 1. *)
Lemma reconcile_outcome_counters_witness :
  raises_only env_exn (failing_server not_found)
  /\ match result (failing_server not_found) []
             (reconcile_kubernetes_cluster "2024-01-01T00:00:00Z" body_fresh spec_fresh
                "demo" "default") with
     | Returns _ => True
     | Raises e =>
         exists ty,
           error_type e ty
           /\ metrics.sample
                (registry_after
                   (trace (failing_server not_found) []
                      (reconcile_kubernetes_cluster "2024-01-01T00:00:00Z" body_fresh
                         spec_fresh "demo" "default")) ∅)
                metrics.cluster_reconcile_errors ["default"; "demo"; ty]
              = (metrics.sample ∅ metrics.cluster_reconcile_errors ["default"; "demo"; ty]
                 + 1)%Z
     end.
Proof.
  assert (raises_only env_exn (failing_server not_found)) as Hsrv.
  { intros h r e [= <-]. exact I. }
  split; [exact Hsrv|].
  pose proof (reconcile_outcome_counters (failing_server not_found) []
                "2024-01-01T00:00:00Z" body_fresh spec_fresh "demo" "default" ∅ Hsrv) as H.
  cbv zeta in H. destruct (result _ _ _) as [[]|e]; [exact I|].
  destruct H as (_ & ty & Hty & Hinc & _). exists ty. split; [exact Hty|exact Hinc].
Defined.

(** ** Children need the join token *)

Lemma gu_bind {A B} G F (m : prog A) (f : A -> prog B) :
  guarded_until G F m -> guarded G F (bind m f).
Proof. induction 1; simpl; constructor; auto. Qed.

Lemma join_token_available_dec name e :
  join_token_available name e \/ ~ join_token_available name e.
Proof.
  destruct e as [r resp|o]; [|right; simpl; tauto].
  destruct r; try (right; simpl; tauto);
    (destruct resp as [?|e]; [|right; simpl; tauto]); simpl.
  - destruct (decide (name0 = name +:+ "-join-token")); tauto.
  - destruct (decide (secret_name body = name +:+ "-join-token")); tauto.
Qed.

Lemma join_token_guards name namespace :
  guarded_until (join_token_available name) is_child_create
    (create_join_token_secret name namespace).
Proof.
  unfold create_join_token_secret, create_secret, call. cbv zeta.
  cbn [bind try_except log emit].
  constructor; [by intros []|]. intros [s|e] Hg; cbn [bind try_except log emit].
  { exfalso. by apply Hg. }
  destruct e as [status text| | | |]; try constructor.
  destruct (status =? 404)%Z; [|constructor]. cbn [bind try_except log emit].
  constructor; [by intros []|]. intros [[]|e] Hg'; cbn [bind try_except log emit].
  { exfalso. by apply Hg'. }
  repeat constructor.
Qed.

Lemma reconcile_guarded now body spec name namespace :
  guarded (join_token_available name) is_child_create
    (reconcile_kubernetes_cluster now body spec name namespace).
Proof.
  unfold reconcile_kubernetes_cluster, reconcile_body.
  apply gd_bind; [apply gd_of_cs, cs_log|intros _].
  apply gd_try_except; [|intros e; apply gd_of_cs; repeat cs_step].
  destruct (truthy_opt truthy_str (deletionTimestamp body)).
  { apply gd_of_cs. eapply cs_weaken; [|apply deletion_calls]. by intros r [] []. }
  destruct (negb _); [constructor|].
  apply gd_bind; [|intros control_plane_nodes].
  { apply gd_of_cs. eapply cs_weaken; [|apply select_lists_only]. by intros r -> []. }
  apply gd_bind; [|intros worker_nodes].
  { apply gd_of_cs. eapply cs_weaken; [|apply select_lists_only]. by intros r -> []. }
  destruct (negb _); [constructor|].
  apply gu_bind, join_token_guards.
Qed.

(** X14.  A reconcile creates a child only after the Secret
    [<cluster>-join-token], which every child mounts, was read or created
    with success in the same reconcile: when the Secret can neither be read
    nor created, no child is created. *)
Theorem children_need_join_token srv h now body spec name namespace :
  trace_guarded (join_token_available name) is_child_create
    (trace srv h (reconcile_kubernetes_cluster now body spec name namespace)).
Proof. apply gd_run; [apply join_token_available_dec|apply reconcile_guarded]. Qed.

(** Scenario of the fresh cluster: the child [demo-cp-01] is created, and
    the read of the join token precedes it. *)
Lemma children_need_join_token_witness :
  exists t1 r resp t2,
    trace (world_server world_fresh) []
      (reconcile_kubernetes_cluster "2024-01-01T00:00:00Z" body_fresh spec_fresh
         "demo" "default")
    = t1 ++ ECall r resp :: t2
    /\ is_child_create r
    /\ Exists (join_token_available "demo") t1.
Proof.
  pose proof (children_need_join_token (world_server world_fresh) []
                "2024-01-01T00:00:00Z" body_fresh spec_fresh "demo" "default") as H.
  unfold trace_guarded in H.
  eexists (take 13 (trace (world_server world_fresh) []
      (reconcile_kubernetes_cluster "2024-01-01T00:00:00Z" body_fresh spec_fresh
         "demo" "default"))), _, _, _.
  split; [vm_compute; reflexivity|]. split; [exact I|].
  eapply H; [vm_compute; reflexivity|exact I].
Defined.

(** ** The cluster view of a reconcile *)

Lemma node_ip_fetched info m machine :
  dict_get m info = Some (machine_info_of machine) ->
  node_ip info m = str_or (default "" (ipAddress machine)) (default "" (hostname machine)).
Proof.
  intros Hget. unfold node_ip, str_or. cbv zeta. rewrite Hget.
  cbn [default from_option id machine_info_of info_ipAddress info_hostname truthy_opt].
  done.
Qed.

Lemma neutral_renders name cp workers info t :
  Forall (entry_satisfies no_child_no_status) t ->
  Forall (entry_satisfies (child_renders name cp workers info)) t
  /\ Forall (entry_satisfies (status_records cp workers)) t.
Proof.
  intros Ht. split; eapply Forall_impl; try exact Ht;
    intros [r resp|o] Hr; try done; by destruct r.
Qed.

Lemma neutral_view name namespace t :
  Forall (entry_satisfies no_child_no_status) t ->
  cluster_view name namespace [] [] [] t.
Proof.
  intros Ht. destruct (neutral_renders name [] [] [] t Ht) as [H1 H2].
  split; [done|]. split; [done|]. by intros m ?%elem_of_nil.
Qed.

Lemma select_neutral spec namespace role name st :
  calls_satisfy no_child_no_status (select_machines_for_cluster spec namespace role name st).
Proof.
  eapply cs_weaken; [|apply select_lists_only]. by intros r ->.
Qed.

Lemma join_token_neutral name namespace :
  calls_satisfy no_child_no_status (create_join_token_secret name namespace).
Proof. unfold create_join_token_secret, create_secret. repeat cs_step; exact I. Qed.

Lemma ensure_configuration_renders name uid machine_name role spec namespace cp workers
    info applied :
  calls_satisfy
    (fun r => child_renders name cp workers info r /\ status_records cp workers r)
    (ensure_configuration name uid machine_name role spec namespace
       (name +:+ "-join-token") cp workers info applied).
Proof.
  unfold ensure_configuration, get_nixos_configuration, patch_nixos_configuration_spec,
    create_nixos_configuration_for_machine, create_nixos_configuration_with_owner,
    get_machine.
  repeat cs_step; try (by split). split; [|exact I]. simpl. eauto.
Qed.

Lemma view_prefix name namespace cp workers info t0 t :
  Forall (entry_satisfies no_child_no_status) t0 ->
  cluster_view name namespace cp workers info t ->
  cluster_view name namespace cp workers info (t0 ++ t).
Proof.
  intros H0 (H1 & H2 & H3).
  destruct (neutral_renders name cp workers info t0 H0) as [H1' H2'].
  split; [by apply Forall_app|]. split; [by apply Forall_app|].
  intros m Hm. destruct (H3 m Hm) as (machine & Hf & Hip). exists machine.
  split; [|done]. unfold fetched in *. apply elem_of_app. by right.
Qed.

Lemma view_suffix name namespace cp workers info t t1 :
  cluster_view name namespace cp workers info t ->
  Forall (entry_satisfies no_child_no_status) t1 ->
  cluster_view name namespace cp workers info (t ++ t1).
Proof.
  intros (H1 & H2 & H3) Ht1.
  destruct (neutral_renders name cp workers info t1 Ht1) as [H1' H2'].
  split; [by apply Forall_app|]. split; [by apply Forall_app|].
  intros m Hm. destruct (H3 m Hm) as (machine & Hf & Hip). exists machine.
  split; [|done]. unfold fetched in *. apply elem_of_app. by left.
Qed.

(** The loop that fills [machines_info]. *)
Lemma machines_info_loop namespace (names : list string) :
  always any_exn
    (for_each names []
       (fun machines_info machine_name =>
          machine <- get_machine machine_name namespace ;;
          Ret (dict_set machine_name
                 {| info_hostname := Some (default "" (hostname machine));
                    info_ipAddress := Some (default "" (ipAddress machine)) |}
                 machines_info)))
    (fun t res =>
       Forall (entry_satisfies no_child_no_status) t
       /\ match res with
          | Returns info =>
              forall m, m ∈ names ->
                exists machine,
                  fetched namespace m machine t
                  /\ dict_get m info = Some (machine_info_of machine)
          | Raises _ => True
          end).
Proof.
  eapply al_mono;
    [|apply (al_for_each any_exn
               (fun done t info =>
                  Forall (entry_satisfies no_child_no_status) t
                  /\ forall m, m ∈ done ->
                       exists machine,
                         fetched namespace m machine t
                         /\ dict_get m info = Some (machine_info_of machine))
               (fun t _ => Forall (entry_satisfies no_child_no_status) t))].
  - intros t [info|e]; [done|]. by intros Ht.
  - split; [constructor|]. by intros m ?%elem_of_nil.
  - intros done t info x [Ht Hcov]. unfold get_machine, call. cbn [bind always].
    intros [machine|e] _; cbn [bind always].
    + split; [apply Forall_app; split; [done|by repeat constructor]|].
      intros m [Hm|Hm%list_elem_of_singleton]%elem_of_app.
      * destruct (decide (x = m)) as [->|Hne].
        -- exists machine. split; [|by rewrite dict_get_set_eq].
           unfold fetched. apply elem_of_app. right. by apply list_elem_of_singleton.
        -- destruct (Hcov m Hm) as (machine' & Hf & Hget). exists machine'.
           split; [unfold fetched in *; apply elem_of_app; by left|].
           by rewrite dict_get_set_ne.
      * subst m. exists machine. split; [|by rewrite dict_get_set_eq].
        unfold fetched. apply elem_of_app. right. by apply list_elem_of_singleton.
    + apply Forall_app. split; [done|by repeat constructor].
Qed.

Lemma reconcile_view now body spec name namespace :
  always any_exn (reconcile_kubernetes_cluster now body spec name namespace)
    (fun t _ => exists cp workers info, cluster_view name namespace cp workers info t).
Proof.
  set (V := fun t : list entry =>
              exists cp workers info, cluster_view name namespace cp workers info t).
  assert (forall t, Forall (entry_satisfies no_child_no_status) t -> V t) as Hneutral.
  { intros t Ht. exists [], [], []. by apply neutral_view. }
  assert (forall t0 t, Forall (entry_satisfies no_child_no_status) t0 -> V t -> V (t0 ++ t))
    as Hpre.
  { intros t0 t H0 (cp & workers & info & Hv). exists cp, workers, info.
    by apply view_prefix. }
  assert (forall t t1, V t -> Forall (entry_satisfies no_child_no_status) t1 -> V (t ++ t1))
    as Hsuf.
  { intros t t1 (cp & workers & info & Hv) H1. exists cp, workers, info.
    by apply view_suffix. }
  unfold reconcile_kubernetes_cluster. cbn [bind log emit always].
  eapply al_mono with (Φ := fun t _ => V t).
  { intros t _ Ht. apply (Hpre [EOut _] t); [by repeat constructor|done]. }
  eapply al_try_except with (Φ1 := fun t _ => V t).
  2:{ intros t a Ht. exact Ht. }
  2:{ intros t e Ht. destruct e; cbn [bind log metric emit always];
        apply Hsuf; try done; by repeat constructor. }
  unfold reconcile_body. cbv zeta.
  destruct (truthy_opt truthy_str (deletionTimestamp body)).
  { eapply al_mono; [|apply (al_of_triple any_exn), cs_triple, deletion_calls].
    intros t res [Ht _]. apply Hneutral. eapply Forall_impl; [exact Ht|].
    intros [r resp|o] Hr; [|done]. by destruct Hr. }
  destruct (negb _); [by apply Hneutral|].
  eapply al_bind with (Φ1 := fun t _ => Forall (entry_satisfies no_child_no_status) t).
  { eapply al_mono; [|apply (al_of_triple any_exn), cs_triple, select_neutral].
    by intros t res [Ht _]. }
  2:{ intros t e Ht. by apply Hneutral. }
  intros t0 control_plane_nodes Ht0.
  eapply al_mono with (Φ := fun t _ => V t); [intros t _ Ht; by apply Hpre|]. clear t0 Ht0.
  eapply al_bind with (Φ1 := fun t _ => Forall (entry_satisfies no_child_no_status) t).
  { eapply al_mono; [|apply (al_of_triple any_exn), cs_triple, select_neutral].
    by intros t res [Ht _]. }
  2:{ intros t e Ht. by apply Hneutral. }
  intros t0 worker_nodes Ht0.
  eapply al_mono with (Φ := fun t _ => V t); [intros t _ Ht; by apply Hpre|]. clear t0 Ht0.
  destruct (negb _); [by apply Hneutral|].
  eapply al_bind
    with (Φ1 := fun t res =>
                  Forall (entry_satisfies no_child_no_status) t
                  /\ match res with
                     | Returns s => s = name +:+ "-join-token"
                     | Raises _ => True
                     end).
  { eapply al_mono;
      [|apply al_conj;
          [apply (al_of_triple any_exn), cs_triple, join_token_neutral
          |apply (al_of_triple any_exn), join_token_returns_name]].
    intros t [s|e] [[Ht _] [_ Hs]]; done. }
  2:{ intros t e [Ht _]. by apply Hneutral. }
  intros t0 token [Ht0 ->].
  eapply al_mono with (Φ := fun t _ => V t); [intros t _ Ht; by apply Hpre|]. clear t0 Ht0.
  eapply al_bind; [apply machines_info_loop| |].
  2:{ intros t e [Ht _]. by apply Hneutral. }
  intros t0 info [Ht0 Hinfo]. cbv beta.
  set (P := fun r => child_renders name control_plane_nodes worker_nodes info r
                     /\ status_records control_plane_nodes worker_nodes r).
  eapply al_mono with (Φ := fun t _ => Forall (entry_satisfies P) t).
  { intros t _ Ht. exists control_plane_nodes, worker_nodes, info.
    destruct (neutral_renders name control_plane_nodes worker_nodes info t0 Ht0)
      as [H1 H2].
    split; [|split].
    - apply Forall_app. split; [done|]. eapply Forall_impl; [exact Ht|].
      intros [r resp|o]; [|done]. by intros [? _].
    - apply Forall_app. split; [done|]. eapply Forall_impl; [exact Ht|].
      intros [r resp|o]; [|done]. by intros [_ ?].
    - intros m Hm. destruct (Hinfo m Hm) as (machine & Hf & Hget). exists machine.
      split; [unfold fetched in *; apply elem_of_app; by left|].
      by apply node_ip_fetched. }
  eapply al_mono; [|apply (al_of_triple any_exn P), cs_triple].
  { by intros t res [Ht _]. }
  cs_step. { cs_step. apply ensure_configuration_renders. }
  cs_step. { cs_step. apply ensure_configuration_renders. }
  unfold update_cluster_status. repeat cs_step. split; [exact I|]. by split.
Qed.

(** X15.  Behind every reconcile there is one cluster view: the selected
    control-plane machines, the selected workers and their addresses.  Every
    child the reconcile creates carries, as its first two files, the
    [cluster.nix] rendered from this view and the reference to the Secret
    [<cluster>-join-token]; every status it writes records the same two
    selections; and the address of each selected machine in this view is
    the one of a Machine fetched in this reconcile: its [ipAddress], or else
    its [hostname], or else the empty string (never the placeholder
    "unknown" of the renderer). *)
Theorem reconcile_cluster_view srv h now body spec name namespace :
  exists cp workers info,
    cluster_view name namespace cp workers info
      (trace srv h (reconcile_kubernetes_cluster now body spec name namespace)).
Proof.
  apply (al_run any_exn _ _ srv h (raises_only_any srv)
           (reconcile_view now body spec name namespace)).
Qed.

(** The fresh cluster: the node line of [cp-01] in the [cluster.nix] of the
    child has the host name of the Machine, which has no [ipAddress]. *)
Example reconcile_renders_fetched_address :
  omap (fun e =>
          match e with
          | ECall (create_namespaced_custom_object _ _ _ _ child) _ =>
              match cfg_additionalFiles (body_spec child) with
              | Some (f :: _) => inline f
              | _ => None
              end
          | _ => None
          end)
    (trace (world_server world_fresh) []
       (reconcile_kubernetes_cluster "2024-01-01T00:00:00Z" body_fresh spec_fresh
          "demo" "default"))
  = [generate_cluster_config "demo" ["cp-01"] []
       [("cp-01", {| info_hostname := Some "cp-01.local"; info_ipAddress := Some "" |})]].
Proof. vm_compute. reflexivity. Qed.

(** ** Children are created when absent *)

Section GuardedExn.
Context (G : entry -> Prop) (F : request -> Prop) (E : exn -> Prop).

Lemma ge_bind {A B} (m : prog A) (f : A -> prog B) :
  guarded_exn G F E m -> (forall a, guarded_exn G F E (f a)) ->
  guarded_exn G F E (bind m f).
Proof. intros Hm Hf. induction Hm; simpl; auto; constructor; auto. Qed.

Lemma ge_try_except {A} (m : prog A) hd :
  guarded_exn G F E m -> (forall e, E e -> guarded G F (hd e)) ->
  guarded G F (try_except m hd).
Proof. intros Hm Hh. induction Hm; simpl; auto; constructor; auto. Qed.

Lemma ge_log lvl msg : guarded_exn G F E (log lvl msg).
Proof. repeat constructor. Qed.

Lemma ge_for_each {S X} (l : list X) (s : S) (body : S -> X -> prog S) :
  (forall s x, guarded_exn G F E (body s x)) -> guarded_exn G F E (for_each l s body).
Proof.
  intros Hb. revert s. induction l as [|x l IH]; intros s; simpl.
  - constructor.
  - apply ge_bind; auto.
Qed.

Lemma gd_for_each {S X} (l : list X) (s : S) (body : S -> X -> prog S) :
  (forall s x, guarded G F (body s x)) -> guarded G F (for_each l s body).
Proof.
  intros Hb. revert s. induction l as [|x l IH]; intros s; simpl.
  - constructor.
  - apply gd_bind; auto.
Qed.
End GuardedExn.

Lemma child_reported_absent_dec c e :
  child_reported_absent c e \/ ~ child_reported_absent c e.
Proof.
  destruct e as [r resp|o]; [|right; simpl; tauto].
  destruct r; try (right; simpl; tauto).
  - destruct resp as [?|e]; [right; simpl; tauto|]. simpl.
    destruct (decide (plural = "nixosconfigurations")); [|right; tauto].
    destruct (decide (name = c)); [|right; tauto].
    destruct (says_not_found e); [by left|right]. by intros (_ & _ & ?).
  - destruct resp as [?|e]; [right; simpl; tauto|]. simpl.
    destruct (decide (plural = "nixosconfigurations")); [|right; tauto].
    destruct (decide (name = c)); [|right; tauto].
    destruct (says_not_found e); [by left|right]. by intros (_ & _ & ?).
Qed.

Lemma ensure_configuration_guarded c name uid machine_name role spec namespace token cp
    workers info applied :
  guarded (child_reported_absent c) (creates_child_named c)
    (ensure_configuration name uid machine_name role spec namespace token cp workers info
       applied).
Proof.
  destruct (decide (name +:+ "-" +:+ machine_name = c)) as [<-|Hne].
  2:{ apply gd_of_cs.
      unfold ensure_configuration, get_nixos_configuration, patch_nixos_configuration_spec,
        create_nixos_configuration_for_machine, create_nixos_configuration_with_owner,
        get_machine.
      repeat cs_step; try (by intros []). intros Hc. by apply Hne. }
  unfold ensure_configuration. cbv zeta.
  set (c := name +:+ "-" +:+ machine_name).
  apply ge_try_except with (E := fun e => says_not_found e = false).
  2:{ intros e He. unfold says_not_found in He. rewrite He. constructor. }
  unfold get_nixos_configuration, patch_nixos_configuration_spec, call.
  cbn [bind try_except log emit].
  constructor; [by intros []|]. intros [existing|e] Hg; cbn [bind try_except log emit].
  2:{ repeat constructor. destruct (says_not_found e) eqn:He; [|done].
      exfalso. apply Hg. by repeat split. }
  constructor. apply ge_bind; [apply ge_for_each; intros; apply ge_log|intros _].
  apply ge_bind; [|intros _; constructor].
  destruct (truthy_list _); [|constructor]. cbn [when bind try_except log emit].
  constructor; [by intros []|]. intros [[]|e] Hg'; cbn [bind try_except log emit].
  { repeat constructor. }
  repeat constructor. destruct (says_not_found e) eqn:He; [|done].
  exfalso. apply Hg'. by repeat split.
Qed.

Lemma reconcile_creates_guarded c now body spec name namespace :
  guarded (child_reported_absent c) (creates_child_named c)
    (reconcile_kubernetes_cluster now body spec name namespace).
Proof.
  unfold reconcile_kubernetes_cluster, reconcile_body.
  apply gd_bind; [apply gd_of_cs, cs_log|intros _].
  apply gd_try_except; [|intros e; apply gd_of_cs; repeat cs_step].
  destruct (truthy_opt truthy_str (deletionTimestamp body)).
  { apply gd_of_cs. eapply cs_weaken; [|apply deletion_calls]. by intros r [] []. }
  destruct (negb _); [constructor|].
  apply gd_bind; [|intros control_plane_nodes].
  { apply gd_of_cs. eapply cs_weaken; [|apply select_lists_only]. by intros r -> []. }
  apply gd_bind; [|intros worker_nodes].
  { apply gd_of_cs. eapply cs_weaken; [|apply select_lists_only]. by intros r -> []. }
  destruct (negb _); [constructor|].
  apply gd_bind; [|intros token].
  { apply gd_of_cs. eapply cs_weaken; [|apply join_token_neutral]. intros r Hr Hc.
    by destruct r. }
  apply gd_bind; [|intros info].
  { apply gd_of_cs. unfold get_machine. repeat cs_step. by intros []. }
  apply gd_bind; [|intros applied_cp].
  { apply gd_for_each. intros. apply ensure_configuration_guarded. }
  apply gd_bind; [|intros applied_all].
  { apply gd_for_each. intros. apply ensure_configuration_guarded. }
  apply gd_of_cs. unfold update_cluster_status. repeat cs_step. by intros [].
Qed.

(** X16.  A reconcile creates the child [c] only after its read of [c], or
    its drift patch of [c], failed in the same reconcile with an exception
    whose text contains "404" or, in any letter case, "not found": a child
    whose read succeeds, or fails in another way, is never created again. *)
Theorem child_created_only_if_absent srv h now body spec name namespace c :
  trace_guarded (child_reported_absent c) (creates_child_named c)
    (trace srv h (reconcile_kubernetes_cluster now body spec name namespace)).
Proof. apply gd_run; [apply child_reported_absent_dec|apply reconcile_creates_guarded]. Qed.

(** The fresh cluster: the child [demo-cp-01] is created after its read
    was answered with NotFound. *)
Lemma child_created_only_if_absent_witness :
  exists t1 r resp t2,
    trace (world_server world_fresh) []
      (reconcile_kubernetes_cluster "2024-01-01T00:00:00Z" body_fresh spec_fresh
         "demo" "default")
    = t1 ++ ECall r resp :: t2
    /\ creates_child_named "demo-cp-01" r
    /\ Exists (child_reported_absent "demo-cp-01") t1.
Proof.
  pose proof (child_created_only_if_absent (world_server world_fresh) []
                "2024-01-01T00:00:00Z" body_fresh spec_fresh "demo" "default"
                "demo-cp-01") as H.
  unfold trace_guarded in H.
  eexists (take 13 (trace (world_server world_fresh) []
      (reconcile_kubernetes_cluster "2024-01-01T00:00:00Z" body_fresh spec_fresh
         "demo" "default"))), _, _, _.
  split; [vm_compute; reflexivity|]. split; [reflexivity|].
  eapply H; [vm_compute; reflexivity|reflexivity].
Defined.

(** ** What the handlers never do *)

Lemma reconcile_live_no_delete now body spec name namespace :
  truthy_opt truthy_str (deletionTimestamp body) = false ->
  calls_satisfy (fun r => ~ is_delete r /\ ~ other_secret_write (name +:+ "-join-token") r)
    (reconcile_kubernetes_cluster now body spec name namespace).
Proof.
  intros Hdel. unfold reconcile_kubernetes_cluster, reconcile_body. rewrite Hdel.
  cs_step; [cs_step|]. cs_step; [|repeat cs_step].
  destruct (negb _); [constructor|].
  cs_step. { unfold select_machines_for_cluster, list_machines. repeat cs_step; by split; intros []. }
  cs_step. { unfold select_machines_for_cluster, list_machines. repeat cs_step; by split; intros []. }
  cs_step; [constructor|].
  cs_step.
  { unfold create_join_token_secret, create_secret. repeat cs_step; by split; intros []. }
  cs_step. { unfold get_machine. repeat cs_step; by split; intros []. }
  assert (forall uid m role token cp workers info applied,
             calls_satisfy
               (fun r => ~ is_delete r /\ ~ other_secret_write (name +:+ "-join-token") r)
               (ensure_configuration name uid m role spec namespace token cp workers info
                  applied)) as Hens.
  { intros. unfold ensure_configuration, get_nixos_configuration,
      patch_nixos_configuration_spec, create_nixos_configuration_for_machine,
      create_nixos_configuration_with_owner, get_machine.
    repeat cs_step; by split; intros []. }
  cs_step. { cs_step. apply Hens. }
  cs_step. { cs_step. apply Hens. }
  unfold update_cluster_status. repeat cs_step; by split; intros [].
Qed.

Lemma monitor_writes_nothing_else now body name namespace :
  calls_satisfy
    (fun r => ~ writes_object r /\ ~ other_secret_write (name +:+ "-kubeconfig") r)
    (monitor_cluster_status now body name namespace).
Proof.
  eapply cs_weaken; [|apply monitor_calls].
  intros r Hr. destruct Hr; split; by intros [].
Qed.

(** X17.  What the handlers never do.  A reconcile of a cluster that is not
    being deleted deletes nothing, neither a child nor a Secret, and creates
    no Secret but [<cluster>-join-token]: machines that were applied once
    keep their children whatever the spec says now.  A tick of the monitor
    never creates, patches or deletes a Machine or a child, deletes no
    Secret, and creates no Secret but [<cluster>-kubeconfig]. *)
Theorem handlers_never_delete srv h now body spec name namespace :
  truthy_opt truthy_str (deletionTimestamp body) = false ->
  Forall (entry_satisfies
            (fun r => ~ is_delete r /\ ~ other_secret_write (name +:+ "-join-token") r))
    (trace srv h (reconcile_kubernetes_cluster now body spec name namespace))
  /\ Forall (entry_satisfies
               (fun r => ~ writes_object r
                         /\ ~ other_secret_write (name +:+ "-kubeconfig") r))
       (trace srv h (monitor_cluster_status now body name namespace)).
Proof.
  intros Hdel. split; apply cs_run.
  - by apply reconcile_live_no_delete.
  - apply monitor_writes_nothing_else.
Qed.

(** The fresh cluster. *)
Lemma handlers_never_delete_witness :
  Forall (entry_satisfies
            (fun r => ~ is_delete r /\ ~ other_secret_write ("demo" +:+ "-join-token") r))
    (trace (world_server world_fresh) []
       (reconcile_kubernetes_cluster "2024-01-01T00:00:00Z" body_fresh spec_fresh
          "demo" "default")).
Proof.
  apply (handlers_never_delete (world_server world_fresh) [] "2024-01-01T00:00:00Z"
           body_fresh spec_fresh "demo" "default").
  reflexivity.
Defined.

(** ** The gauge of the selection *)

Lemma select_metrics spec namespace role name st :
  truthy_str name = true ->
  always any_exn (select_machines_for_cluster spec namespace role name st)
    (fun t res =>
       exists sel, res = Returns sel
                   /\ selection_metrics namespace name role
                        (default 0 (count (spec_get_role spec role))) sel (metrics_of t)).
Proof.
  intros Hname. unfold select_machines_for_cluster. cbv zeta. rewrite Hname.
  cbn [when].
  destruct (truthy_opt truthy_list (machines (spec_get_role spec role))).
  { cbn [bind metric emit always]. eexists. split; [done|]. right. by left. }
  set (fresh := if (default 0 (count (spec_get_role spec role)) =? 0)%Z then _ else _).
  assert (always any_exn fresh
            (fun t res =>
               exists sel, res = Returns sel
                           /\ selection_metrics namespace name role
                        (default 0 (count (spec_get_role spec role))) sel (metrics_of t)))
    as Hfresh.
  { subst fresh. destruct (_ =? _)%Z eqn:Hcount.
    - cbn [always]. exists []. split; [done|]. left. by apply Z.eqb_eq in Hcount.
    - unfold list_machines, call. cbn [bind try_except metric log emit always].
      intros [machines|e] _; cbn [bind try_except metric log emit always];
        (eexists; split; [done|]; right; by right). }
  destruct st as [st|]; [|destruct (status_key role); exact Hfresh].
  destruct (status_key role) as [key|]; [|exact Hfresh].
  destruct (truthy_status st); [|exact Hfresh].
  destruct (truthy_list (status_get_selected st key)); [|exact Hfresh].
  cbn [bind metric log emit always]. eexists. split; [done|]. right. by left.
Qed.

(** X18.  The gauge of the selection.  A selection for a named cluster
    never raises, and leaves the gauge [nico_machines_selected] of its role
    at the number of machines it returns, with one exception: it may return
    the empty selection without touching any metric, and then the count of
    the role is absent or 0 and the gauge keeps whatever it showed before.
    No other gauge or counter changes. *)
Theorem selection_gauge srv h spec namespace role name st reg :
  truthy_str name = true ->
  let t := trace srv h (select_machines_for_cluster spec namespace role name st) in
  let reg' := registry_after t reg in
  exists sel,
    result srv h (select_machines_for_cluster spec namespace role name st) = Returns sel
    /\ (metrics.sample reg' metrics.machines_selected [namespace; name; role]
        = Z.of_nat (length sel)
        \/ (sel = [] /\ reg' = reg /\ default 0 (count (spec_get_role spec role)) = 0%Z))
    /\ forall metric labels,
         (metric, labels) <> (metrics.machines_selected, [namespace; name; role]) ->
         metrics.sample reg' metric labels = metrics.sample reg metric labels.
Proof.
  intros Hname t reg'.
  destruct (al_run any_exn _ _ srv h (raises_only_any srv)
              (select_metrics spec namespace role name st Hname))
    as (sel & Hres & Hms).
  exists sel. split; [exact Hres|]. subst reg'. unfold registry_after.
  change (metrics_of (trace srv h (select_machines_for_cluster spec namespace role name st)))
    with (metrics_of t) in Hms |- *.
  destruct Hms as [(-> & -> & Hcount)|[-> | ->]]; cbn [foldl apply_metric];
    unfold metrics.record_machines_selected.
  - split; [by right|done].
  - split; [left; by rewrite sample_set_eq|]. intros metric labels Hne.
    by rewrite sample_set_ne.
  - split; [left; by rewrite sample_set_eq|]. intros metric labels Hne.
    by rewrite sample_set_ne.
Qed.

(** Scenario S1: two of the three workers are free. *)
Lemma selection_gauge_witness :
  exists sel,
    result (world_server world_s1) []
      (select_machines_for_cluster
         (example_spec None (Some (example_role [("r", "w")] 2)))
         "default" "dataPlane" "demo" None) = Returns sel
    /\ metrics.sample
         (registry_after
            (trace (world_server world_s1) []
               (select_machines_for_cluster
                  (example_spec None (Some (example_role [("r", "w")] 2)))
                  "default" "dataPlane" "demo" None)) ∅)
         metrics.machines_selected ["default"; "demo"; "dataPlane"]
       = Z.of_nat (length sel).
Proof.
  destruct (selection_gauge (world_server world_s1) []
              (example_spec None (Some (example_role [("r", "w")] 2)))
              "default" "dataPlane" "demo" None ∅ eq_refl)
    as (sel & Hres & [Hg|(_ & _ & Hcount)] & _).
  - exists sel. split; [exact Hres|exact Hg].
  - discriminate Hcount.
Defined.
